(** * Invasive-species monitoring dashboard: session store, permission
      policy, report repository and verification workflow

    A shallow embedding of the client-side core of [js/main.js]:
    - [saveUserSession], [checkExistingLogin], [clearUserSession],
      [trackUserLogin], [trackUserLogout]   (session store, activity log);
    - [canVerifyReports], [isAdminUser]       (permission policy);
    - [getReportById], [verifyReport]         (report repository, mock data);
    - [showVerificationModal], [submitVerification],
      [closeVerificationModal]                (verification workflow);
    - [createReport], [handleReportSubmission],
      [updateReportsStatistics]               (submissions and statistics);
    - [handleLogin], [authenticateUser], [refreshUserSession], [logout]
      and the handlers of [setupSessionRefresh] (session life cycle);
    - [getUserActivityData], [loadAdminDashboard],
      [clearUserActivityLog], [formatDuration] (administrator's view);
    - [showSection], [loadSectionData],
      [checkLoginAndShowSection]              (navigation).

    JavaScript objects are records whose possibly-[undefined] properties
    are [option]s.  [localStorage] is an interface ([Storage]) with a
    reliable instance, [gmap string string], and two faulty ones;
    [JSON.stringify]/[JSON.parse] are an interface ([JSON]) with the laws
    the code relies on ([JSONLaws]) and an executable instance
    ([JSONText]).  Exceptions and [try]/[catch] are an exception-and-state
    monad.  The DOM and the notification sink are an explicit trace of
    effects.  The clock is read once per call and passed in.

    The first half of the file holds the definitions, the second half
    their properties; the modules [ScenarioFacts] and [WalkthroughFacts]
    run them on the mock data of the source. *)

From Stdlib Require Import ZArith Ascii String List Lia.
From Stdlib Require Import Decimal DecimalString DecimalPos DecimalZ.
From stdpp Require Import base option gmap strings list.

Local Open Scope Z_scope.
Local Open Scope string_scope.

(* ================================================================== *)
(** * JavaScript primitives used by the code *)
(* ================================================================== *)

Module JS.

(** Truthiness of a string-or-[undefined]/[null] value:
    [undefined], [null] and the empty string are falsy. *)
Definition truthy (v : option string) : bool :=
  match v with
  | Some s => negb (String.eqb s "")
  | None => false
  end.

(** [a || b] on such values. *)
Definition or_else (a b : option string) : option string :=
  if truthy a then a else b.

(** [a === b] on strings-or-[undefined]. *)
Definition strict_eq (a b : option string) : bool := bool_decide (a = b).

(** A template literal [${v}] prints [undefined] as that word. *)
Definition template (v : option string) : string := default "undefined" v.

(** ** [Number.prototype.toString] and [parseInt] on integer timestamps

    Timestamps are integer millisecond counts, printed in plain decimal. *)

Definition Number_toString (n : Z) : string :=
  NilZero.string_of_int (Z.to_int n).

Definition is_whitespace (c : ascii) : bool :=
  let n := nat_of_ascii c in
  (Nat.eqb n 32 || (Nat.leb 9 n && Nat.leb n 13))%bool.

Fixpoint skip_whitespace (s : string) : string :=
  match s with
  | String c s' => if is_whitespace c then skip_whitespace s' else s
  | EmptyString => s
  end.

Definition decimal_digit (c : ascii) : option Z :=
  let n := nat_of_ascii c in
  if (Nat.leb 48 n && Nat.leb n 57)%bool then Some (Z.of_nat n - 48) else None.

Definition hex_digit (c : ascii) : option Z :=
  let n := nat_of_ascii c in
  if (Nat.leb 48 n && Nat.leb n 57)%bool then Some (Z.of_nat n - 48)
  else if (Nat.leb 65 n && Nat.leb n 70)%bool then Some (Z.of_nat n - 55)
  else if (Nat.leb 97 n && Nat.leb n 102)%bool then Some (Z.of_nat n - 87)
  else None.

(** The longest prefix of digits, accumulated in [acc]; [None] while no
    digit has been read (the result is then [NaN]). *)
Fixpoint read_digits (radix : Z) (digit : ascii -> option Z)
    (acc : option Z) (s : string) : option Z :=
  match s with
  | String c s' =>
      match digit c with
      | Some d => read_digits radix digit (Some (radix * default 0 acc + d)) s'
      | None => acc
      end
  | EmptyString => acc
  end.

(** [parseInt] after white space and sign: hexadecimal after [0x],
    decimal otherwise. *)
Definition parse_unsigned (s : string) : option Z :=
  match s with
  | String "0" (String "x" r) => read_digits 16 hex_digit None r
  | String "0" (String "X" r) => read_digits 16 hex_digit None r
  | _ => read_digits 10 decimal_digit None s
  end.

(** [parseInt(s)] without a radix argument; [None] is [NaN]. *)
Definition parseInt (s : string) : option Z :=
  let s0 := skip_whitespace s in
  let '(negative, s1) :=
    match s0 with
    | String "-" r => (true, r)
    | String "+" r => (false, r)
    | _ => (false, s0)
    end in
  (fun m => if negative then - m else m) <$> parse_unsigned s1.

(** [a < b] where [b] may be [NaN]: every comparison with [NaN] is false. *)
Definition lt_num (a : Z) (b : option Z) : bool :=
  match b with Some b' => Z.ltb a b' | None => false end.

(** [a === b] where [a] may be [NaN]. *)
Definition eq_num (a : option Z) (b : Z) : bool :=
  match a with Some a' => Z.eqb a' b | None => false end.

(** [s.substring(0, n)]. *)
Definition substring0 (n : nat) (s : string) : string := String.substring 0 n s.

(** [s.toLowerCase()] on ASCII letters. *)
Definition lower_ascii (c : ascii) : ascii :=
  let n := nat_of_ascii c in
  if (Nat.leb 65 n && Nat.leb n 90)%bool then ascii_of_nat (n + 32) else c.

Fixpoint toLowerCase (s : string) : string :=
  match s with
  | String c s' => String (lower_ascii c) (toLowerCase s')
  | EmptyString => EmptyString
  end.

(** [l.slice(-n)]: the last [n] elements. *)
Definition slice_last {A} (n : nat) (l : list A) : list A :=
  drop (length l - n) l.

End JS.

(* ================================================================== *)
(** * Data model *)
(* ================================================================== *)

(** A user object.  Every property the code reads may be [undefined]
    (the object returned by [createUser] is a [{data: ...}] wrapper with
    none of them). *)
Record User := {
  user_id : option string;
  username : option string;
  full_name : option string;
  email : option string;
  user_type : option string;
}.

(** An entry of the activity log, as built in [trackUserLogin].
    [logoutTime] and [sessionDuration] start as [null]. *)
Record ActivityEntry := {
  entry_id : string;
  userId : option string;
  entry_username : option string;
  fullName : option string;
  entry_email : option string;
  userType : option string;
  loginTime : Z;
  logoutTime : option Z;
  isActive : bool;
  sessionDuration : option Z;
  environment : string;
  userAgent : string;
}.

#[global] Instance User_eq_dec : EqDecision User.
Proof. solve_decision. Defined.

#[global] Instance ActivityEntry_eq_dec : EqDecision ActivityEntry.
Proof. solve_decision. Defined.

(* ================================================================== *)
(** * The platform the session store runs on *)
(* ================================================================== *)

(** The persistence medium ([localStorage]): key/value string storage.
    [None] means that the call raises (quota exceeded, access denied);
    [getItem] answers [Some None] for [null]. *)
Class Storage (S : Type) := {
  getItem : string -> S -> option (option string);
  setItem : string -> string -> S -> option S;
  removeItem : string -> S -> option S;
}.

(** The Web Storage behaviour: every call succeeds and a read returns
    what was last written. *)
#[global] Instance reliable_storage : Storage (gmap string string) := {
  getItem k s := Some (s !! k);
  setItem k v s := Some (<[k := v]> s);
  removeItem k s := Some (delete k s);
}.

(** [JSON.stringify] and [JSON.parse] at the two types the session store
    serialises: a user object and the array of log entries, both made of
    strings, integers, booleans, [null] and absent properties only.
    [None] means that [JSON.parse] raises, or yields a value that is not
    of that shape. *)
Class JSON := {
  JSON_stringify_user : User -> string;
  JSON_parse_user : string -> option User;
  JSON_stringify_log : list ActivityEntry -> string;
  JSON_parse_log : string -> option (list ActivityEntry);
}.

(** What the code relies on: parsing what was printed gives the value
    back, a JSON text is never empty, and ['[]'] is the empty array. *)
Class JSONLaws `{JSON} : Prop := {
  parse_stringify_user u : JSON_parse_user (JSON_stringify_user u) = Some u;
  stringify_user_nonempty u : JSON_stringify_user u <> "";
  parse_stringify_log l : JSON_parse_log (JSON_stringify_log l) = Some l;
  stringify_log_nonempty l : JSON_stringify_log l <> "";
  parse_empty_array : JSON_parse_log "[]" = Some [];
}.

(** What the page reads from [window], [navigator] and its helpers.
    [generateId] is called by [trackUserLogin]; [js/main.js] does not
    define it, so it is a parameter here (the [n]-th call returns
    [generateId n]). *)
Record Env := {
  storage_defined : bool;      (* typeof Storage !== "undefined" *)
  location_origin : string;    (* window.location.origin *)
  navigator_userAgent : string;
  generateId : nat -> string;
}.

(* ================================================================== *)
(** * Session store *)
(* ================================================================== *)

Module SessionStore.
Import JS.

(** What the session store does to the page besides storage. *)
Inductive Effect :=
  | Alert (message : string)
  | ScheduleRestoreSession (user : User)   (* setTimeout(restoreSession, ..) *)
  | ScheduleLoginScreen.                   (* setTimeout(showLoginScreen, 200) *)

(** The mutable state the session store touches: [localStorage], the
    global [currentUser], [invasiveSpeciesAPI.currentUser], the number of
    [generateId] calls made so far, and the effects issued. *)
Record World (S : Type) := {
  localStorage : S;
  currentUser : option User;
  api_currentUser : option User;
  id_calls : nat;
  effects : list Effect;
}.
Arguments localStorage {S} _.
Arguments currentUser {S} _.
Arguments api_currentUser {S} _.
Arguments id_calls {S} _.
Arguments effects {S} _.

(** ** Exceptions over state

    A computation returns a value or raises; the state reached when it
    raises is kept, as [catch] blocks run in it. *)
Inductive outcome (A : Type) :=
  | Return (a : A)
  | Throw.
Arguments Return {A} a.
Arguments Throw {A}.

Definition M (S A : Type) : Type := World S -> outcome A * World S.

Definition ret {S A} (a : A) : M S A := fun w => (Return a, w).

Definition throw {S A} : M S A := fun w => (Throw, w).

Definition bind {S A B} (c : M S A) (k : A -> M S B) : M S B :=
  fun w =>
    match c w with
    | (Return a, w') => k a w'
    | (Throw, w') => (Throw, w')
    end.

(** [try { c } catch { handler }]. *)
Definition try_catch {S A} (c handler : M S A) : M S A :=
  fun w =>
    match c w with
    | (Return a, w') => (Return a, w')
    | (Throw, w') => handler w'
    end.

(** The result of a function whose body is one [try]/[catch]: it never
    raises, the second case cannot occur. *)
Definition run {S A} (fallback : A) (c : M S A) (w : World S) : A * World S :=
  match c w with
  | (Return a, w') => (a, w')
  | (Throw, w') => (fallback, w')
  end.

Declare Scope js_scope.
Delimit Scope js_scope with js.
Notation "x <- c ;; k" := (bind c (fun x => k))
  (at level 100, c at next level, right associativity) : js_scope.
Notation "c ;;; k" := (bind c (fun _ => k))
  (at level 100, right associativity) : js_scope.
Local Open Scope js_scope.

Section Operations.
Context {S : Type} `{Storage S} `{JSON}.
Variable env : Env.

Definition with_storage (s : S) (w : World S) : World S :=
  {| localStorage := s; currentUser := currentUser w;
     api_currentUser := api_currentUser w; id_calls := id_calls w;
     effects := effects w |}.

Definition localStorage_getItem (k : string) : M S (option string) :=
  fun w =>
    match getItem k (localStorage w) with
    | Some v => (Return v, w)
    | None => (Throw, w)
    end.

Definition localStorage_setItem (k v : string) : M S unit :=
  fun w =>
    match setItem k v (localStorage w) with
    | Some s => (Return tt, with_storage s w)
    | None => (Throw, w)
    end.

Definition localStorage_removeItem (k : string) : M S unit :=
  fun w =>
    match removeItem k (localStorage w) with
    | Some s => (Return tt, with_storage s w)
    | None => (Throw, w)
    end.

Definition JSON_parse {A} (parse : string -> option A) (text : string) : M S A :=
  match parse text with
  | Some a => ret a
  | None => throw
  end.

Definition call_generateId : M S string :=
  fun w =>
    (Return (generateId env (id_calls w)),
     {| localStorage := localStorage w; currentUser := currentUser w;
        api_currentUser := api_currentUser w; id_calls := Datatypes.S (id_calls w);
        effects := effects w |}).

Definition emit (e : Effect) : M S unit :=
  fun w =>
    (Return tt,
     {| localStorage := localStorage w; currentUser := currentUser w;
        api_currentUser := api_currentUser w; id_calls := id_calls w;
        effects := (effects w ++ [e])%list |}).

Definition get_currentUser : M S (option User) :=
  fun w => (Return (currentUser w), w).

(** [currentUser = user; invasiveSpeciesAPI.currentUser = user]. *)
Definition set_currentUser (user : User) : M S unit :=
  fun w =>
    (Return tt,
     {| localStorage := localStorage w; currentUser := Some user;
        api_currentUser := Some user; id_calls := id_calls w;
        effects := effects w |}).

(** ** Activity log *)

(** [entry.userId === user.id || entry.username === user.username]. *)
Definition same_user (user : User) (entry : ActivityEntry) : bool :=
  strict_eq (userId entry) (user_id user)
  || strict_eq (entry_username entry) (username user).

Definition end_session (time : Z) (entry : ActivityEntry) : ActivityEntry :=
  {| entry_id := entry_id entry; userId := userId entry;
     entry_username := entry_username entry; fullName := fullName entry;
     entry_email := entry_email entry; userType := userType entry;
     loginTime := loginTime entry;
     logoutTime := Some time;
     isActive := false;
     sessionDuration := Some (time - loginTime entry);
     environment := environment entry; userAgent := userAgent entry |}.

(** The body of the [forEach] in [trackUserLogin]. *)
Definition mark_previous_inactive (user : User) (loginTime : Z)
    (entry : ActivityEntry) : ActivityEntry :=
  if same_user user entry then
    if isActive entry then end_session loginTime entry else entry
  else entry.

(** The body of the [forEach] in [trackUserLogout]. *)
Definition mark_logged_out (user : User) (logoutTime : Z)
    (entry : ActivityEntry) : ActivityEntry :=
  if same_user user entry && isActive entry
  then end_session logoutTime entry
  else entry.

Definition loginEntry (newId : string) (user : User) (loginTime : Z) : ActivityEntry :=
  {| entry_id := newId;
     userId := or_else (user_id user) (username user);
     entry_username := username user;
     fullName := full_name user;
     entry_email := email user;
     userType := user_type user;
     loginTime := loginTime;
     logoutTime := None;
     isActive := true;
     sessionDuration := None;
     environment := location_origin env;
     userAgent := substring0 200 (navigator_userAgent env) |}.

(** [JSON.parse(localStorage.getItem('ipsms_user_activity_log') || '[]')]. *)
Definition read_activity_log : M S (list ActivityEntry) :=
  stored <- localStorage_getItem "ipsms_user_activity_log" ;;
  JSON_parse JSON_parse_log (default "[]" (or_else stored (Some "[]"))).

Definition trackUserLogin (user : User) (loginTime : Z) : M S unit :=
  try_catch
    (userActivityLog <- read_activity_log ;;
     newId <- call_generateId ;;
     let entry := loginEntry newId user loginTime in
     let userActivityLog := mark_previous_inactive user loginTime <$> userActivityLog in
     let userActivityLog := (userActivityLog ++ [entry])%list in
     let userActivityLog :=
       if Nat.ltb 100 (length userActivityLog)
       then slice_last 100 userActivityLog
       else userActivityLog in
     localStorage_setItem "ipsms_user_activity_log" (JSON_stringify_log userActivityLog))
    (ret tt).

Definition trackUserLogout (user : User) (logoutTime : Z) : M S unit :=
  try_catch
    (userActivityLog <- read_activity_log ;;
     let userActivityLog := mark_logged_out user logoutTime <$> userActivityLog in
     localStorage_setItem "ipsms_user_activity_log" (JSON_stringify_log userActivityLog))
    (ret tt).

(** ** Session *)

Definition session_lifetime : Z := 24 * 60 * 60 * 1000.

(** [clearUserSession()], the clock reading [now]. *)
Definition clearUserSession (now : Z) : M S unit :=
  try_catch
    (user <- get_currentUser ;;
     match user with
     | Some u => trackUserLogout u now
     | None => ret tt
     end ;;;
     localStorage_removeItem "ipsms_user" ;;;
     localStorage_removeItem "ipsms_session_expiry" ;;;
     localStorage_removeItem "ipsms_login_time")
    (ret tt).

(** [saveUserSession(user)], the clock reading [now]. *)
Definition saveUserSession (now : Z) (user : User) : World S -> bool * World S :=
  run false (try_catch
    (let expiryTime := now + session_lifetime in
     if negb (storage_defined env) then
       emit (Alert "Your browser does not support localStorage. Session persistence will not work.") ;;;
       ret false
     else
       writable <- try_catch
                     (localStorage_setItem "ipsms_test" "test" ;;;
                      localStorage_removeItem "ipsms_test" ;;;
                      ret true)
                     (ret false) ;;
       if negb writable then ret false
       else
         localStorage_setItem "ipsms_user" (JSON_stringify_user user) ;;;
         localStorage_setItem "ipsms_session_expiry" (Number_toString expiryTime) ;;;
         localStorage_setItem "ipsms_login_time" (Number_toString now) ;;;
         localStorage_setItem "ipsms_environment" (location_origin env) ;;;
         trackUserLogin user now ;;;
         testRead <- localStorage_getItem "ipsms_user" ;;
         testExpiry <- localStorage_getItem "ipsms_session_expiry" ;;
         if truthy testRead && truthy testExpiry then
           try_catch
             (parsedUser <- JSON_parse JSON_parse_user (default "" testRead) ;;
              let parsedExpiry := parseInt (default "" testExpiry) in
              if strict_eq (full_name parsedUser) (full_name user)
                 && eq_num parsedExpiry expiryTime
              then ret true
              else ret false)
             (ret false)
         else ret false)
    (ret false)).

(** [checkExistingLogin()], the clock reading [now].  The argument of the
    first [console.log] parses the saved user and can raise. *)
Definition checkExistingLogin (now : Z) : World S -> bool * World S :=
  run false
    (restored <- try_catch
       (savedUser <- localStorage_getItem "ipsms_user" ;;
        sessionExpiry <- localStorage_getItem "ipsms_session_expiry" ;;
        (if truthy savedUser
         then JSON_parse JSON_parse_user (default "" savedUser) ;;; ret tt
         else ret tt) ;;;
        if truthy savedUser && truthy sessionExpiry then
          let expiryTime := parseInt (default "" sessionExpiry) in
          if lt_num now expiryTime then
            user <- JSON_parse JSON_parse_user (default "" savedUser) ;;
            set_currentUser user ;;;
            emit (ScheduleRestoreSession user) ;;;
            ret true
          else
            clearUserSession now ;;;
            ret false
        else ret false)
       (clearUserSession now ;;; ret false) ;;
     if (restored : bool) then ret true
     else emit ScheduleLoginScreen ;;; ret false).

End Operations.

(** ** What the operations amount to, for stating their properties *)

Section Views.
Context `{JSON}.
Variable env : Env.

(** The log after a login has been recorded. *)
Definition log_after_login (newId : string) (user : User) (time : Z)
    (log : list ActivityEntry) : list ActivityEntry :=
  slice_last 100
    ((mark_previous_inactive user time <$> log) ++ [loginEntry env newId user time])%list.

(** The log after a logout has been recorded. *)
Definition log_after_logout (user : User) (time : Z)
    (log : list ActivityEntry) : list ActivityEntry :=
  mark_logged_out user time <$> log.

(** The entries of [user] that are still marked active. *)
Definition active_sessions (user : User) (log : list ActivityEntry) : list ActivityEntry :=
  filter (fun e => same_user user e && isActive e = true) log.

(** The entries marked active, and the invariant that no two of them
    carry the same [userId] or the same [username]. *)
Definition still_active (log : list ActivityEntry) : list ActivityEntry :=
  filter (fun e => isActive e = true) log.

Definition distinct_active (log : list ActivityEntry) : Prop :=
  NoDup (userId <$> still_active log)
  /\ NoDup (entry_username <$> still_active log).

(** The activity log held by a reliable store, if it parses. *)
Definition activity_log (w : World (gmap string string))
    : option (list ActivityEntry) :=
  JSON_parse_log (default "[]" (or_else (localStorage w !! "ipsms_user_activity_log") (Some "[]"))).

(** The session of the specification, [{user, issuedAt, expiresAt}], as
    the three keys of a reliable store hold it. *)
Record Session := {
  session_user : User;
  issuedAt : Z;
  expiresAt : Z;
}.

Definition stored_session (s : gmap string string) : option Session :=
  text ← s !! "ipsms_user";
  user ← JSON_parse_user text;
  issued ← s !! "ipsms_login_time" ≫= parseInt;
  expires ← s !! "ipsms_session_expiry" ≫= parseInt;
  Some {| session_user := user; issuedAt := issued; expiresAt := expires |}.

(** The store after the writes of [saveUserSession]. *)
Definition session_saved (now : Z) (user : User) (s : gmap string string)
    : gmap string string :=
  <["ipsms_environment" := location_origin env]>
    (<["ipsms_login_time" := Number_toString now]>
       (<["ipsms_session_expiry" := Number_toString (now + session_lifetime)]>
          (<["ipsms_user" := JSON_stringify_user user]>
             (delete "ipsms_test" (<["ipsms_test" := "test"]> s))))).

(** The store after the removals of [clearUserSession]. *)
Definition session_cleared (s : gmap string string) : gmap string string :=
  delete "ipsms_login_time" (delete "ipsms_session_expiry" (delete "ipsms_user" s)).

(** The world after [trackUserLogin] has recorded a login. *)
Definition login_recorded (user : User) (time : Z) (log : list ActivityEntry)
    (w : World (gmap string string)) : World (gmap string string) :=
  {| localStorage :=
       <["ipsms_user_activity_log" :=
           JSON_stringify_log
             (log_after_login (generateId env (id_calls w)) user time log)]>
         (localStorage w);
     currentUser := currentUser w;
     api_currentUser := api_currentUser w;
     id_calls := Datatypes.S (id_calls w);
     effects := effects w |}.

(** The store after the logout tracking of [clearUserSession]. *)
Definition logout_tracked (time : Z) (w : World (gmap string string))
    : gmap string string :=
  match currentUser w, activity_log w with
  | Some user, Some log =>
      <["ipsms_user_activity_log" :=
          JSON_stringify_log (log_after_logout user time log)]> (localStorage w)
  | _, _ => localStorage w
  end.

(** The world [saveUserSession] leaves on a reliable store. *)
Definition saved_world (now : Z) (user : User) (w : World (gmap string string))
    : World (gmap string string) :=
  match activity_log w with
  | Some log =>
      login_recorded user now log
        (with_storage (session_saved now user (localStorage w)) w)
  | None => with_storage (session_saved now user (localStorage w)) w
  end.


End Views.

(** ** The storage calls of [saveUserSession], one by one *)

Section Calls.
Context {S : Type} `{Storage S} `{JSON}.
Variable env : Env.

(** The writes before the login is tracked; [None] when one raises. *)
Definition write_session (now : Z) (user : User) (s : S) : option S :=
  s1 ← setItem "ipsms_test" "test" s;
  s2 ← removeItem "ipsms_test" s1;
  s3 ← setItem "ipsms_user" (JSON_stringify_user user) s2;
  s4 ← setItem "ipsms_session_expiry" (Number_toString (now + session_lifetime)) s3;
  s5 ← setItem "ipsms_login_time" (Number_toString now) s4;
  setItem "ipsms_environment" (location_origin env) s5.



(** The verification: both values present, the user parses and carries
    the same [full_name], the expiry reads as the one computed. *)
Definition read_back_matches (now : Z) (user : User)
    (read : option string * option string) : bool :=
  truthy read.1 && truthy read.2
  && match JSON_parse_user (default "" read.1) with
     | Some parsedUser =>
         strict_eq (full_name parsedUser) (full_name user)
         && eq_num (parseInt (default "" read.2)) (now + session_lifetime)
     | None => false
     end.

End Calls.

(** ** Sequences of session operations *)




(** ** Two faulty media *)

(** A medium on which every write raises (a full or forbidden store). *)
Inductive read_only := ReadOnly.

#[global] Instance read_only_storage : Storage read_only := {
  getItem _ _ := Some None;
  setItem _ _ _ := None;
  removeItem _ s := Some s;
}.

(** A medium that accepts every write and keeps nothing. *)
Inductive forgetful := Forgetful.

#[global] Instance forgetful_storage : Storage forgetful := {
  getItem _ _ := Some None;
  setItem _ _ s := Some s;
  removeItem _ s := Some s;
}.

End SessionStore.

(* ================================================================== *)
(** * Permission policy *)
(* ================================================================== *)

Module Permission.

Definition allowedTypes : list string :=
  ["Researcher"; "Administrator"; "Government Official"].

(** [allowedTypes.includes(v)]; [undefined] is in no list of strings. *)
Definition includes (l : list string) (v : option string) : bool :=
  match v with
  | Some s => bool_decide (s ∈ l)
  | None => false
  end.

(** [canVerifyReports(user)]; [None] is [null]. *)
Definition canVerifyReports (user : option User) : bool :=
  match user with
  | None => false
  | Some u => includes allowedTypes (user_type u)
  end.

(** [isAdminUser(user)], as a condition. *)
Definition isAdminUser (user : option User) : bool :=
  match user with
  | None => false
  | Some u => JS.strict_eq (user_type u) (Some "Administrator")
  end.

End Permission.

(* ================================================================== *)
(** * Report repository ([InvasiveSpeciesAPI] over its mock data) *)
(* ================================================================== *)

Module Repository.

Record Species := {
  species_key : string;            (* id *)
  scientific_name : string;
}.

(** A sighting report.  The verification properties are absent from a
    report nobody has reviewed.  The coordinates and the other
    descriptive properties, which no function below reads or writes, are
    left out. *)
Record Report := {
  report_id : string;
  species_id : string;
  location_description : string;
  reporter_name : string;
  reporter_type : string;
  population_size : string;
  threat_assessment : string;
  confidence_level : string;
  notes : string;
  report_date : string;
  verification_status : option string;
  verified_by : option string;
  verification_date : option string;
  verification_notes : option string;
}.

#[global] Instance Report_eq_dec : EqDecision Report.
Proof. solve_decision. Defined.

Record MockData := {
  species : list Species;
  reports : list Report;
}.

Record InvasiveSpeciesAPI := {
  useMockData : bool;
  mockData : MockData;
}.

(** [new InvasiveSpeciesAPI()]: the constructor sets [useMockData] to
    [true]; nothing else assigns it. *)
Definition new_InvasiveSpeciesAPI (data : MockData) : InvasiveSpeciesAPI :=
  {| useMockData := true; mockData := data |}.

Record VerificationData := {
  vd_verification_status : string;
  vd_verified_by : string;
  vd_verification_date : string;
  vd_verification_notes : string;
}.

(** What [makeRequest] hands to [fetch] when the mock data is off. *)
Inductive Request :=
  | GET (endpoint : string)
  | PATCH (endpoint : string) (body : VerificationData).

(** How the promise of an [async] method settles.  [Network] stands for
    a request handed to [fetch], whose answer is outside the page. *)
Inductive Promise (A : Type) :=
  | Resolved (a : A)
  | Rejected (message : string)
  | Network (request : Request).
Arguments Resolved {A} a.
Arguments Rejected {A} message.
Arguments Network {A} request.

(** The answer of [getReportById]: [{...report, species_name}]. *)
Record ReportData := {
  data : Report;
  species_name : string;
}.

(** [Object.assign(report, verificationData)]. *)
Definition Object_assign (report : Report) (v : VerificationData) : Report :=
  {| report_id := report_id report;
     species_id := species_id report;
     location_description := location_description report;
     reporter_name := reporter_name report;
     reporter_type := reporter_type report;
     population_size := population_size report;
     threat_assessment := threat_assessment report;
     confidence_level := confidence_level report;
     notes := notes report;
     report_date := report_date report;
     verification_status := Some (vd_verification_status v);
     verified_by := Some (vd_verified_by v);
     verification_date := Some (vd_verification_date v);
     verification_notes := Some (vd_verification_notes v) |}.

(** [reports.find(r => r.id === id)], with the position of the match: the
    found object is the one stored there. *)
Definition find_report (id : string) (l : list Report) : option (nat * Report) :=
  list_find (fun r => report_id r = id) l.

Definition find_species (id : string) (l : list Species) : option (nat * Species) :=
  list_find (fun s => species_key s = id) l.

Definition with_reports (l : list Report) (api : InvasiveSpeciesAPI) : InvasiveSpeciesAPI :=
  {| useMockData := useMockData api;
     mockData := {| species := species (mockData api); reports := l |} |}.

Definition getReportById (api : InvasiveSpeciesAPI) (id : string) : Promise ReportData :=
  if useMockData api then
    match find_report id (reports (mockData api)) with
    | Some (_, report) =>
        Resolved
          {| data := report;
             species_name :=
               match find_species (species_id report) (species (mockData api)) with
               | Some (_, s) => scientific_name s
               | None => "Unknown Species"
               end |}
    | None => Rejected "Report not found"
    end
  else Network (GET ("tables/sighting_reports/" ++ id)).

(** [verifyReport(id, verifierName, status, notes = '')]; [now] is
    [new Date().toISOString()].  The found report is updated in place and
    returned. *)
Definition verifyReport (api : InvasiveSpeciesAPI)
    (id verifierName status : string) (notes : option string) (now : string)
    : Promise Report * InvasiveSpeciesAPI :=
  let verificationData :=
    {| vd_verification_status := status;
       vd_verified_by := verifierName;
       vd_verification_date := now;
       vd_verification_notes := default "" notes |} in
  if useMockData api then
    match find_report id (reports (mockData api)) with
    | Some (i, report) =>
        let report' := Object_assign report verificationData in
        (Resolved report', with_reports (<[i := report']> (reports (mockData api))) api)
    | None => (Rejected "Report not found", api)
    end
  else (Network (PATCH ("tables/sighting_reports/" ++ id) verificationData), api).

End Repository.

(* ================================================================== *)
(** * Verification workflow *)
(* ================================================================== *)

Module Workflow.
Import Permission Repository.

(** The modal [div#verification-modal]: the report it was opened for and
    the values its form controls hold. *)
Record Modal := {
  modal_reportId : string;
  modal_report : ReportData;
  verifying_as : string;
  verification_status_value : string;    (* select#verification-status *)
  verifier_name_value : string;          (* input#verifier-name, readonly *)
  verification_notes_value : string;     (* textarea#verification-notes *)
}.

(** What the workflow does to the page and to the repository, in order. *)
Inductive Event :=
  | ShowError (message : string)
  | ShowSuccess (message : string)
  | ShowLogin
  | ShowLoading
  | HideLoading
  | PreventDefault
  | CallGetReportById (id : string)
  | CallVerifyReport (id verifierName status notes : string)
  | AwaitNetwork (request : Request)
  | LoadRecentReports
  | UncaughtTypeError.

(** The page: the global [currentUser], the repository, the modals in the
    document (in document order: [getElementById] finds the first), and
    the events so far. *)
Record Page := {
  currentUser : option User;
  invasiveSpeciesAPI : InvasiveSpeciesAPI;
  modals : list Modal;
  trace : list Event;
}.

Definition log (es : list Event) (p : Page) : Page :=
  {| currentUser := currentUser p; invasiveSpeciesAPI := invasiveSpeciesAPI p;
     modals := modals p; trace := (trace p ++ es)%list |}.

Definition with_api (api : InvasiveSpeciesAPI) (p : Page) : Page :=
  {| currentUser := currentUser p; invasiveSpeciesAPI := api;
     modals := modals p; trace := trace p |}.

Definition with_modals (ms : list Modal) (p : Page) : Page :=
  {| currentUser := currentUser p; invasiveSpeciesAPI := invasiveSpeciesAPI p;
     modals := ms; trace := trace p |}.

(** The workflow is closed when the document holds no modal. *)
Definition closed (p : Page) : Prop := modals p = [].

(** The modal built from the template: no status selected, the verifier
    name preset to the acting user's, no notes. *)
Definition new_modal (reportId : string) (report : ReportData) (user : User) : Modal :=
  {| modal_reportId := reportId;
     modal_report := report;
     verifying_as :=
       JS.template (full_name user) ++ " (" ++ JS.template (user_type user) ++ ")";
     verification_status_value := "";
     verifier_name_value := JS.template (full_name user);
     verification_notes_value := "" |}.

(** [showVerificationModal(reportId)], run until the promise of
    [getReportById] has settled. *)
Definition showVerificationModal (reportId : string) (p : Page) : Page :=
  match currentUser p with
  | None => log [ShowError "Please log in to verify reports."; ShowLogin] p
  | Some user =>
      if negb (canVerifyReports (Some user)) then
        log [ShowError "You do not have permission to verify reports. Only Researchers, Administrators, and Government Officials can verify reports."] p
      else
        let p := log [CallGetReportById reportId] p in
        match getReportById (invasiveSpeciesAPI p) reportId with
        | Resolved reportData =>
            with_modals (modals p ++ [new_modal reportId reportData user])%list p
        | Rejected _ =>
            log [ShowError "Failed to load report details for verification."] p
        | Network request => log [AwaitNetwork request] p
        end
  end.

(** [closeVerificationModal()]. *)
Definition closeVerificationModal (p : Page) : Page :=
  with_modals (tail (modals p)) p.

(** [submitVerification(event, reportId)]; [now] is the time stamp
    [verifyReport] takes.  Without a modal the reads of the form controls
    raise before the [try]. *)
Definition submitVerification (now : string) (reportId : string) (p : Page) : Page :=
  let p := log [PreventDefault] p in
  match modals p with
  | [] => log [UncaughtTypeError] p
  | form :: _ =>
      let status := verification_status_value form in
      let verifierName := verifier_name_value form in
      let notes := verification_notes_value form in
      if negb (JS.truthy (Some status)) || negb (JS.truthy (Some verifierName)) then
        log [ShowError "Please fill in all required fields."] p
      else
        let p := log [ShowLoading; CallVerifyReport reportId verifierName status notes] p in
        match verifyReport (invasiveSpeciesAPI p) reportId verifierName status (Some notes) now with
        | (Resolved _, api) =>
            let p := with_api api p in
            let p := log [ShowSuccess ("Report " ++ JS.substring0 8 reportId
                                       ++ " has been " ++ JS.toLowerCase status ++ "!")] p in
            let p := closeVerificationModal p in
            log [LoadRecentReports; HideLoading] p
        | (Rejected _, api) =>
            log [ShowError "Failed to submit verification. Please try again."; HideLoading]
                (with_api api p)
        | (Network request, api) => log [AwaitNetwork request] (with_api api p)
        end
  end.

(** The reviewer's input: choosing a status and typing notes in the form
    that [getElementById] finds. *)
Definition fill_form (decision notes : string) (p : Page) : Page :=
  match modals p with
  | [] => p
  | form :: rest =>
      with_modals
        ({| modal_reportId := modal_reportId form;
            modal_report := modal_report form;
            verifying_as := verifying_as form;
            verification_status_value := decision;
            verifier_name_value := verifier_name_value form;
            verification_notes_value := notes |} :: rest) p
  end.

(** [submit(decision, notes)] of the specification. *)
Definition submit (now : string) (reportId decision notes : string) (p : Page) : Page :=
  submitVerification now reportId (fill_form decision notes p).

(** The events that reach the repository. *)
Definition repository_call (e : Event) : bool :=
  match e with
  | CallGetReportById _ | CallVerifyReport _ _ _ _ | AwaitNetwork _ => true
  | _ => false
  end.

End Workflow.

(* ================================================================== *)
(** * A JSON codec for the two serialised types *)
(* ================================================================== *)

(** An executable [JSON] instance: objects whose members are strings,
    integers, booleans or [null], printed without white space as
    [JSON.stringify] prints them, and a parser for exactly these texts.
    An [undefined] property is left out of the text. *)
Module JSONText.
Import JS.

Inductive value :=
  | Null
  | Bool (b : bool)
  | Number (n : Z)
  | Str (s : string).

Definition object := list (string * value).

Definition quote : ascii := ascii_of_nat 34.
Definition backslash : ascii := ascii_of_nat 92.

Definition needs_escape (c : ascii) : bool :=
  Ascii.eqb c quote || Ascii.eqb c backslash.

Fixpoint escape (s : string) : string :=
  match s with
  | String c r =>
      if needs_escape c then String backslash (String c (escape r))
      else String c (escape r)
  | EmptyString => EmptyString
  end.

Definition print_string (s : string) : string :=
  String quote (escape s ++ String quote "").

Definition print_value (v : value) : string :=
  match v with
  | Null => "null"
  | Bool true => "true"
  | Bool false => "false"
  | Number n => Number_toString n
  | Str s => print_string s
  end.

Definition print_member (m : string * value) : string :=
  print_string (fst m) ++ ":" ++ print_value (snd m).

Fixpoint print_members (o : object) : string :=
  match o with
  | [] => ""
  | [m] => print_member m
  | m :: rest => print_member m ++ "," ++ print_members rest
  end.

Definition print_object (o : object) : string :=
  "{" ++ print_members o ++ "}".

Fixpoint print_elements (l : list object) : string :=
  match l with
  | [] => ""
  | [o] => print_object o
  | o :: rest => print_object o ++ "," ++ print_elements rest
  end.

Definition print_array (l : list object) : string :=
  "[" ++ print_elements l ++ "]".

(** ** Parsing: each parser returns the value and the unread text *)

(** The characters of a string literal, after its opening quote. *)
Fixpoint parse_chars (s : string) : option (string * string) :=
  match s with
  | EmptyString => None
  | String c r =>
      if Ascii.eqb c quote then Some ("", r)
      else if Ascii.eqb c backslash then
        match r with
        | String d r' =>
            if needs_escape d
            then (fun x => (String d (fst x), snd x)) <$> parse_chars r'
            else None
        | EmptyString => None
        end
      else (fun x => (String c (fst x), snd x)) <$> parse_chars r
  end.

Definition parse_string (s : string) : option (string * string) :=
  match s with
  | String c r => if Ascii.eqb c quote then parse_chars r else None
  | EmptyString => None
  end.

Fixpoint span_digits (s : string) : string * string :=
  match s with
  | String c r =>
      match decimal_digit c with
      | Some _ => let x := span_digits r in (String c (fst x), snd x)
      | None => ("", s)
      end
  | EmptyString => ("", "")
  end.

Definition unsigned_number (s : string) : option (Z * string) :=
  let x := span_digits s in
  (fun m => (m, snd x)) <$> read_digits 10 decimal_digit None (fst x).

Definition parse_number (s : string) : option (Z * string) :=
  match s with
  | String "-" r => (fun x => (- fst x, snd x)) <$> unsigned_number r
  | _ => unsigned_number s
  end.

(** The text after a number does not go on with a digit. *)
Definition ends_number (rest : string) : Prop :=
  match rest with
  | String c _ => decimal_digit c = None
  | EmptyString => True
  end.

(** A number starts with a digit or a minus sign. *)
Definition starts_number (s : string) : Prop :=
  match s with
  | String c _ => In c ["0"; "1"; "2"; "3"; "4"; "5"; "6"; "7"; "8"; "9"; "-"]%char
  | EmptyString => False
  end.

(** What follows a value inside an object. *)
Definition after_value (rest : string) : Prop :=
  match rest with
  | String c _ => c = ","%char \/ c = "}"%char
  | EmptyString => False
  end.

Fixpoint strip_prefix (p s : string) : option string :=
  match p with
  | EmptyString => Some s
  | String c p' =>
      match s with
      | String d s' => if Ascii.eqb c d then strip_prefix p' s' else None
      | EmptyString => None
      end
  end.

Definition parse_value (s : string) : option (value * string) :=
  match s with
  | String "n" _ => (fun r => (Null, r)) <$> strip_prefix "null" s
  | String "t" _ => (fun r => (Bool true, r)) <$> strip_prefix "true" s
  | String "f" _ => (fun r => (Bool false, r)) <$> strip_prefix "false" s
  | String c _ =>
      if Ascii.eqb c quote
      then (fun x => (Str (fst x), snd x)) <$> parse_string s
      else (fun x => (Number (fst x), snd x)) <$> parse_number s
  | EmptyString => None
  end.

(** The members of an object up to and including its closing brace;
    [fuel] bounds their number. *)
Fixpoint parse_members (fuel : nat) (s : string) : option (object * string) :=
  match fuel with
  | O => None
  | Datatypes.S fuel' =>
      match parse_string s with
      | Some (k, r1) =>
          match strip_prefix ":" r1 with
          | Some r2 =>
              match parse_value r2 with
              | Some (v, String "," r3) =>
                  (fun x => ((k, v) :: fst x, snd x)) <$> parse_members fuel' r3
              | Some (v, String "}" r3) => Some ([(k, v)], r3)
              | _ => None
              end
          | None => None
          end
      | None => None
      end
  end.

Definition parse_object (s : string) : option (object * string) :=
  match s with
  | String "{" (String "}" r) => Some ([], r)
  | String "{" r => parse_members (String.length r) r
  | _ => None
  end.

(** The elements of an array up to and including its closing bracket. *)
Fixpoint parse_elements (fuel : nat) (s : string) : option (list object * string) :=
  match fuel with
  | O => None
  | Datatypes.S fuel' =>
      match parse_object s with
      | Some (o, String "," r) =>
          (fun x => (o :: fst x, snd x)) <$> parse_elements fuel' r
      | Some (o, String "]" r) => Some ([o], r)
      | _ => None
      end
  end.

Definition parse_array (s : string) : option (list object * string) :=
  match s with
  | String "[" (String "]" r) => Some ([], r)
  | String "[" r => parse_elements (String.length r) r
  | _ => None
  end.

(** A JSON text is one value and nothing after it. *)
Definition whole {A} (x : option (A * string)) : option A :=
  match x with
  | Some (a, EmptyString) => Some a
  | _ => None
  end.

(** ** Property access *)

Fixpoint get (k : string) (o : object) : option value :=
  match o with
  | [] => None
  | (k', v) :: rest => if String.eqb k k' then Some v else get k rest
  end.

(** A property that holds a string or is absent. *)
Definition get_optional_string (k : string) (o : object) : option (option string) :=
  match get k o with
  | None => Some None
  | Some (Str s) => Some (Some s)
  | Some _ => None
  end.

Definition get_string (k : string) (o : object) : option string :=
  match get k o with
  | Some (Str s) => Some s
  | _ => None
  end.

Definition get_number (k : string) (o : object) : option Z :=
  match get k o with
  | Some (Number n) => Some n
  | _ => None
  end.

(** A property that holds a number or [null]. *)
Definition get_nullable_number (k : string) (o : object) : option (option Z) :=
  match get k o with
  | Some (Number n) => Some (Some n)
  | Some Null => Some None
  | _ => None
  end.

Definition get_bool (k : string) (o : object) : option bool :=
  match get k o with
  | Some (Bool b) => Some b
  | _ => None
  end.

Definition optional (k : string) (v : option string) : object :=
  match v with
  | Some s => [(k, Str s)]
  | None => []
  end.

Definition nullable (v : option Z) : value :=
  match v with
  | Some n => Number n
  | None => Null
  end.

(** ** Users *)

Definition object_of_user (u : User) : object :=
  (optional "id" (user_id u) ++ optional "username" (username u)
   ++ optional "full_name" (full_name u) ++ optional "email" (email u)
   ++ optional "user_type" (user_type u))%list.

Definition user_of_object (o : object) : option User :=
  i ← get_optional_string "id" o;
  n ← get_optional_string "username" o;
  f ← get_optional_string "full_name" o;
  e ← get_optional_string "email" o;
  t ← get_optional_string "user_type" o;
  Some {| user_id := i; username := n; full_name := f; email := e; user_type := t |}.

Definition stringify_user (u : User) : string := print_object (object_of_user u).

Definition parse_user (s : string) : option User :=
  whole (parse_object s) ≫= user_of_object.

(** ** Activity log *)

Definition object_of_entry (e : ActivityEntry) : object :=
  ([("id", Str (entry_id e))]
   ++ optional "userId" (userId e)
   ++ optional "username" (entry_username e)
   ++ optional "fullName" (fullName e)
   ++ optional "email" (entry_email e)
   ++ optional "userType" (userType e)
   ++ [("loginTime", Number (loginTime e));
       ("logoutTime", nullable (logoutTime e));
       ("isActive", Bool (isActive e));
       ("sessionDuration", nullable (sessionDuration e));
       ("environment", Str (environment e));
       ("userAgent", Str (userAgent e))])%list.

Definition entry_of_object (o : object) : option ActivityEntry :=
  i ← get_string "id" o;
  u ← get_optional_string "userId" o;
  n ← get_optional_string "username" o;
  f ← get_optional_string "fullName" o;
  m ← get_optional_string "email" o;
  t ← get_optional_string "userType" o;
  li ← get_number "loginTime" o;
  lo ← get_nullable_number "logoutTime" o;
  a ← get_bool "isActive" o;
  d ← get_nullable_number "sessionDuration" o;
  v ← get_string "environment" o;
  g ← get_string "userAgent" o;
  Some {| entry_id := i; userId := u; entry_username := n; fullName := f;
          entry_email := m; userType := t; loginTime := li; logoutTime := lo;
          isActive := a; sessionDuration := d; environment := v; userAgent := g |}.

Definition stringify_log (l : list ActivityEntry) : string :=
  print_array (object_of_entry <$> l).

Definition parse_log (s : string) : option (list ActivityEntry) :=
  whole (parse_array s) ≫= mapM entry_of_object.

#[export] Instance codec : JSON := {
  JSON_stringify_user := stringify_user;
  JSON_parse_user := parse_user;
  JSON_stringify_log := stringify_log;
  JSON_parse_log := parse_log;
}.

End JSONText.

(* ================================================================== *)
(** * The mock data of the source and a browser to run it in *)
(* ================================================================== *)

Module Scenario.
Import JS JSONText Repository.

(** [initializeMockData()], the modelled properties. *)
Definition initializeMockData : MockData :=
  {| species :=
       [ {| species_key := "1"; scientific_name := "Lantana camara" |};
         {| species_key := "2"; scientific_name := "Pueraria montana" |};
         {| species_key := "3"; scientific_name := "Tamarix ramosissima" |} ];
     reports :=
       [ {| report_id := "1"; species_id := "1";
            location_description := "Near hiking trail entrance";
            reporter_name := "Jane Smith"; reporter_type := "Researcher";
            population_size := "Medium (100-1000)";
            threat_assessment := "High Risk"; confidence_level := "High";
            notes := "Large population spreading rapidly";
            report_date := "2024-01-15T10:30:00Z";
            verification_status := Some "Verified";
            verified_by := Some "Dr. Alex Johnson";
            verification_date := Some "2024-01-16T08:30:00Z";
            verification_notes :=
              Some "Confirmed identification through field analysis and NASA satellite imagery." |};
         {| report_id := "2"; species_id := "2";
            location_description := "Roadside vegetation";
            reporter_name := "Bob Johnson"; reporter_type := "Land Manager";
            population_size := "Large (1000+)";
            threat_assessment := "Immediate Action Required";
            confidence_level := "High";
            notes := "Covering native trees, immediate action needed";
            report_date := "2024-01-20T14:15:00Z";
            verification_status := Some "Pending";
            verified_by := None; verification_date := None;
            verification_notes := None |};
         {| report_id := "3"; species_id := "3";
            location_description := "Central Park area";
            reporter_name := "Sarah Wilson"; reporter_type := "Citizen Scientist";
            population_size := "Small (10-100)";
            threat_assessment := "Moderate Risk"; confidence_level := "Medium";
            notes := "First sighting in this area, monitoring recommended";
            report_date := "2024-01-17T09:45:00Z";
            verification_status := Some "Needs Review";
            verified_by := Some "Dr. Maria Garcia";
            verification_date := Some "2024-01-18T12:00:00Z";
            verification_notes :=
              Some "Species identification uncertain. Recommend expert field verification." |} ] |}.

Definition api : InvasiveSpeciesAPI := new_InvasiveSpeciesAPI initializeMockData.

Definition pending_report : Report :=
  {| report_id := "2"; species_id := "2";
     location_description := "Roadside vegetation";
     reporter_name := "Bob Johnson"; reporter_type := "Land Manager";
     population_size := "Large (1000+)";
     threat_assessment := "Immediate Action Required";
     confidence_level := "High";
     notes := "Covering native trees, immediate action needed";
     report_date := "2024-01-20T14:15:00Z";
     verification_status := Some "Pending";
     verified_by := None; verification_date := None;
     verification_notes := None |}.

(** The user of the mock data, a researcher, and a citizen. *)
Definition researcher : User :=
  {| user_id := Some "1"; username := Some "testuser";
     full_name := Some "Test User"; email := Some "test@example.com";
     user_type := Some "Researcher" |}.

Definition citizen : User :=
  {| user_id := Some "2"; username := Some "visitor";
     full_name := Some "A Visitor"; email := Some "visitor@example.com";
     user_type := Some "Citizen" |}.

Definition browser : Env :=
  {| storage_defined := true;
     location_origin := "http://localhost:8000";
     navigator_userAgent := "Mozilla/5.0";
     generateId := fun n => "session-" ++ Number_toString (Z.of_nat n) |}.

(** An empty store, the researcher being the current user. *)
Definition fresh : SessionStore.World (gmap string string) :=
  {| SessionStore.localStorage := ∅;
     SessionStore.currentUser := Some researcher;
     SessionStore.api_currentUser := Some researcher;
     SessionStore.id_calls := 0;
     SessionStore.effects := [] |}.

(** The world after the researcher's session was saved at time 1000. *)
Definition logged_in : SessionStore.World (gmap string string) :=
  Eval vm_compute in
    snd (SessionStore.saveUserSession browser 1000 researcher fresh).



Definition page (user : option User) : Workflow.Page :=
  {| Workflow.currentUser := user;
     Workflow.invasiveSpeciesAPI := api;
     Workflow.modals := [];
     Workflow.trace := [] |}.

(** The page with the verification form of report 2 open. *)
Definition reviewing : Workflow.Page :=
  Workflow.showVerificationModal "2" (page (Some researcher)).

End Scenario.

(* ================================================================== *)
(** * Report repository: submissions and statistics *)
(* ================================================================== *)

Module Reports.
Import JS Repository.

(** The [reportData] object that [createReport] is given: the properties
    of a report that the form supplies.  It carries no [id] and no
    [report_date]; the coordinates and the other properties that [Report]
    leaves out are left out here too. *)
Record ReportInput := {
  in_species_id : string;
  in_location_description : string;
  in_reporter_name : string;
  in_reporter_type : string;
  in_population_size : string;
  in_threat_assessment : string;
  in_confidence_level : string;
  in_notes : string;
  in_verification_status : option string;
}.

(** The object pushed by the mock [POST]: the parsed body, which holds
    the [report_date] set by [createReport], with the [id] assigned. *)
Definition newReport (id date : string) (reportData : ReportInput) : Report :=
  {| report_id := id;
     species_id := in_species_id reportData;
     location_description := in_location_description reportData;
     reporter_name := in_reporter_name reportData;
     reporter_type := in_reporter_type reportData;
     population_size := in_population_size reportData;
     threat_assessment := in_threat_assessment reportData;
     confidence_level := in_confidence_level reportData;
     notes := in_notes reportData;
     report_date := date;
     verification_status := in_verification_status reportData;
     verified_by := None;
     verification_date := None;
     verification_notes := None |}.

(** How [createReport] settles: with [{data: newReport}] from the mock
    data, or on the answer to a [POST] handed to [fetch]. *)
Inductive Creation :=
  | Created (report : Report)
  | Posted (endpoint : string) (date : string) (body : ReportInput).

(** [String(this.mockData.reports.length + 1)]. *)
Definition next_id (l : list Report) : string :=
  Number_toString (Z.of_nat (length l) + 1).

(** [createReport(reportData)]; [now] is [new Date().toISOString()]. *)
Definition createReport (api : InvasiveSpeciesAPI) (reportData : ReportInput)
    (now : string) : Creation * InvasiveSpeciesAPI :=
  if useMockData api then
    let report := newReport (next_id (reports (mockData api))) now reportData in
    (Created report, with_reports (reports (mockData api) ++ [report])%list api)
  else (Posted "tables/sighting_reports" now reportData, api).




(** The first three counters of [updateReportsStatistics(reports)].  The
    fourth, [nasaEnhanced], reads properties that [Report] leaves out. *)
Record ReportsStatistics := {
  pending : nat;
  verified : nat;
  highPriority : nat;
}.

Definition updateReportsStatistics (reports : list Report) : ReportsStatistics :=
  {| pending :=
       length (filter (fun r => verification_status r = Some "Pending") reports);
     verified :=
       length (filter (fun r => verification_status r = Some "Verified") reports);
     highPriority :=
       length (filter (fun r => threat_assessment r = "High Risk"
                                \/ threat_assessment r = "Immediate Action Required")
                 reports) |}.

(** ** Views for stating properties *)

(** The report at position [i] carries the id [String(i + 1)]: what the
    mock data start with and what the mock [POST] continues. *)
Definition sequential_ids (l : list Report) : Prop :=
  forall i r, l !! i = Some r -> report_id r = Number_toString (Z.of_nat i + 1).

(** The calls that change the repository. *)
Inductive call :=
  | CreateReport (reportData : ReportInput) (now : string)
  | VerifyReport (id verifierName status : string) (notes : option string) (now : string).

Definition apply_call (api : InvasiveSpeciesAPI) (c : call) : InvasiveSpeciesAPI :=
  match c with
  | CreateReport reportData now => snd (createReport api reportData now)
  | VerifyReport id verifierName status notes now =>
      snd (verifyReport api id verifierName status notes now)
  end.

Definition apply_calls (cs : list call) (api : InvasiveSpeciesAPI) : InvasiveSpeciesAPI :=
  fold_left apply_call cs api.

(** 1 when the report carries [status], 0 otherwise. *)
Definition counts_as (status : string) (r : Report) : nat :=
  if decide (verification_status r = Some status) then 1%nat else 0%nat.

End Reports.

(* ================================================================== *)
(** * Session life cycle: login, refresh, expiry check and logout *)
(* ================================================================== *)

Module Lifecycle.
Import JS SessionStore.
Local Open Scope js_scope.

(** What these functions do to the page besides the session state. *)
Inductive Action :=
  | PreventDefault
  | ShowLoading
  | HideLoading
  | ShowError (message : string)
  | ShowSuccess (message : string)
  | HideMainContent
  | ShowMainContent
  | ShowLoginScreen
  | HideLoginScreen
  | ResetLoginButton
  | UpdateLoginState (user : User)
  | UpdateVerificationPermissions (user : option User)
  | RemoveOpenMenus
  | ShowSection (sectionName : string)
  | AwaitNetwork.

(** [a >= b] where [b] may be [NaN]. *)
Definition ge_num (a : Z) (b : option Z) : bool :=
  match b with Some b' => Z.leb b' a | None => false end.

(** The part of [invasiveSpeciesAPI] that authentication uses:
    [useMockData] and [mockData.users]. *)
Record UserTable := {
  useMockData : bool;
  users : list User;
}.

(** What [authenticateUser] returns: a user of the table, or the answer
    [{data: newUser}] of [createUser]. *)
Inductive Account :=
  | Existing (user : User)
  | Registered (newUser : User).

(** The properties the page reads from the returned object: the answer
    of [createUser] has none of them. *)
Definition as_user (account : Account) : User :=
  match account with
  | Existing user => user
  | Registered _ =>
      {| user_id := None; username := None; full_name := None;
         email := None; user_type := None |}
  end.

(** [email.split('@')[0]]. *)
Fixpoint before_at (email : string) : string :=
  match email with
  | String c rest => if Ascii.eqb c "@" then "" else String c (before_at rest)
  | EmptyString => ""
  end.

(** The user pushed by the mock [POST], the modelled properties. *)
Definition newUser (id email name userType : string) : User :=
  {| user_id := Some id;
     username := Some (before_at email);
     full_name := Some name;
     email := Some email;
     user_type := Some userType |}.

Section Session.
Context {S : Type} `{Storage S} `{JSON}.
Variable env : Env.

Definition with_users (user api_user : option User) (w : World S) : World S :=
  {| localStorage := localStorage w; currentUser := user;
     api_currentUser := api_user; id_calls := id_calls w;
     effects := effects w |}.

(** [authenticateUser(email, name, userType)].  [getUsers] always answers
    from the mock data.  [updateUser] and [createUser] go through
    [makeRequest]: on the mock data the [PATCH] changes nothing and the
    [POST] pushes the new user; otherwise the request is handed to
    [fetch] and the result is [None]. *)
Definition authenticateUser (email name userType : string) (table : UserTable)
    (w : World S) : option Account * UserTable * World S :=
  if useMockData table then
    match users table with
    | user :: _ =>
        (Some (Existing user), table, with_users (currentUser w) (Some user) w)
    | [] =>
        let created :=
          newUser (Number_toString (Z.of_nat (length (users table)) + 1))
            email name userType in
        (Some (Registered created),
         {| useMockData := useMockData table;
            users := (users table ++ [created])%list |},
         with_users (currentUser w) (Some (as_user (Registered created))) w)
    end
  else (None, table, w).

(** [handleLogin(event)] (the second definition in the file, the one in
    force) with the values of the login form, the clock reading [now],
    run until the promise of [authenticateUser] has settled.  The page
    functions it calls are taken not to raise. *)
Definition handleLogin (now : Z) (email name userType : string)
    (table : UserTable) (w : World S) : list Action * UserTable * World S :=
  match authenticateUser email name userType table w with
  | (Some account, table, w) =>
      let user := as_user account in
      let w := with_users (Some user) (api_currentUser w) w in
      let w := snd (saveUserSession env now user w) in
      ([PreventDefault; ShowLoading;
        ShowSuccess ("Welcome, " ++ template (full_name user) ++ "!");
        HideLoginScreen; ShowMainContent; UpdateLoginState user;
        ShowSection "dashboard"; HideLoading],
       table, w)
  | (None, table, w) => ([PreventDefault; ShowLoading; AwaitNetwork], table, w)
  end.

(** [refreshUserSession()], the clock reading [now]. *)
Definition refreshUserSession (now : Z) : M S unit :=
  user <- get_currentUser ;;
  match user with
  | Some _ =>
      try_catch
        (localStorage_setItem "ipsms_session_expiry"
           (Number_toString (now + 24 * 60 * 60 * 1000)))
        (ret tt)
  | None => ret tt
  end.

(** [logout()], the clock reading [now]: [currentUser = null] and
    [invasiveSpeciesAPI.logout()] come first, then [clearUserSession()]. *)
Definition logout (now : Z) : M S (list Action) :=
  (fun w => (Return tt, with_users None None w)) ;;;
  clearUserSession now ;;;
  ret [HideMainContent; ShowLoginScreen; ResetLoginButton;
       UpdateVerificationPermissions None; RemoveOpenMenus;
       ShowSuccess "Logged out successfully"].

(** The listener that [setupSessionRefresh] registers for the activity
    events; [lastActivity] is the variable of its closure, whose new
    value is returned. *)
Definition on_activity (now lastActivity : Z) : M S Z :=
  user <- get_currentUser ;;
  match user with
  | Some _ =>
      if Z.ltb (30 * 60 * 1000) (now - lastActivity)
      then refreshUserSession now
      else ret tt
  | None => ret tt
  end ;;;
  ret now.

(** Activity events at the clock readings [times], in this order. *)
Fixpoint activity (times : list Z) (lastActivity : Z) : M S Z :=
  match times with
  | [] => ret lastActivity
  | now :: later =>
      lastActivity <- on_activity now lastActivity ;;
      activity later lastActivity
  end.

(** The check that [setupSessionRefresh] schedules every five minutes,
    the clock reading [now]. *)
Definition check_session (now : Z) : M S (list Action) :=
  user <- get_currentUser ;;
  match user with
  | Some _ =>
      sessionExpiry <- localStorage_getItem "ipsms_session_expiry" ;;
      if truthy sessionExpiry then
        let expiryTime := parseInt (default "" sessionExpiry) in
        if ge_num now expiryTime then
          shown <- logout now ;;
          ret (ShowError "Your session has expired. Please log in again." :: shown)
        else ret []
      else ret []
  | None => ret []
  end.

End Session.

(** ** Views for stating properties *)

(** Every activity event comes at most thirty minutes after the one
    before it, the first at most thirty minutes after [lastActivity]. *)
Fixpoint steady (lastActivity : Z) (times : list Z) : bool :=
  match times with
  | [] => true
  | now :: later => Z.leb (now - lastActivity) (30 * 60 * 1000) && steady now later
  end.

(** A computation that assigns neither [currentUser] nor
    [invasiveSpeciesAPI.currentUser]. *)
Definition keeps_users {S A} (c : M S A) : Prop :=
  forall w, currentUser (snd (c w)) = currentUser w
            /\ api_currentUser (snd (c w)) = api_currentUser w.

(** What [logout] does to the page. *)
Definition logout_actions : list Action :=
  [HideMainContent; ShowLoginScreen; ResetLoginButton;
   UpdateVerificationPermissions None; RemoveOpenMenus;
   ShowSuccess "Logged out successfully"].

End Lifecycle.

(* ================================================================== *)
(** * Administrator's view of the activity log *)
(* ================================================================== *)

Module Admin.
Import JS Permission SessionStore.
Local Open Scope js_scope.

(** An entry as [getUserActivityData] returns it: [currentSessionDuration]
    is set on the entries marked active. *)
Record ActivityRow := {
  row_entry : ActivityEntry;
  currentSessionDuration : option Z;
}.

(** What the admin functions show. *)
Inductive Notice :=
  | ShowError (message : string)
  | ShowSuccess (message : string)
  | Confirm (message : string)
  | DisplayUserActivityTable (activityData : list ActivityRow).

Definition with_duration (now : Z) (entry : ActivityEntry) : ActivityRow :=
  {| row_entry := entry;
     currentSessionDuration :=
       if isActive entry then Some (now - loginTime entry) else None |}.

(** [formatDuration(ms)]; [None] is [null] or [undefined]. *)
Definition formatDuration (ms : option Z) : string :=
  match ms with
  | None => "0m"
  | Some ms =>
      if Z.eqb ms 0 || Z.ltb ms 0 then "0m"
      else
        let hours := ms / (1000 * 60 * 60) in
        let minutes := Z.rem ms (1000 * 60 * 60) / (1000 * 60) in
        let seconds := Z.rem ms (1000 * 60) / 1000 in
        if Z.ltb 0 hours then
          Number_toString hours ++ "h " ++ Number_toString minutes ++ "m"
        else if Z.ltb 0 minutes then
          Number_toString minutes ++ "m " ++ Number_toString seconds ++ "s"
        else Number_toString seconds ++ "s"
  end.

Section Admin.
Context {S : Type} `{Storage S} `{JSON}.

(** [getUserActivityData()], the clock reading [now]. *)
Definition getUserActivityData (now : Z) : M S (list ActivityRow) :=
  try_catch
    (userActivityLog <- read_activity_log ;;
     ret (with_duration now <$> userActivityLog))
    (ret []).

(** [loadAdminDashboard()]. *)
Definition loadAdminDashboard (now : Z) : M S (list Notice) :=
  user <- get_currentUser ;;
  if negb (isAdminUser user) then
    ret [ShowError "Access denied. Administrator privileges required."]
  else
    userActivityData <- getUserActivityData now ;;
    ret [DisplayUserActivityTable userActivityData].

(** [clearUserActivityLog()]; [confirmed] is the answer to [confirm]. *)
Definition clearUserActivityLog (now : Z) (confirmed : bool) : M S (list Notice) :=
  user <- get_currentUser ;;
  if negb (isAdminUser user) then
    ret [ShowError "Access denied. Administrator privileges required."]
  else
    let question :=
      Confirm "Are you sure you want to clear all user activity logs? This action cannot be undone." in
    if confirmed then
      try_catch
        (localStorage_removeItem "ipsms_user_activity_log" ;;;
         shown <- loadAdminDashboard now ;;
         ret (question :: shown ++ [ShowSuccess "User activity log cleared successfully"])%list)
        (ret [question; ShowError "Failed to clear user activity log"])
    else ret [question].

End Admin.

End Admin.

(* ================================================================== *)
(** * Navigation between the sections of the page *)
(* ================================================================== *)

Module Navigation.
Import Permission.

(** What [showSection] and [loadSectionData] (for both, the second
    definition in the file, the one in force) call, besides each other. *)
Inductive Call :=
  | ShowError (message : string)
  | ShowLoginScreen
  | ShowLogin
  | ShowLoading
  | HideLoading
  | HideSections                               (* every [.section] gets [hidden] *)
  | RevealSection (sectionName : string)
  | UpdateNavigationState (sectionName : string)
  | Load (loader : string)                     (* the named loader is called *)
  | ScheduleLoadMapData.                       (* setTimeout(.., 200) *)

(** What the functions find in the page: the sections the document
    holds, whether the map and analytics scripts defined their loaders,
    and the loaders whose promise is rejected. *)
Record Document := {
  has_section : string -> bool;      (* getElementById(`${name}-section`) *)
  has_loadMapData : bool;            (* typeof loadMapData === 'function' *)
  has_loadAnalyticsData : bool;
  rejects : string -> bool;
}.

(** The calls of one invocation: those made before it first waits or
    returns, in order, and those made when what it waits for has
    settled. *)
Record Run := {
  at_once : list Call;
  later : list Call;
}.

Definition calls (r : Run) : list Call := (at_once r ++ later r)%list.

Section Sections.
Variable doc : Document.
Variable currentUser : option User.

(** [showLoading(); try { await loader(); } catch { showError(..) }
    finally { hideLoading(); }]. *)
Definition awaits (loader : string) : Run :=
  {| at_once := [ShowLoading; Load loader];
     later :=
       ((if rejects doc loader
         then [ShowError "Failed to load data. Please try again."] else [])
        ++ [HideLoading])%list |}.

(** [showLoading(); try { refusal; showSection('dashboard'); return; }
    finally { hideLoading(); }], [redirect] being the run of
    [showSection('dashboard')]. *)
Definition refuses (refusal : list Call) (redirect : Run) : Run :=
  {| at_once := (ShowLoading :: refusal ++ at_once redirect ++ [HideLoading])%list;
     later := later redirect |}.

(** [loadSectionData(sectionName)], given the run of
    [showSection('dashboard')]. *)
Definition loadSectionData_from (redirect : Run) (sectionName : string) : Run :=
  if String.eqb sectionName "dashboard" then awaits "loadDashboardData"
  else if String.eqb sectionName "species" then awaits "loadSpeciesData"
  else if String.eqb sectionName "map" then
    if has_loadMapData doc then
      {| at_once := [ShowLoading; ScheduleLoadMapData; HideLoading];
         later :=
           (Load "loadMapData"
            :: if rejects doc "loadMapData"
               then [ShowError "Map failed to load. Please try refreshing the page."]
               else [])%list |}
    else
      {| at_once := [ShowLoading; ShowError "Map functionality is not available.";
                     HideLoading];
         later := [] |}
  else if String.eqb sectionName "report" then awaits "loadReportFormData"
  else if String.eqb sectionName "reports-management" then
    match currentUser with
    | None =>
        refuses [ShowError "Please log in to access reports management."; ShowLogin]
          redirect
    | Some _ =>
        if negb (canVerifyReports currentUser) then
          refuses [ShowError "Access denied. Only Researchers, Administrators, and Government Officials can access reports management."]
            redirect
        else awaits "loadReportsManagement"
    end
  else if String.eqb sectionName "admin" then
    match currentUser with
    | None =>
        refuses [ShowError "Please log in to access the admin dashboard."; ShowLogin]
          redirect
    | Some _ =>
        if negb (isAdminUser currentUser) then
          refuses [ShowError "Access denied. Administrator privileges required."]
            redirect
        else awaits "loadAdminDashboard"
    end
  else if String.eqb sectionName "analytics" then
    if has_loadAnalyticsData doc then awaits "loadAnalyticsData"
    else {| at_once := [ShowLoading; HideLoading]; later := [] |}
  else {| at_once := [ShowLoading; HideLoading]; later := [] |}.

(** [showSection(sectionName)], given [loadSectionData]. *)
Definition showSection_with (loadSectionData : string -> Run)
    (sectionName : string) : Run :=
  match currentUser with
  | None =>
      {| at_once := [ShowError "Please log in to access this feature.";
                     ShowLoginScreen];
         later := [] |}
  | Some _ =>
      if has_section doc sectionName then
        let loading := loadSectionData sectionName in
        {| at_once :=
             (HideSections :: RevealSection sectionName
              :: UpdateNavigationState sectionName :: at_once loading)%list;
           later := later loading |}
      else {| at_once := [HideSections]; later := [] |}
  end.

(** The two functions call each other; the only section that
    [loadSectionData] shows is the dashboard, whose data load without a
    further call of [showSection]. *)
Definition to_dashboard : Run :=
  showSection_with
    (loadSectionData_from {| at_once := []; later := [] |}) "dashboard".

Definition loadSectionData (sectionName : string) : Run :=
  loadSectionData_from to_dashboard sectionName.

Definition showSection (sectionName : string) : Run :=
  showSection_with loadSectionData sectionName.

(** [checkLoginAndShowSection(sectionName)]. *)
Definition checkLoginAndShowSection (sectionName : string) : Run :=
  match currentUser with
  | None =>
      {| at_once := [ShowError "Please log in to access this feature.";
                     ShowLoginScreen];
         later := [] |}
  | Some _ => showSection sectionName
  end.

End Sections.

End Navigation.

(* ================================================================== *)
(** * More of the mock data: users, forms and stores to run the page on *)
(* ================================================================== *)

Module Walkthrough.
Import JS JSONText Repository Scenario.

(** [initializeMockData().users], the modelled properties, and an empty
    table. *)
Definition accounts : Lifecycle.UserTable :=
  {| Lifecycle.useMockData := true; Lifecycle.users := [researcher] |}.

Definition no_accounts : Lifecycle.UserTable :=
  {| Lifecycle.useMockData := true; Lifecycle.users := [] |}.

Definition administrator : User :=
  {| user_id := Some "7"; username := Some "root";
     full_name := Some "Site Admin"; email := Some "admin@example.com";
     user_type := Some "Administrator" |}.

(** What the table holds after somebody registered with the
    administrator's name and email, as the first user. *)
Definition administrator_registered : User :=
  {| user_id := Some "1"; username := Some "admin";
     full_name := Some "Site Admin"; email := Some "admin@example.com";
     user_type := Some "Administrator" |}.


(** The same sighting as [createReport] is given it. *)
Definition sighting_data : Reports.ReportInput :=
  {| Reports.in_species_id := "3";
     Reports.in_location_description := "River bank";
     Reports.in_reporter_name := "A Visitor";
     Reports.in_reporter_type := "Citizen Scientist";
     Reports.in_population_size := "Small (10-100)";
     Reports.in_threat_assessment := "High Risk";
     Reports.in_confidence_level := "Medium";
     Reports.in_notes := "Seen from the bridge";
     Reports.in_verification_status := Some "Pending" |}.

(** The page before anybody has logged in, on an empty store and on a
    store whose writes raise. *)
Definition visitor : SessionStore.World (gmap string string) :=
  {| SessionStore.localStorage := ∅;
     SessionStore.currentUser := None;
     SessionStore.api_currentUser := None;
     SessionStore.id_calls := 0;
     SessionStore.effects := [] |}.

Definition visitor_read_only : SessionStore.World SessionStore.read_only :=
  {| SessionStore.localStorage := SessionStore.ReadOnly;
     SessionStore.currentUser := None;
     SessionStore.api_currentUser := None;
     SessionStore.id_calls := 0;
     SessionStore.effects := [] |}.


(** The administrator logged in at time 1000, after the researcher. *)
Definition admin_logged_in : SessionStore.World (gmap string string) :=
  Eval vm_compute in
    snd (SessionStore.saveUserSession browser 1000 administrator
           {| SessionStore.localStorage := SessionStore.localStorage logged_in;
              SessionStore.currentUser := Some administrator;
              SessionStore.api_currentUser := Some administrator;
              SessionStore.id_calls := 1;
              SessionStore.effects := [] |}).

(** A document that holds every section and both optional loaders, no
    loader failing. *)
Definition document : Navigation.Document :=
  {| Navigation.has_section := fun _ => true;
     Navigation.has_loadMapData := true;
     Navigation.has_loadAnalyticsData := true;
     Navigation.rejects := fun _ => false |}.

End Walkthrough.

(* ================================================================== *)
(** * Facts about the primitives *)
(* ================================================================== *)

Module JSFacts.
Import JS.

Lemma truthy_Some (s : string) : truthy (Some s) = true <-> s <> "".
Proof.
  unfold truthy. destruct (String.eqb_spec s ""); simpl; split; congruence.
Qed.

Lemma strict_eq_refl (a : option string) : strict_eq a a = true.
Proof. unfold strict_eq. by apply bool_decide_eq_true. Qed.

Lemma strict_eq_true (a b : option string) : strict_eq a b = true <-> a = b.
Proof. unfold strict_eq. apply bool_decide_eq_true. Qed.



Lemma lt_num_Some (a b : Z) : lt_num a (Some b) = true <-> a < b.
Proof. simpl. apply Z.ltb_lt. Qed.

Lemma lt_num_Some_false (a b : Z) : lt_num a (Some b) = false <-> b <= a.
Proof. simpl. apply Z.ltb_ge. Qed.

(** ** Reading back a printed number *)

Ltac compute_digit :=
  repeat match goal with
  | |- context [nat_of_ascii ?c] =>
      let n := eval vm_compute in (nat_of_ascii c) in
      change (nat_of_ascii c) with n
  end.

Lemma read_digits_positive (d : uint) (a : positive) :
  read_digits 10 decimal_digit (Some (Zpos a)) (NilEmpty.string_of_uint d)
  = Some (Zpos (Pos.of_uint_acc d a)).
Proof.
  revert a. induction d; intros a; simpl; [reflexivity|..];
    rewrite <- IHd; do 2 f_equal; compute_digit; lia.
Qed.

Lemma read_digits_zero (d : uint) :
  read_digits 10 decimal_digit (Some 0) (NilEmpty.string_of_uint d)
  = Some (Z.of_N (Pos.of_uint d)).
Proof.
  induction d; simpl; [reflexivity | exact IHd | ..];
    rewrite <- read_digits_positive; do 2 f_equal; compute_digit; lia.
Qed.

Lemma read_digits_start (d : uint) :
  d <> Nil ->
  read_digits 10 decimal_digit None (NilEmpty.string_of_uint d)
  = Some (Z.of_N (Pos.of_uint d)).
Proof.
  intros Hd. destruct d; [done| |..]; simpl.
  - apply read_digits_zero.
  - apply (read_digits_positive d 1).
  - apply (read_digits_positive d 2).
  - apply (read_digits_positive d 3).
  - apply (read_digits_positive d 4).
  - apply (read_digits_positive d 5).
  - apply (read_digits_positive d 6).
  - apply (read_digits_positive d 7).
  - apply (read_digits_positive d 8).
  - apply (read_digits_positive d 9).
Qed.

Lemma parse_unsigned_digits (d : uint) :
  parse_unsigned (NilEmpty.string_of_uint d)
  = read_digits 10 decimal_digit None (NilEmpty.string_of_uint d).
Proof. destruct d as [|d|d|d|d|d|d|d|d|d|d]; try reflexivity. destruct d; reflexivity. Qed.

Lemma skip_whitespace_digits (d : uint) :
  skip_whitespace (NilEmpty.string_of_uint d) = NilEmpty.string_of_uint d.
Proof. destruct d; reflexivity. Qed.

Lemma parseInt_digits (d : uint) :
  d <> Nil ->
  parseInt (NilEmpty.string_of_uint d) = Some (Z.of_N (Pos.of_uint d)).
Proof.
  intros Hd. unfold parseInt. rewrite skip_whitespace_digits.
  pose proof (parse_unsigned_digits d) as Hu.
  rewrite (read_digits_start d Hd) in Hu.
  destruct d; try done; simpl in *; rewrite Hu; reflexivity.
Qed.

Lemma parseInt_minus_digits (d : uint) :
  d <> Nil ->
  parseInt (String "-" (NilEmpty.string_of_uint d)) = Some (- Z.of_N (Pos.of_uint d)).
Proof.
  intros Hd. unfold parseInt.
  change (skip_whitespace (String "-" ?s)) with (String "-" s).
  cbv iota beta.
  rewrite parse_unsigned_digits, (read_digits_start d Hd). reflexivity.
Qed.

Lemma string_of_positive (p : positive) :
  NilZero.string_of_uint (Pos.to_uint p) = NilEmpty.string_of_uint (Pos.to_uint p).
Proof.
  pose proof (DecimalPos.Unsigned.to_uint_nonnil p).
  destruct (Pos.to_uint p); [done|reflexivity..].
Qed.

(** [parseInt(n.toString()) === n]. *)
Lemma parseInt_toString (n : Z) : parseInt (Number_toString n) = Some n.
Proof.
  destruct n as [|p|p]; [reflexivity|..]; unfold Number_toString; simpl;
    rewrite string_of_positive.
  - rewrite parseInt_digits by apply DecimalPos.Unsigned.to_uint_nonnil.
    by rewrite DecimalPos.Unsigned.of_to.
  - rewrite parseInt_minus_digits by apply DecimalPos.Unsigned.to_uint_nonnil.
    by rewrite DecimalPos.Unsigned.of_to.
Qed.

Lemma toString_nonempty (n : Z) : Number_toString n <> "".
Proof.
  destruct n as [|p|p]; [done|..]; unfold Number_toString; simpl; [|done].
  rewrite string_of_positive.
  pose proof (DecimalPos.Unsigned.to_uint_nonnil p).
  destruct (Pos.to_uint p); done.
Qed.

Lemma truthy_toString (n : Z) : truthy (Some (Number_toString n)) = true.
Proof. apply truthy_Some, toString_nonempty. Qed.

(** ** [slice(-n)] *)


Lemma slice_last_all {A} (n : nat) (l : list A) :
  (length l <= n)%nat -> slice_last n l = l.
Proof.
  intros Hn. unfold slice_last.
  replace (length l - n)%nat with 0%nat by lia. reflexivity.
Qed.

Lemma slice_last_suffix {A} (n : nat) (l : list A) :
  (take (length l - n) l ++ slice_last n l)%list = l.
Proof. apply take_drop. Qed.

End JSFacts.

(* ================================================================== *)
(** * Permission policy: properties *)
(* ================================================================== *)

Module PermissionFacts.
Import Permission.

Lemma includes_allowedTypes (v : option string) :
  includes allowedTypes v = true <->
  v = Some "Researcher" \/ v = Some "Administrator" \/ v = Some "Government Official".
Proof.
  destruct v as [s|]; simpl.
  - rewrite bool_decide_eq_true. unfold allowedTypes.
    rewrite !elem_of_cons, elem_of_nil.
    intuition (try congruence); right; right; left; congruence.
  - intuition congruence.
Qed.

(** C2.  [canVerifyReports(u)] is true exactly when [u] is not [null] and
    its [user_type] is one of ['Researcher'], ['Administrator'],
    ['Government Official'] (the specification's GovernmentOfficial); in
    particular it is false for every user whose [user_type] is outside
    that set, [undefined] included. *)
Theorem canVerifyReports_iff :
  (forall u : option User,
      canVerifyReports u = true <->
      exists user, u = Some user
        /\ (user_type user = Some "Researcher"
            \/ user_type user = Some "Administrator"
            \/ user_type user = Some "Government Official"))
  /\ (forall user : User,
        user_type user <> Some "Researcher" ->
        user_type user <> Some "Administrator" ->
        user_type user <> Some "Government Official" ->
        canVerifyReports (Some user) = false).
Proof.
  split.
  - intros [user|]; simpl.
    + rewrite includes_allowedTypes. split.
      * intros Hrole. by exists user.
      * by intros (? & [= <-] & Hrole).
    + split; [done | by intros (? & ? & _)].
  - intros user H1 H2 H3. simpl.
    apply not_true_is_false. rewrite includes_allowedTypes. tauto.
Qed.

Lemma isAdminUser_iff (u : option User) :
  isAdminUser u = true <->
  exists user, u = Some user /\ user_type user = Some "Administrator".
Proof.
  destruct u as [user|]; simpl.
  - rewrite JSFacts.strict_eq_true. split.
    + intros Hrole. by exists user.
    + by intros (? & [= <-] & Hrole).
  - split; [done | by intros (? & ? & _)].
Qed.

End PermissionFacts.

(* ================================================================== *)
(** * Report repository: properties *)
(* ================================================================== *)

Module RepositoryFacts.
Import Repository.

Lemma find_report_Some (id : string) (l : list Report) (i : nat) (r : Report) :
  find_report id l = Some (i, r) <->
  l !! i = Some r /\ report_id r = id
  /\ forall j y, l !! j = Some y -> (j < i)%nat -> report_id y <> id.
Proof. exact (list_find_Some (fun x => report_id x = id) l i r). Qed.

Lemma find_report_None (id : string) (l : list Report) :
  find_report id l = None <-> forall r, r ∈ l -> report_id r <> id.
Proof.
  unfold find_report.
  rewrite (list_find_None (fun x => report_id x = id)), Forall_forall.
  reflexivity.
Qed.

Lemma find_report_present (r : Report) (l : list Report) :
  r ∈ l -> exists i r0, find_report (report_id r) l = Some (i, r0).
Proof.
  intros Hr.
  destruct (list_find_elem_of (fun x => report_id x = report_id r) l r Hr eq_refl)
    as [[i r0] Hf].
  by exists i, r0.
Qed.

Lemma Object_assign_id (r : Report) (v : VerificationData) :
  report_id (Object_assign r v) = report_id r.
Proof. reflexivity. Qed.

Lemma Object_assign_species (r : Report) (v : VerificationData) :
  species_id (Object_assign r v) = species_id r.
Proof. reflexivity. Qed.

(** The updated report sits where the old one was, so [find] meets it
    first again. *)
Lemma find_report_updated (id : string) (l : list Report) (i : nat)
    (r : Report) (v : VerificationData) :
  find_report id l = Some (i, r) ->
  find_report id (<[i := Object_assign r v]> l) = Some (i, Object_assign r v).
Proof.
  rewrite !find_report_Some. intros (Hi & Hid & Hbefore).
  split_and!.
  - apply list_lookup_insert_eq. by eapply lookup_lt_Some.
  - done.
  - intros j y Hj Hlt. rewrite list_lookup_insert_ne in Hj by lia. eauto.
Qed.

(** C4.  With the mock data on and no report carrying [id],
    [verifyReport] is rejected with ['Report not found'] and the
    repository it leaves is the one it was given: the same reports, in
    number and in content. *)
Theorem verifyReport_not_found (api : InvasiveSpeciesAPI)
    (id verifier status : string) (notes : option string) (now : string) :
  useMockData api = true ->
  (forall r, r ∈ reports (mockData api) -> report_id r <> id) ->
  verifyReport api id verifier status notes now = (Rejected "Report not found", api)
  /\ getReportById api id = Rejected "Report not found".
Proof.
  intros Hmock Habsent. apply find_report_None in Habsent.
  unfold verifyReport, getReportById. rewrite Hmock, Habsent. done.
Qed.

(** C1.  With the mock data on, for a report [r] of the repository
    [verifyReport(r.id, verifier, status, notes)] resolves.  It updates
    in place the report [r0] that [find] returns for [r.id] (which is [r]
    itself when ids identify reports): the returned record is [r0] with
    [verification_status = status], [verified_by = verifier],
    [verification_date = now] and [verification_notes = notes] (['']
    when [notes] is not passed), everything else kept, and no other
    report changes.  A following [getReportById(r.id)] resolves to that
    very record. *)
Theorem verifyReport_then_getReportById (api : InvasiveSpeciesAPI) (r : Report)
    (verifier status : string) (notes : option string) (now : string) :
  useMockData api = true ->
  r ∈ reports (mockData api) ->
  exists (i : nat) (r0 r' : Report) (api' : InvasiveSpeciesAPI) (view : ReportData),
    reports (mockData api) !! i = Some r0
    /\ report_id r0 = report_id r
    /\ ((forall x y, x ∈ reports (mockData api) -> y ∈ reports (mockData api) ->
                     report_id x = report_id y -> x = y) -> r0 = r)
    /\ verifyReport api (report_id r) verifier status notes now = (Resolved r', api')
    /\ r' = Object_assign r0
              {| vd_verification_status := status; vd_verified_by := verifier;
                 vd_verification_date := now;
                 vd_verification_notes := default "" notes |}
    /\ verification_status r' = Some status
    /\ verified_by r' = Some verifier
    /\ verification_date r' = Some now
    /\ verification_notes r' = Some (default "" notes)
    /\ reports (mockData api') = <[i := r']> (reports (mockData api))
    /\ species (mockData api') = species (mockData api)
    /\ getReportById api' (report_id r) = Resolved view
    /\ data view = r'.
Proof.
  intros Hmock Hr.
  destruct (find_report_present r _ Hr) as (i & r0 & Hfind).
  pose proof Hfind as (Hi & Hid & _)%find_report_Some.
  set (v := {| vd_verification_status := status; vd_verified_by := verifier;
               vd_verification_date := now;
               vd_verification_notes := default "" notes |}).
  pose proof (find_report_updated _ _ _ _ v Hfind) as Hfind'.
  assert (Hin : r0 ∈ reports (mockData api)) by (by eapply list_elem_of_lookup_2).
  exists i, r0, (Object_assign r0 v),
    (with_reports (<[i := Object_assign r0 v]> (reports (mockData api))) api).
  eexists. split_and!.
  - done.
  - done.
  - intros Huniq. by apply Huniq.
  - unfold verifyReport. rewrite Hmock, Hfind. reflexivity.
  - reflexivity.
  - reflexivity.
  - reflexivity.
  - reflexivity.
  - reflexivity.
  - reflexivity.
  - reflexivity.
  - unfold getReportById. simpl. rewrite Hmock, Hfind'. reflexivity.
  - reflexivity.
Qed.

End RepositoryFacts.

(* ================================================================== *)
(** * Verification workflow: properties *)
(* ================================================================== *)

Module WorkflowFacts.
Import Permission Repository Workflow.

(** C3.  For an acting user that is absent or not allowed to verify,
    [showVerificationModal(reportId)] returns at once: the document gets
    no modal (a closed workflow stays closed), an error message is shown
    (after which the login dialog is offered when nobody is logged in),
    and the repository is neither read nor changed. *)
Theorem showVerificationModal_denied (reportId : string) (p : Page) :
  canVerifyReports (currentUser p) = false ->
  exists (message : string) (more : list Event),
    trace (showVerificationModal reportId p) = (trace p ++ ShowError message :: more)%list
    /\ (more = [] \/ more = [ShowLogin])
    /\ forallb (fun e => negb (repository_call e)) (ShowError message :: more) = true
    /\ modals (showVerificationModal reportId p) = modals p
    /\ (closed p -> closed (showVerificationModal reportId p))
    /\ invasiveSpeciesAPI (showVerificationModal reportId p) = invasiveSpeciesAPI p
    /\ currentUser (showVerificationModal reportId p) = currentUser p.
Proof.
  intros Hdenied. unfold showVerificationModal.
  destruct (currentUser p) as [user|] eqn:Huser.
  - rewrite Hdenied. simpl. eexists _, []. rewrite Huser. split_and!; eauto.
  - eexists _, [ShowLogin]. simpl. rewrite Huser. split_and!; eauto.
Qed.

(** C5.  With the verification form open, submitting an empty decision,
    or submitting while the verifier name is empty, is refused: the modal
    stays in the document with the input as typed, the message 'Please
    fill in all required fields.' is shown, [verifyReport] is not called
    and the repository, hence every report's verification properties,
    is unchanged. *)
Theorem submit_validation_failure (now reportId decision notes : string)
    (p : Page) (form : Modal) (others : list Modal) :
  modals p = form :: others ->
  decision = "" \/ verifier_name_value form = "" ->
  trace (submit now reportId decision notes p)
    = (trace p ++ [PreventDefault; ShowError "Please fill in all required fields."])%list
  /\ modals (submit now reportId decision notes p) = modals (fill_form decision notes p)
  /\ length (modals (submit now reportId decision notes p)) = length (modals p)
  /\ invasiveSpeciesAPI (submit now reportId decision notes p) = invasiveSpeciesAPI p
  /\ getReportById (invasiveSpeciesAPI (submit now reportId decision notes p)) reportId
     = getReportById (invasiveSpeciesAPI p) reportId.
Proof.
  intros Hopen Hmissing.
  unfold submit, submitVerification, fill_form. rewrite Hopen. simpl.
  destruct Hmissing as [-> | ->]; simpl.
  - rewrite <- app_assoc. done.
  - rewrite orb_true_r. simpl. rewrite <- app_assoc. done.
Qed.

End WorkflowFacts.

(* ================================================================== *)
(** * Session store: properties *)
(* ================================================================== *)

Module SessionFacts.
Import JS JSFacts SessionStore.

Lemma with_storage_twice {S} (s s' : S) (w : World S) :
  with_storage s (with_storage s' w) = with_storage s w.
Proof. reflexivity. Qed.

Lemma with_storage_same {S} (w : World S) : with_storage (localStorage w) w = w.
Proof. by destruct w. Qed.

(** ** The activity log as a list *)

Section ActivityLog.
Variable env : Env.

Lemma capped_slice (log : list ActivityEntry) :
  (if Nat.ltb 100 (length log) then slice_last 100 log else log) = slice_last 100 log.
Proof.
  destruct (Nat.ltb_spec 100 (length log)); [done|].
  symmetry. apply slice_last_all. lia.
Qed.

Lemma mark_logged_out_eq (user : User) (time : Z) (e : ActivityEntry) :
  mark_logged_out user time e = mark_previous_inactive user time e.
Proof.
  unfold mark_logged_out, mark_previous_inactive.
  destruct (same_user user e), (isActive e); reflexivity.
Qed.

Lemma same_user_end_session (user : User) (time : Z) (e : ActivityEntry) :
  same_user user (end_session time e) = same_user user e.
Proof. reflexivity. Qed.

Lemma same_user_mark (user u : User) (time : Z) (e : ActivityEntry) :
  same_user user (mark_previous_inactive u time e) = same_user user e.
Proof.
  unfold mark_previous_inactive.
  destruct (same_user u e), (isActive e); reflexivity.
Qed.

(** After the [forEach] no entry of the user is active. *)
Lemma mark_previous_inactive_closed (user : User) (time : Z) (e : ActivityEntry) :
  same_user user (mark_previous_inactive user time e)
  && isActive (mark_previous_inactive user time e) = false.
Proof.
  unfold mark_previous_inactive.
  destruct (same_user user e) eqn:Hs, (isActive e) eqn:Ha; simpl;
    rewrite ?Hs, ?Ha, ?andb_false_r; reflexivity.
Qed.


Lemma mark_previous_inactive_idem (user : User) (t1 t2 : Z) (e : ActivityEntry) :
  mark_previous_inactive user t2 (mark_previous_inactive user t1 e)
  = mark_previous_inactive user t1 e.
Proof.
  unfold mark_previous_inactive at 1. rewrite same_user_mark.
  pose proof (mark_previous_inactive_closed user t1 e) as Hc.
  rewrite same_user_mark in Hc.
  destruct (same_user user e); [|done].
  simpl in Hc. by rewrite Hc.
Qed.

Lemma log_after_logout_idem (user : User) (t1 t2 : Z) (log : list ActivityEntry) :
  log_after_logout user t2 (log_after_logout user t1 log) = log_after_logout user t1 log.
Proof.
  unfold log_after_logout. rewrite <- list_fmap_compose.
  apply list_fmap_ext. intros _ e _. simpl.
  rewrite !mark_logged_out_eq. apply mark_previous_inactive_idem.
Qed.








(** *** No two active entries for one identity *)







Lemma active_sessions_sublist (user : User) (log : list ActivityEntry) :
  active_sessions user log `sublist_of` still_active log.
Proof.
  unfold active_sessions, still_active.
  induction log as [|e log IH]; [constructor|].
  rewrite !filter_cons.
  destruct (same_user user e), (isActive e); simpl;
    repeat case_decide; try done; by constructor.
Qed.

(** With distinct active entries, a user whose [id] and [username] go
    together in the log has at most one active entry. *)
Lemma distinct_active_at_most_one (user : User) (log : list ActivityEntry) :
  distinct_active log ->
  (forall e, e ∈ log ->
     userId e = user_id user <-> entry_username e = username user) ->
  (length (active_sessions user log) <= 1)%nat.
Proof.
  intros [Hids _] Hconsistent.
  pose proof (active_sessions_sublist user log) as Hsub.
  assert (Hall : forall e, e ∈ active_sessions user log -> userId e = user_id user).
  { intros e [Hs He]%list_elem_of_filter.
    apply andb_prop in Hs as [Hs _]. unfold same_user in Hs.
    apply orb_prop in Hs as [Hs%strict_eq_true | Hs%strict_eq_true]; [done|].
    by apply Hconsistent. }
  pose proof (sublist_NoDup _ _ Hids (fmap_sublist userId _ _ Hsub)) as Hnodup.
  destruct (active_sessions user log) as [|e1 [|e2 rest]]; simpl; [lia..|].
  exfalso. rewrite !fmap_cons in Hnodup.
  apply NoDup_cons in Hnodup as [Hnotin _]. apply Hnotin.
  rewrite (Hall e1), <- (Hall e2); [by left|by right; left|by left].
Qed.

End ActivityLog.

(** ** On a reliable store *)

Section Reliable.
Context `{JSON} `{!JSONLaws}.
Variable env : Env.

Local Abbreviation world := (World (gmap string string)).

Lemma read_activity_log_eq (w : world) :
  read_activity_log w
  = match activity_log w with
    | Some log => (Return log, w)
    | None => (Throw, w)
    end.
Proof.
  unfold read_activity_log, activity_log, bind, localStorage_getItem, JSON_parse.
  simpl. by destruct (JSON_parse_log _).
Qed.

(** The activity log only depends on its own key. *)
Lemma activity_log_with_storage (s : gmap string string) (w : world) :
  s !! "ipsms_user_activity_log" = localStorage w !! "ipsms_user_activity_log" ->
  activity_log (with_storage s w) = activity_log w.
Proof. unfold activity_log. simpl. by intros ->. Qed.

Lemma activity_log_written (s : gmap string string) (w : world) (log : list ActivityEntry) :
  s !! "ipsms_user_activity_log" = Some (JSON_stringify_log log) ->
  activity_log (with_storage s w) = Some log.
Proof.
  unfold activity_log. simpl. intros ->. unfold or_else.
  rewrite (proj2 (truthy_Some _) (stringify_log_nonempty log)). simpl.
  apply parse_stringify_log.
Qed.

Lemma activity_log_absent (w : world) :
  localStorage w !! "ipsms_user_activity_log" = None -> activity_log w = Some [].
Proof. unfold activity_log. intros ->. apply parse_empty_array. Qed.

Lemma trackUserLogin_eq (user : User) (time : Z) (w : world) :
  trackUserLogin env user time w
  = (Return tt,
     match activity_log w with
     | Some log => login_recorded env user time log w
     | None => w
     end).
Proof.
  unfold trackUserLogin, try_catch, bind. rewrite read_activity_log_eq.
  destruct (activity_log w) as [log|]; [|done].
  unfold call_generateId, localStorage_setItem. simpl.
  by rewrite capped_slice.
Qed.

Lemma trackUserLogout_eq (user : User) (time : Z) (w : world) :
  trackUserLogout user time w
  = (Return tt,
     match activity_log w with
     | Some log =>
         with_storage
           (<["ipsms_user_activity_log" :=
               JSON_stringify_log (log_after_logout user time log)]> (localStorage w)) w
     | None => w
     end).
Proof.
  unfold trackUserLogout, try_catch, bind. rewrite read_activity_log_eq.
  by destruct (activity_log w) as [log|].
Qed.

Lemma clearUserSession_eq (time : Z) (w : world) :
  clearUserSession time w
  = (Return tt, with_storage (session_cleared (logout_tracked time w)) w).
Proof.
  unfold clearUserSession, try_catch, bind, get_currentUser, logout_tracked.
  destruct (currentUser w) as [user|] eqn:Hu.
  - rewrite trackUserLogout_eq.
    destruct (activity_log w) as [log|]; reflexivity.
  - reflexivity.
Qed.

Lemma session_cleared_lookup (s : gmap string string) (k : string) :
  session_cleared s !! k
  = if bool_decide (k ∈ ["ipsms_user"; "ipsms_session_expiry"; "ipsms_login_time"])
    then None else s !! k.
Proof.
  unfold session_cleared. rewrite !lookup_delete.
  repeat case_decide; subst; try done;
    case_bool_decide as Hk; try done;
    rewrite ?elem_of_cons, ?elem_of_nil in Hk; exfalso; intuition congruence.
Qed.

Lemma session_cleared_idem (s : gmap string string) :
  session_cleared (session_cleared s) = session_cleared s.
Proof.
  apply map_eq. intros k. rewrite !session_cleared_lookup.
  by case_bool_decide.
Qed.

Lemma activity_log_cleared (s : gmap string string) (w : world) :
  activity_log (with_storage (session_cleared s) w) = activity_log (with_storage s w).
Proof.
  unfold activity_log. simpl. by rewrite session_cleared_lookup.
Qed.

End Reliable.

(** ** Saving, restoring and clearing on a reliable store *)

Section ReliableSession.
Context `{JSON} `{!JSONLaws}.
Variable env : Env.

Local Abbreviation world := (World (gmap string string)).

Lemma session_saved_lookup (now : Z) (user : User) (s : gmap string string) :
  session_saved env now user s !! "ipsms_user" = Some (JSON_stringify_user user)
  /\ session_saved env now user s !! "ipsms_session_expiry"
     = Some (Number_toString (now + session_lifetime))
  /\ session_saved env now user s !! "ipsms_login_time" = Some (Number_toString now)
  /\ session_saved env now user s !! "ipsms_environment" = Some (location_origin env)
  /\ session_saved env now user s !! "ipsms_user_activity_log"
     = s !! "ipsms_user_activity_log".
Proof. unfold session_saved. split_and!; by simplify_map_eq. Qed.

Lemma saved_world_lookup (now : Z) (user : User) (w : world) (k : string) :
  k <> "ipsms_user_activity_log" ->
  localStorage (saved_world env now user w) !! k
  = session_saved env now user (localStorage w) !! k.
Proof.
  intros Hk. unfold saved_world.
  destruct (activity_log w); simpl; [|done].
  by rewrite lookup_insert_ne.
Qed.

(** On a reliable store [saveUserSession] succeeds whenever [Storage] is
    defined. *)
Lemma saveUserSession_reliable (now : Z) (user : User) (w : world) :
  storage_defined env = true ->
  saveUserSession env now user w = (true, saved_world env now user w).
Proof.
  intros Hdefined.
  assert (Hlog : activity_log
                   (with_storage (session_saved env now user (localStorage w)) w)
                 = activity_log w).
  { apply activity_log_with_storage. apply session_saved_lookup. }
  unfold saveUserSession, run, try_catch, bind. rewrite Hdefined.
  unfold ret, localStorage_setItem, localStorage_removeItem, localStorage_getItem.
  simpl. rewrite !with_storage_twice.
  fold (session_saved env now user (localStorage w)).
  rewrite trackUserLogin_eq, Hlog. fold (saved_world env now user w).
  destruct (session_saved_lookup now user (localStorage w)) as (Hu & He & _).
  rewrite !saved_world_lookup, Hu, He by done.
  rewrite (proj2 (truthy_Some _) (stringify_user_nonempty user)), truthy_toString.
  unfold JSON_parse. simpl. rewrite parse_stringify_user. unfold ret.
  rewrite strict_eq_refl, parseInt_toString. simpl. by rewrite Z.eqb_refl.
Qed.


Lemma stored_session_saved (now : Z) (user : User) (w : world) :
  stored_session (localStorage (saved_world env now user w))
  = Some {| session_user := user; issuedAt := now;
            expiresAt := now + session_lifetime |}.
Proof.
  destruct (session_saved_lookup now user (localStorage w)) as (Hu & He & Hl & _).
  unfold stored_session. rewrite !saved_world_lookup, Hu, He, Hl by done. simpl.
  rewrite parse_stringify_user. simpl. by rewrite !parseInt_toString.
Qed.

(** [checkExistingLogin] on a store that holds a saved user and expiry. *)
Lemma checkExistingLogin_valid (now expiry : Z) (user : User) (w : world) :
  localStorage w !! "ipsms_user" = Some (JSON_stringify_user user) ->
  localStorage w !! "ipsms_session_expiry" = Some (Number_toString expiry) ->
  now < expiry ->
  checkExistingLogin now w
  = (true,
     {| localStorage := localStorage w; currentUser := Some user;
        api_currentUser := Some user; id_calls := id_calls w;
        effects := (effects w ++ [ScheduleRestoreSession user])%list |}).
Proof.
  intros Hu He Hlt.
  unfold checkExistingLogin, run, try_catch, bind, localStorage_getItem.
  simpl. rewrite Hu, He.
  rewrite (proj2 (truthy_Some _) (stringify_user_nonempty user)), truthy_toString.
  unfold JSON_parse. simpl. rewrite parse_stringify_user, parseInt_toString.
  unfold ret. rewrite (proj2 (lt_num_Some now expiry) Hlt). reflexivity.
Qed.

Lemma checkExistingLogin_expired (now expiry : Z) (user : User) (w : world) :
  localStorage w !! "ipsms_user" = Some (JSON_stringify_user user) ->
  localStorage w !! "ipsms_session_expiry" = Some (Number_toString expiry) ->
  expiry <= now ->
  checkExistingLogin now w
  = (false,
     {| localStorage := session_cleared (logout_tracked now w);
        currentUser := currentUser w;
        api_currentUser := api_currentUser w; id_calls := id_calls w;
        effects := (effects w ++ [ScheduleLoginScreen])%list |}).
Proof.
  intros Hu He Hle.
  unfold checkExistingLogin, run, try_catch, bind, localStorage_getItem.
  simpl. rewrite Hu, He.
  rewrite (proj2 (truthy_Some _) (stringify_user_nonempty user)), truthy_toString.
  unfold JSON_parse. simpl. rewrite parse_stringify_user, parseInt_toString.
  unfold ret. rewrite (proj2 (lt_num_Some_false now expiry) Hle).
  rewrite clearUserSession_eq. reflexivity.
Qed.

Lemma session_cleared_keys (s : gmap string string) :
  session_cleared s !! "ipsms_user" = None
  /\ session_cleared s !! "ipsms_session_expiry" = None
  /\ session_cleared s !! "ipsms_login_time" = None.
Proof. unfold session_cleared. split_and!; by simplify_map_eq. Qed.

Lemma stored_session_cleared (s : gmap string string) :
  stored_session (session_cleared s) = None.
Proof.
  unfold stored_session. by rewrite (proj1 (session_cleared_keys s)).
Qed.

(** C6.  Session round trip on a reliable store.  [saveUserSession(u)] at
    time [t0] succeeds and stores the session [{u, issuedAt = t0,
    expiresAt = t0 + 24h}].  With the store it leaves (whatever else a
    reload changed), [checkExistingLogin()] at a time before [t0 + 24h]
    restores exactly [u] as the current user and leaves the store alone;
    at a time from [t0 + 24h] on it answers false and the user, expiry
    and login-time keys are gone from the store. *)
Theorem session_round_trip (user : User) (t0 t1 : Z) (w0 w1 : world) :
  storage_defined env = true ->
  localStorage w1 = localStorage (snd (saveUserSession env t0 user w0)) ->
  fst (saveUserSession env t0 user w0) = true
  /\ session_lifetime = 86400000
  /\ stored_session (localStorage w1)
     = Some {| session_user := user; issuedAt := t0;
               expiresAt := t0 + session_lifetime |}
  /\ (t1 < t0 + session_lifetime ->
        fst (checkExistingLogin t1 w1) = true
        /\ currentUser (snd (checkExistingLogin t1 w1)) = Some user
        /\ api_currentUser (snd (checkExistingLogin t1 w1)) = Some user
        /\ localStorage (snd (checkExistingLogin t1 w1)) = localStorage w1)
  /\ (t0 + session_lifetime <= t1 ->
        fst (checkExistingLogin t1 w1) = false
        /\ localStorage (snd (checkExistingLogin t1 w1)) !! "ipsms_user" = None
        /\ localStorage (snd (checkExistingLogin t1 w1)) !! "ipsms_session_expiry" = None
        /\ localStorage (snd (checkExistingLogin t1 w1)) !! "ipsms_login_time" = None
        /\ stored_session (localStorage (snd (checkExistingLogin t1 w1))) = None).
Proof.
  intros Hdefined Hstore.
  rewrite (saveUserSession_reliable t0 user w0 Hdefined) in *. simpl in Hstore.
  destruct (session_saved_lookup t0 user (localStorage w0)) as (Hu & He & _).
  assert (Hu1 : localStorage w1 !! "ipsms_user" = Some (JSON_stringify_user user))
    by (by rewrite Hstore, saved_world_lookup).
  assert (He1 : localStorage w1 !! "ipsms_session_expiry"
                = Some (Number_toString (t0 + session_lifetime)))
    by (by rewrite Hstore, saved_world_lookup).
  split_and!.
  - done.
  - reflexivity.
  - rewrite Hstore. apply stored_session_saved.
  - intros Hlt. by rewrite (checkExistingLogin_valid _ _ _ _ Hu1 He1 Hlt).
  - intros Hle. rewrite (checkExistingLogin_expired _ _ _ _ Hu1 He1 Hle). simpl.
    pose proof (session_cleared_keys (logout_tracked t1 w1)) as (? & ? & ?).
    by rewrite stored_session_cleared.
Qed.

(** After the logout tracking, tracking again changes nothing. *)
Lemma logout_tracked_again (t1 t2 : Z) (w : world) :
  session_cleared
    (logout_tracked t2 (with_storage (session_cleared (logout_tracked t1 w)) w))
  = session_cleared (logout_tracked t1 w).
Proof.
  unfold logout_tracked at 1. simpl. rewrite activity_log_cleared.
  unfold logout_tracked.
  destruct (currentUser w) as [user|]; [|by rewrite session_cleared_idem].
  destruct (activity_log w) as [log|] eqn:Hlog.
  - erewrite activity_log_written by apply lookup_insert_eq.
    rewrite log_after_logout_idem.
    apply map_eq. intros k.
    rewrite !session_cleared_lookup. case_bool_decide; [done|].
    destruct (decide (k = "ipsms_user_activity_log")) as [->|Hk].
    + by rewrite !lookup_insert_eq.
    + rewrite lookup_insert_ne, session_cleared_lookup by done.
      by rewrite bool_decide_eq_false_2.
  - rewrite with_storage_same, Hlog. apply session_cleared_idem.
Qed.

(** C9.  On a reliable store [clearUserSession()] returns normally and
    removes the user, expiry and login-time keys, whatever the store held
    and whoever is logged in (the recorded origin and the activity log
    are not session fields and are kept); calling it a second time, at
    any later clock reading, leaves the store, and the whole state, as
    the first call left it. *)
Theorem clearUserSession_idempotent (t1 t2 : Z) (w : world) :
  fst (clearUserSession t1 w) = Return tt
  /\ localStorage (snd (clearUserSession t1 w)) !! "ipsms_user" = None
  /\ localStorage (snd (clearUserSession t1 w)) !! "ipsms_session_expiry" = None
  /\ localStorage (snd (clearUserSession t1 w)) !! "ipsms_login_time" = None
  /\ stored_session (localStorage (snd (clearUserSession t1 w))) = None
  /\ (forall k, k <> "ipsms_user" -> k <> "ipsms_session_expiry" ->
                k <> "ipsms_login_time" -> k <> "ipsms_user_activity_log" ->
                localStorage (snd (clearUserSession t1 w)) !! k = localStorage w !! k)
  /\ clearUserSession t2 (snd (clearUserSession t1 w))
     = (Return tt, snd (clearUserSession t1 w)).
Proof.
  rewrite clearUserSession_eq. simpl.
  pose proof (session_cleared_keys (logout_tracked t1 w)) as (? & ? & ?).
  rewrite stored_session_cleared.
  split_and!; try done.
  - intros k Hk1 Hk2 Hk3 Hk4. rewrite session_cleared_lookup.
    rewrite bool_decide_eq_false_2
      by (rewrite !elem_of_cons, elem_of_nil; intuition congruence).
    unfold logout_tracked.
    destruct (currentUser w), (activity_log w); try done.
    by rewrite lookup_insert_ne.
  - rewrite clearUserSession_eq, with_storage_twice.
    by rewrite logout_tracked_again.
Qed.

End ReliableSession.

(** ** The activity log under the session operations *)

Section ReliableLog.
Context `{JSON} `{!JSONLaws}.
Variable env : Env.

Local Abbreviation world := (World (gmap string string)).








(** ** Sequences of operations *)






End ReliableLog.

(** ** Saving on any medium *)

Section AnyMedium.
Context {S : Type} `{Storage S} `{JSON}.
Variable env : Env.


Lemma trackUserLogout_returns (user : User) (time : Z) (w : World S) :
  fst (trackUserLogout user time w) = Return tt.
Proof.
  unfold trackUserLogout, try_catch.
  by destruct (bind _ _ w) as [[[]|] w'].
Qed.

Lemma clearUserSession_returns (time : Z) (w : World S) :
  fst (clearUserSession time w) = Return tt.
Proof.
  unfold clearUserSession, try_catch.
  by destruct (bind _ _ w) as [[[]|] w'].
Qed.



End AnyMedium.

End SessionFacts.

(* ================================================================== *)
(** * The JSON codec satisfies the laws *)
(* ================================================================== *)

Module JSONTextFacts.
Import JS JSFacts JSONText.

#[local] Arguments String.append !_ _ / : simpl nomatch.

Lemma append_assoc (a b c : string) : (a ++ b) ++ c = a ++ (b ++ c).
Proof. induction a as [|x a IH]; simpl; [done|by rewrite IH]. Qed.

Lemma append_nil_r (a : string) : a ++ "" = a.
Proof. induction a as [|x a IH]; simpl; [done|by rewrite IH]. Qed.

Lemma length_append (a b : string) :
  String.length (a ++ b) = (String.length a + String.length b)%nat.
Proof. induction a as [|x a IH]; simpl; [done|by rewrite IH]. Qed.

Lemma append_wrap (a c : ascii) (b rest : string) :
  (String a "" ++ b ++ String c "") ++ rest = String a (b ++ String c rest).
Proof.
  change (String a ((b ++ String c "") ++ rest) = String a (b ++ String c rest)).
  by rewrite append_assoc.
Qed.

(** ** String literals *)

Lemma parse_chars_escape (s rest : string) :
  parse_chars (escape s ++ String quote rest) = Some (s, rest).
Proof.
  induction s as [|c s IH]; simpl.
  - reflexivity.
  - destruct (needs_escape c) eqn:Hc; simpl.
    + rewrite Hc, IH. reflexivity.
    + unfold needs_escape in Hc. apply orb_false_elim in Hc as [-> ->].
      rewrite IH. reflexivity.
Qed.

Lemma parse_string_print (s rest : string) :
  parse_string (print_string s ++ rest) = Some (s, rest).
Proof.
  unfold print_string. simpl. rewrite append_assoc. simpl.
  apply parse_chars_escape.
Qed.

(** ** Numbers *)

Lemma span_digits_uint (d : uint) (rest : string) :
  ends_number rest ->
  span_digits (NilEmpty.string_of_uint d ++ rest) = (NilEmpty.string_of_uint d, rest).
Proof.
  intros Hrest. induction d; simpl; try (rewrite IHd; reflexivity).
  destruct rest as [|c r]; simpl in *; [done|by rewrite Hrest].
Qed.

Lemma unsigned_number_uint (d : uint) (rest : string) :
  d <> Nil -> ends_number rest ->
  unsigned_number (NilEmpty.string_of_uint d ++ rest)
  = Some (Z.of_N (Pos.of_uint d), rest).
Proof.
  intros Hd Hrest. unfold unsigned_number.
  rewrite span_digits_uint by done. simpl fst. simpl snd.
  by rewrite read_digits_start.
Qed.

Lemma parse_number_unsigned (s : string) :
  match s with String c _ => c <> "-"%char | EmptyString => True end ->
  parse_number s = unsigned_number s.
Proof.
  destruct s as [|c r]; [done|]. intros Hc.
  destruct c as [[] [] [] [] [] [] [] []]; try reflexivity. done.
Qed.

Lemma parse_number_print (n : Z) (rest : string) :
  ends_number rest ->
  parse_number (Number_toString n ++ rest) = Some (n, rest).
Proof.
  intros Hrest. destruct n as [|p|p]; unfold Number_toString; simpl Z.to_int;
    unfold NilZero.string_of_int.
  - rewrite parse_number_unsigned by done.
    apply (unsigned_number_uint (D0 Nil)); done.
  - rewrite string_of_positive.
    pose proof (DecimalPos.Unsigned.to_uint_nonnil p) as Hp.
    rewrite parse_number_unsigned by (by destruct (Pos.to_uint p)).
    rewrite unsigned_number_uint by done.
    by rewrite DecimalPos.Unsigned.of_to.
  - rewrite string_of_positive.
    pose proof (DecimalPos.Unsigned.to_uint_nonnil p) as Hp.
    change (parse_number (String "-" ?s ++ rest))
      with ((fun x => (- fst x, snd x)) <$> unsigned_number (s ++ rest)).
    rewrite unsigned_number_uint by done. simpl.
    by rewrite DecimalPos.Unsigned.of_to.
Qed.

Lemma starts_number_print (n : Z) (rest : string) :
  starts_number (Number_toString n ++ rest).
Proof.
  destruct n as [|p|p]; unfold Number_toString; simpl; [tauto| |tauto].
  rewrite string_of_positive.
  pose proof (DecimalPos.Unsigned.to_uint_nonnil p).
  destruct (Pos.to_uint p); simpl; tauto.
Qed.

Lemma parse_value_number (s : string) :
  starts_number s ->
  parse_value s = (fun x => (Number (fst x), snd x)) <$> parse_number s.
Proof.
  destruct s as [|c r]; simpl; [done|].
  intros Hc. repeat (destruct Hc as [<-|Hc]; [reflexivity|]). done.
Qed.

(** ** Values, members, objects *)

Lemma after_value_ends_number (rest : string) : after_value rest -> ends_number rest.
Proof. destruct rest as [|c r]; simpl; [done|]. by intros [-> | ->]. Qed.

Lemma parse_value_print (v : value) (rest : string) :
  after_value rest ->
  parse_value (print_value v ++ rest) = Some (v, rest).
Proof.
  intros Hrest. destruct v as [|[]|n|s]; try reflexivity.
  - simpl print_value.
    rewrite parse_value_number by apply starts_number_print.
    by rewrite parse_number_print by by apply after_value_ends_number.
  - simpl print_value.
    pose proof (parse_string_print s rest) as Hs.
    unfold print_string in *. simpl in *. by rewrite Hs.
Qed.

Lemma parse_member_print (k : string) (v : value) (rest : string) :
  after_value rest ->
  parse_string (print_member (k, v) ++ rest) = Some (k, ":" ++ print_value v ++ rest)
  /\ parse_value (print_value v ++ rest) = Some (v, rest).
Proof.
  intros Hrest. split; [|by apply parse_value_print].
  unfold print_member. simpl fst. simpl snd.
  rewrite !append_assoc. apply parse_string_print.
Qed.

Lemma parse_members_step (fuel : nat) (s : string) :
  parse_members (Datatypes.S fuel) s
  = match parse_string s with
    | Some (k, r1) =>
        match strip_prefix ":" r1 with
        | Some r2 =>
            match parse_value r2 with
            | Some (v, String "," r3) =>
                (fun x => ((k, v) :: fst x, snd x)) <$> parse_members fuel r3
            | Some (v, String "}" r3) => Some ([(k, v)], r3)
            | _ => None
            end
        | None => None
        end
    | None => None
    end.
Proof. reflexivity. Qed.

Lemma strip_colon (s : string) : strip_prefix ":" (":" ++ s) = Some s.
Proof. reflexivity. Qed.

Lemma parse_members_print (o : object) (fuel : nat) (rest : string) :
  o <> [] -> (length o <= fuel)%nat ->
  parse_members fuel (print_members o ++ String "}" rest) = Some (o, rest).
Proof.
  revert fuel. induction o as [|[k v] o IH]; intros fuel Hne Hfuel; [done|].
  destruct fuel as [|fuel]; [simpl in Hfuel; lia|].
  destruct o as [|m o].
  - change (print_members [(k, v)]) with (print_member (k, v)).
    destruct (parse_member_print k v (String "}" rest)) as [Hk Hv]; [simpl; tauto|].
    rewrite parse_members_step, Hk, strip_colon, Hv. reflexivity.
  - change (print_members ((k, v) :: m :: o))
      with (print_member (k, v) ++ "," ++ print_members (m :: o)).
    rewrite !append_assoc.
    destruct (parse_member_print k v ("," ++ print_members (m :: o) ++ String "}" rest))
      as [Hk Hv]; [simpl; tauto|].
    rewrite parse_members_step, Hk, strip_colon, Hv.
    change ("," ++ ?s) with (String "," s). cbv iota beta.
    rewrite IH by (done || simpl in *; lia). reflexivity.
Qed.

Lemma print_member_starts (m : string * value) :
  exists r, print_member m = String quote r.
Proof. unfold print_member, print_string. simpl. eauto. Qed.

Lemma print_members_starts (o : object) :
  o <> [] -> exists r, print_members o = String quote r.
Proof.
  destruct o as [|m o]; [done|]. intros _.
  destruct (print_member_starts m) as [r Hr].
  destruct o as [|m' o].
  - change (print_members [m]) with (print_member m). eauto.
  - change (print_members (m :: m' :: o))
      with (print_member m ++ "," ++ print_members (m' :: o)).
    rewrite Hr. simpl. eauto.
Qed.

Lemma length_print_members (o : object) :
  (length o <= String.length (print_members o))%nat.
Proof.
  induction o as [|m o IH]; [simpl; lia|].
  destruct (print_member_starts m) as [r Hr].
  destruct o as [|m' o].
  - change (print_members [m]) with (print_member m). rewrite Hr. simpl. lia.
  - change (print_members (m :: m' :: o))
      with (print_member m ++ "," ++ print_members (m' :: o)).
    rewrite !length_append, Hr. simpl in *. lia.
Qed.

Lemma parse_object_nonempty (r : string) :
  parse_object (String "{" (String quote r))
  = parse_members (String.length (String quote r)) (String quote r).
Proof. reflexivity. Qed.

Lemma parse_object_print (o : object) (rest : string) :
  parse_object (print_object o ++ rest) = Some (o, rest).
Proof.
  unfold print_object. destruct o as [|m o]; [reflexivity|].
  destruct (print_members_starts (m :: o)) as [r Hr]; [done|].
  rewrite append_wrap.
  pose proof (length_print_members (m :: o)) as Hlen.
  pose proof (parse_members_print (m :: o)
                (String.length (print_members (m :: o) ++ String "}" rest)) rest) as Hp.
  rewrite Hr in Hp |- *.
  change (String quote r ++ String "}" rest)
    with (String quote (r ++ String "}" rest)) in Hp |- *.
  rewrite parse_object_nonempty. apply Hp; [done|].
  change (String quote (r ++ String "}" rest))
    with (String quote r ++ String "}" rest).
  rewrite length_append, <- Hr. lia.
Qed.

(** ** Arrays of objects *)

Lemma print_object_starts (o : object) : exists r, print_object o = String "{" r.
Proof. unfold print_object. simpl. eauto. Qed.

Lemma parse_elements_step (fuel : nat) (s : string) :
  parse_elements (Datatypes.S fuel) s
  = match parse_object s with
    | Some (o, String "," r) =>
        (fun x => (o :: fst x, snd x)) <$> parse_elements fuel r
    | Some (o, String "]" r) => Some ([o], r)
    | _ => None
    end.
Proof. reflexivity. Qed.

Lemma parse_elements_print (l : list object) (fuel : nat) (rest : string) :
  l <> [] -> (length l <= fuel)%nat ->
  parse_elements fuel (print_elements l ++ String "]" rest) = Some (l, rest).
Proof.
  revert fuel. induction l as [|o l IH]; intros fuel Hne Hfuel; [done|].
  destruct fuel as [|fuel]; [simpl in Hfuel; lia|].
  destruct l as [|o' l].
  - change (print_elements [o]) with (print_object o).
    by rewrite parse_elements_step, parse_object_print.
  - change (print_elements (o :: o' :: l))
      with (print_object o ++ "," ++ print_elements (o' :: l)).
    rewrite !append_assoc, parse_elements_step, parse_object_print.
    change ("," ++ ?s) with (String "," s). cbv iota beta.
    rewrite IH by (done || simpl in *; lia). reflexivity.
Qed.

Lemma length_print_elements (l : list object) :
  (length l <= String.length (print_elements l))%nat.
Proof.
  induction l as [|o l IH]; [simpl; lia|].
  destruct (print_object_starts o) as [r Hr].
  destruct l as [|o' l].
  - change (print_elements [o]) with (print_object o). rewrite Hr. simpl. lia.
  - change (print_elements (o :: o' :: l))
      with (print_object o ++ "," ++ print_elements (o' :: l)).
    rewrite !length_append, Hr. simpl in *. lia.
Qed.

Lemma parse_array_nonempty (r : string) :
  parse_array (String "[" (String "{" r))
  = parse_elements (String.length (String "{" r)) (String "{" r).
Proof. reflexivity. Qed.

Lemma print_elements_starts (l : list object) :
  l <> [] -> exists r, print_elements l = String "{" r.
Proof.
  destruct l as [|o l]; [done|]. intros _.
  destruct (print_object_starts o) as [r Hr].
  destruct l as [|o' l].
  - change (print_elements [o]) with (print_object o). eauto.
  - change (print_elements (o :: o' :: l))
      with (print_object o ++ "," ++ print_elements (o' :: l)).
    rewrite Hr. simpl. eauto.
Qed.

Lemma parse_array_print (l : list object) (rest : string) :
  parse_array (print_array l ++ rest) = Some (l, rest).
Proof.
  unfold print_array. destruct l as [|o l]; [reflexivity|].
  destruct (print_elements_starts (o :: l)) as [r Hr]; [done|].
  rewrite append_wrap.
  pose proof (length_print_elements (o :: l)) as Hlen.
  pose proof (parse_elements_print (o :: l)
                (String.length (print_elements (o :: l) ++ String "]" rest)) rest) as Hp.
  rewrite Hr in Hp |- *.
  change (String "{" r ++ String "]" rest)
    with (String "{" (r ++ String "]" rest)) in Hp |- *.
  rewrite parse_array_nonempty. apply Hp; [done|].
  change (String "{" (r ++ String "]" rest))
    with (String "{" r ++ String "]" rest).
  rewrite length_append, <- Hr. lia.
Qed.

(** ** The two serialised types *)

Lemma user_of_object_of_user (u : User) : user_of_object (object_of_user u) = Some u.
Proof. destruct u as [[?|] [?|] [?|] [?|] [?|]]; reflexivity. Qed.

Lemma entry_of_object_of_entry (e : ActivityEntry) :
  entry_of_object (object_of_entry e) = Some e.
Proof.
  destruct e as [? [?|] [?|] [?|] [?|] [?|] ? [?|] ? [?|] ? ?]; reflexivity.
Qed.

Lemma entries_of_objects (l : list ActivityEntry) :
  mapM entry_of_object (object_of_entry <$> l) = Some l.
Proof.
  induction l as [|e l IH]; [done|].
  rewrite fmap_cons. simpl. rewrite entry_of_object_of_entry. simpl.
  by rewrite IH.
Qed.

Lemma parse_stringify_user (u : User) : parse_user (stringify_user u) = Some u.
Proof.
  unfold parse_user, stringify_user.
  rewrite <- (append_nil_r (print_object _)), parse_object_print. simpl.
  apply user_of_object_of_user.
Qed.

Lemma parse_stringify_log (l : list ActivityEntry) : parse_log (stringify_log l) = Some l.
Proof.
  unfold parse_log, stringify_log.
  rewrite <- (append_nil_r (print_array _)), parse_array_print. simpl.
  apply entries_of_objects.
Qed.

#[export] Instance codec_laws : JSONLaws.
Proof.
  split.
  - apply parse_stringify_user.
  - by intros u.
  - apply parse_stringify_log.
  - by intros l.
  - reflexivity.
Qed.

End JSONTextFacts.

(* ================================================================== *)
(** * The properties at work on the mock data *)
(* ================================================================== *)

Module ScenarioFacts.
Import JS JSONText JSONTextFacts Permission Repository Scenario.

(** ** Repository and workflow *)

(** Rejecting the pending report of the mock data. *)
Lemma reject_pending_report :
  useMockData api = true
  /\ pending_report ∈ reports (mockData api)
  /\ exists r' api' view,
       verifyReport api "2" "Test User" "Rejected" (Some "seen twice")
         "2024-02-01T09:00:00.000Z" = (Resolved r', api')
       /\ verification_status r' = Some "Rejected"
       /\ verified_by r' = Some "Test User"
       /\ verification_notes r' = Some "seen twice"
       /\ getReportById api' "2" = Resolved view
       /\ data view = r'.
Proof.
  assert (Hmock : useMockData api = true) by reflexivity.
  assert (Hin : pending_report ∈ reports (mockData api))
    by (apply (bool_decide_unpack _); vm_compute; exact I).
  split; [exact Hmock|]. split; [exact Hin|].
  destruct (RepositoryFacts.verifyReport_then_getReportById api pending_report
              "Test User" "Rejected" (Some "seen twice")
              "2024-02-01T09:00:00.000Z" Hmock Hin)
    as (i & r0 & r' & api' & view
        & _ & _ & _ & Hv & _ & Hs & Hb & _ & Hn & _ & _ & Hg & Hd).
  exists r', api', view. repeat split; assumption.
Defined.

(** Verifying a report that does not exist. *)
Lemma verify_missing_report :
  useMockData api = true
  /\ (forall r, r ∈ reports (mockData api) -> report_id r <> "does-not-exist")
  /\ verifyReport api "does-not-exist" "Test User" "Verified" None
       "2024-02-01T09:00:00.000Z" = (Rejected "Report not found", api).
Proof.
  assert (Hmock : useMockData api = true) by reflexivity.
  assert (Habsent : forall r, r ∈ reports (mockData api) ->
                              report_id r <> "does-not-exist").
  { apply Forall_forall. apply (bool_decide_unpack _). vm_compute. exact I. }
  split; [exact Hmock|]. split; [exact Habsent|].
  exact (proj1 (RepositoryFacts.verifyReport_not_found api "does-not-exist"
                  "Test User" "Verified" None "2024-02-01T09:00:00.000Z"
                  Hmock Habsent)).
Defined.

(** A citizen asks for the verification form of report 2. *)
Lemma citizen_cannot_open :
  canVerifyReports (Workflow.currentUser (page (Some citizen))) = false
  /\ Workflow.modals (Workflow.showVerificationModal "2" (page (Some citizen))) = []
  /\ Workflow.invasiveSpeciesAPI (Workflow.showVerificationModal "2" (page (Some citizen)))
     = api.
Proof.
  assert (Hdenied : canVerifyReports (Workflow.currentUser (page (Some citizen))) = false)
    by reflexivity.
  split; [exact Hdenied|].
  destruct (WorkflowFacts.showVerificationModal_denied "2" (page (Some citizen)) Hdenied)
    as (message & more & _ & _ & _ & Hmodals & _ & Hapi & _).
  split; [exact Hmodals|exact Hapi].
Defined.

(** The researcher submits the form without choosing a status. *)
Lemma submit_without_decision :
  Workflow.modals reviewing
  = [Workflow.new_modal "2"
       {| data := pending_report; species_name := "Pueraria montana" |} researcher]
  /\ Workflow.invasiveSpeciesAPI
       (Workflow.submit "2024-02-01T09:00:00.000Z" "2" "" "looks right" reviewing)
     = api
  /\ length (Workflow.modals
               (Workflow.submit "2024-02-01T09:00:00.000Z" "2" "" "looks right" reviewing))
     = 1%nat.
Proof.
  assert (Hopen : Workflow.modals reviewing
                  = Workflow.new_modal "2"
                      {| data := pending_report; species_name := "Pueraria montana" |}
                      researcher :: []) by reflexivity.
  split; [exact Hopen|].
  destruct (WorkflowFacts.submit_validation_failure "2024-02-01T09:00:00.000Z" "2" ""
              "looks right" reviewing _ _ Hopen (or_introl eq_refl))
    as (_ & _ & Hlen & Hapi & _).
  split; [exact Hapi|exact Hlen].
Defined.

(** The scenario of the specification: a citizen is refused, a
    researcher opens report 2, submits 'Verified' with a note, and the
    repository then answers with the verified report. *)
Example verification_scenario :
  let denied := Workflow.showVerificationModal "2" (page (Some citizen)) in
  let done :=
    Workflow.submit "2024-02-01T09:00:00.000Z" "2" "Verified" "confirmed in field"
      reviewing in
  Workflow.modals denied = []
  /\ Workflow.modals done = []
  /\ (data <$> match getReportById (Workflow.invasiveSpeciesAPI done) "2" with
               | Resolved view => Some view
               | _ => None
               end)
     = Some (Object_assign pending_report
               {| vd_verification_status := "Verified";
                  vd_verified_by := "Test User";
                  vd_verification_date := "2024-02-01T09:00:00.000Z";
                  vd_verification_notes := "confirmed in field" |}).
Proof. vm_compute. done. Qed.

(** ** Session store *)

(** Saving the researcher's session at time 1000 and reading it back an
    hour later, or a day later. *)
Lemma researcher_round_trip :
  storage_defined browser = true
  /\ SessionStore.localStorage logged_in
     = SessionStore.localStorage
         (snd (SessionStore.saveUserSession browser 1000 researcher fresh))
  /\ SessionStore.stored_session (SessionStore.localStorage logged_in)
     = Some {| SessionStore.session_user := researcher;
               SessionStore.issuedAt := 1000;
               SessionStore.expiresAt := 86401000 |}
  /\ fst (SessionStore.checkExistingLogin 3601000 logged_in) = true
  /\ fst (SessionStore.checkExistingLogin 86401000 logged_in) = false.
Proof.
  assert (Hdefined : storage_defined browser = true) by reflexivity.
  assert (Hstore : SessionStore.localStorage logged_in
                   = SessionStore.localStorage
                       (snd (SessionStore.saveUserSession browser 1000 researcher fresh)))
    by (vm_compute; reflexivity).
  split; [exact Hdefined|]. split; [exact Hstore|].
  destruct (SessionFacts.session_round_trip browser researcher 1000 3601000
              fresh logged_in Hdefined Hstore) as (_ & _ & Hsession & Hvalid & _).
  destruct (SessionFacts.session_round_trip browser researcher 1000 86401000
              fresh logged_in Hdefined Hstore) as (_ & _ & _ & _ & Hexpired).
  split; [exact Hsession|].
  split.
  - apply Hvalid. reflexivity.
  - apply Hexpired. discriminate.
Defined.

(** Clearing the researcher's session twice. *)
Lemma researcher_cleared_twice :
  SessionStore.clearUserSession 3000
    (snd (SessionStore.clearUserSession 2000 logged_in))
  = (SessionStore.Return tt, snd (SessionStore.clearUserSession 2000 logged_in)).
Proof.
  exact (proj2 (proj2 (proj2 (proj2 (proj2 (proj2
           (SessionFacts.clearUserSession_idempotent 2000 3000 logged_in))))))).
Defined.




(** ** Faulty media *)

(** On a medium whose writes raise, the save fails at the write test. *)
Example save_on_read_only_medium :
  fst (SessionStore.saveUserSession browser 1000 researcher
         {| SessionStore.localStorage := SessionStore.ReadOnly;
            SessionStore.currentUser := Some researcher;
            SessionStore.api_currentUser := None;
            SessionStore.id_calls := 0;
            SessionStore.effects := [] |}) = false
  /\ SessionStore.write_session browser 1000 researcher SessionStore.ReadOnly = None.
Proof. split; reflexivity. Qed.

(** On a medium that keeps nothing, every write succeeds and the save
    fails at the read-back. *)
Example save_on_forgetful_medium :
  fst (SessionStore.saveUserSession browser 1000 researcher
         {| SessionStore.localStorage := SessionStore.Forgetful;
            SessionStore.currentUser := Some researcher;
            SessionStore.api_currentUser := None;
            SessionStore.id_calls := 0;
            SessionStore.effects := [] |}) = false
  /\ SessionStore.write_session browser 1000 researcher SessionStore.Forgetful
     = Some SessionStore.Forgetful
  /\ SessionStore.read_back_matches 1000 researcher (None, None) = false.
Proof. split_and!; reflexivity. Qed.

End ScenarioFacts.

(* ================================================================== *)
(** * Report repository: lookups, submissions and statistics *)
(* ================================================================== *)

Module ReportsFacts.
Import JS JSFacts Repository RepositoryFacts Reports.

Lemma Number_toString_inj (m n : Z) : Number_toString m = Number_toString n -> m = n.
Proof.
  intros Heq. apply (f_equal parseInt) in Heq.
  rewrite !parseInt_toString in Heq. congruence.
Qed.

Lemma find_species_Some (id : string) (l : list Species) (i : nat) (s : Species) :
  find_species id l = Some (i, s) ->
  s ∈ l /\ species_key s = id.
Proof.
  intros (Hi & Hid & _)%(list_find_Some (fun x => species_key x = id)).
  split; [by eapply list_elem_of_lookup_2 | done].
Qed.

Lemma find_species_None (id : string) (l : list Species) :
  find_species id l = None <-> forall s, s ∈ l -> species_key s <> id.
Proof.
  unfold find_species.
  rewrite (list_find_None (fun x => species_key x = id)), Forall_forall.
  reflexivity.
Qed.

(** X1.  With the mock data on, [getReportById(id)] is a sound and
    complete lookup: it is rejected with ['Report not found'] exactly when
    no report carries [id]; otherwise it resolves to the first report
    carrying [id], together with the scientific name of a species whose
    id is the report's [species_id], or ['Unknown Species'] when there is
    no such species.  It never goes to the network. *)
Theorem getReportById_lookup (api : InvasiveSpeciesAPI) (id : string) :
  useMockData api = true ->
  (getReportById api id = Rejected "Report not found"
     <-> forall r, r ∈ reports (mockData api) -> report_id r <> id)
  /\ (forall r, r ∈ reports (mockData api) -> report_id r = id ->
        exists i view,
          getReportById api id = Resolved view
          /\ reports (mockData api) !! i = Some (data view)
          /\ report_id (data view) = id
          /\ (forall j y, reports (mockData api) !! j = Some y -> (j < i)%nat ->
                          report_id y <> id)
          /\ ((exists s, s ∈ species (mockData api)
                         /\ species_key s = species_id (data view)
                         /\ species_name view = scientific_name s)
              \/ ((forall s, s ∈ species (mockData api) ->
                             species_key s <> species_id (data view))
                  /\ species_name view = "Unknown Species")))
  /\ (forall request, getReportById api id <> Network request).
Proof.
  intros Hmock. unfold getReportById. rewrite Hmock. split_and!.
  - rewrite <- find_report_None.
    destruct (find_report id _) as [[i r]|]; split; done.
  - intros r Hr Hid. subst id.
    destruct (find_report_present r _ Hr) as (i & r0 & Hfind).
    rewrite Hfind.
    apply find_report_Some in Hfind as (Hi & Hid & Hfirst).
    exists i. eexists. split; [reflexivity|]. simpl. split_and!; try done.
    destruct (find_species (species_id r0) _) as [[k s]|] eqn:Hs.
    + left. apply find_species_Some in Hs as (? & ?). by exists s.
    + right. split; [|done]. exact (proj1 (find_species_None _ _) Hs).
  - intros request. by destruct (find_report id _) as [[i r]|].
Qed.

(** ** What [verifyReport] keeps *)

Lemma verifyReport_reports (api : InvasiveSpeciesAPI)
    (id verifier status : string) (notes : option string) (now : string) :
  reports (mockData (snd (verifyReport api id verifier status notes now)))
  = match find_report id (reports (mockData api)) with
    | Some (i, r) =>
        if useMockData api then
          <[i := Object_assign r
                   {| vd_verification_status := status; vd_verified_by := verifier;
                      vd_verification_date := now;
                      vd_verification_notes := default "" notes |}]>
            (reports (mockData api))
        else reports (mockData api)
    | None => reports (mockData api)
    end.
Proof.
  unfold verifyReport.
  destruct (find_report id _) as [[i r]|], (useMockData api); reflexivity.
Qed.

Lemma verifyReport_flags (api : InvasiveSpeciesAPI)
    (id verifier status : string) (notes : option string) (now : string) :
  useMockData (snd (verifyReport api id verifier status notes now)) = useMockData api
  /\ species (mockData (snd (verifyReport api id verifier status notes now)))
     = species (mockData api).
Proof.
  unfold verifyReport.
  destruct (find_report id _) as [[i r]|], (useMockData api) eqn:Hmock;
    simpl; by rewrite ?Hmock.
Qed.

Lemma verifyReport_length (api : InvasiveSpeciesAPI)
    (id verifier status : string) (notes : option string) (now : string) :
  length (reports (mockData (snd (verifyReport api id verifier status notes now))))
  = length (reports (mockData api)).
Proof.
  rewrite verifyReport_reports.
  destruct (find_report id _) as [[i r]|]; [|done].
  destruct (useMockData api); [|done]. apply length_insert.
Qed.

(** X2.  Whatever its arguments and however it settles, [verifyReport]
    keeps the number of reports, their order and their ids, and the
    species; each report keeps every descriptive property, and a report
    whose id is not the one asked for is not changed at all. *)
Theorem verifyReport_keeps (api : InvasiveSpeciesAPI)
    (id verifier status : string) (notes : option string) (now : string) :
  let api' := snd (verifyReport api id verifier status notes now) in
  length (reports (mockData api')) = length (reports (mockData api))
  /\ report_id <$> reports (mockData api') = report_id <$> reports (mockData api)
  /\ species (mockData api') = species (mockData api)
  /\ useMockData api' = useMockData api
  /\ forall i r, reports (mockData api) !! i = Some r ->
       exists r', reports (mockData api') !! i = Some r'
         /\ report_id r' = report_id r
         /\ species_id r' = species_id r
         /\ location_description r' = location_description r
         /\ reporter_name r' = reporter_name r
         /\ reporter_type r' = reporter_type r
         /\ population_size r' = population_size r
         /\ threat_assessment r' = threat_assessment r
         /\ confidence_level r' = confidence_level r
         /\ Repository.notes r' = Repository.notes r
         /\ report_date r' = report_date r
         /\ (report_id r <> id -> r' = r).
Proof.
  intros api'. subst api'.
  destruct (verifyReport_flags api id verifier status notes now) as (Hflag & Hspecies).
  rewrite verifyReport_reports.
  destruct (find_report id _) as [[k r0]|] eqn:Hfind;
    [destruct (useMockData api)|].
  - apply find_report_Some in Hfind as (Hk & Hid & _).
    split_and!; try done.
    + apply length_insert.
    + rewrite list_fmap_insert. apply list_insert_id.
      by rewrite list_lookup_fmap, Hk.
    + intros i r Hi. destruct (decide (i = k)) as [->|Hne].
      * rewrite list_lookup_insert_eq by (by eapply lookup_lt_Some).
        assert (r = r0) as -> by congruence.
        eexists. split; [reflexivity|]. split_and!; try reflexivity.
        intros Hother. by destruct Hother.
      * rewrite list_lookup_insert_ne by done. exists r. by rewrite Hi.
  - split_and!; try done. intros i r Hi. exists r. by rewrite Hi.
  - split_and!; try done. intros i r Hi. exists r. by rewrite Hi.
Qed.

(** X3.  The last verification wins: with the mock data on, verifying a
    report a second time resolves, whatever the first decision was, and
    returns the record and leaves the repository that the second call
    alone would have given.  A decision, 'Verified' and 'Rejected'
    included, is never final. *)
Theorem verifyReport_last_wins (api : InvasiveSpeciesAPI) (id : string)
    (verifier1 status1 : string) (notes1 : option string) (now1 : string)
    (verifier2 status2 : string) (notes2 : option string) (now2 : string) :
  useMockData api = true ->
  verifyReport (snd (verifyReport api id verifier1 status1 notes1 now1))
    id verifier2 status2 notes2 now2
  = verifyReport api id verifier2 status2 notes2 now2.
Proof.
  intros Hmock. unfold verifyReport at 2 3. rewrite Hmock.
  destruct (find_report id (reports (mockData api))) as [[i r]|] eqn:Hfind.
  - unfold verifyReport. simpl. rewrite Hmock.
    rewrite (find_report_updated _ _ _ _ _ Hfind).
    unfold with_reports. simpl. by rewrite list_insert_insert_eq.
  - simpl. unfold verifyReport. by rewrite Hmock, Hfind.
Qed.

(** ** Submissions *)

Lemma createReport_reports (api : InvasiveSpeciesAPI) (reportData : ReportInput)
    (now : string) :
  reports (mockData (snd (createReport api reportData now)))
  = if useMockData api
    then (reports (mockData api)
          ++ [newReport (next_id (reports (mockData api))) now reportData])%list
    else reports (mockData api).
Proof. unfold createReport. by destruct (useMockData api). Qed.

Lemma createReport_flags (api : InvasiveSpeciesAPI) (reportData : ReportInput)
    (now : string) :
  useMockData (snd (createReport api reportData now)) = useMockData api.
Proof. unfold createReport. by destruct (useMockData api) eqn:Hmock. Qed.

(** ** Sequential ids *)

Lemma sequential_ids_lookup (l : list Report) (i j : nat) (x y : Report) :
  sequential_ids l -> l !! i = Some x -> l !! j = Some y ->
  report_id x = report_id y -> i = j.
Proof.
  intros Hseq Hi Hj Heq.
  rewrite (Hseq i x Hi), (Hseq j y Hj) in Heq.
  apply Number_toString_inj in Heq. lia.
Qed.

Lemma sequential_ids_NoDup (l : list Report) :
  sequential_ids l -> NoDup (report_id <$> l).
Proof.
  intros Hseq. apply NoDup_alt. intros i j id Hi Hj.
  rewrite list_lookup_fmap in Hi, Hj.
  destruct (l !! i) as [x|] eqn:Hx; [|done].
  destruct (l !! j) as [y|] eqn:Hy; [|done].
  simpl in Hi, Hj. eapply sequential_ids_lookup; eauto. congruence.
Qed.

Lemma sequential_ids_find (l : list Report) (i : nat) (r : Report) :
  sequential_ids l -> l !! i = Some r -> find_report (report_id r) l = Some (i, r).
Proof.
  intros Hseq Hi. apply find_report_Some. split_and!; try done.
  intros j y Hj Hlt Heq.
  pose proof (sequential_ids_lookup l j i y r Hseq Hj Hi Heq). lia.
Qed.

Lemma sequential_ids_absent (l : list Report) :
  sequential_ids l -> find_report (next_id l) l = None.
Proof.
  intros Hseq. apply find_report_None. intros r Hr Heq.
  apply list_elem_of_lookup in Hr as [i Hi].
  pose proof (lookup_lt_Some _ _ _ Hi) as Hlt.
  rewrite (Hseq i r Hi) in Heq. apply Number_toString_inj in Heq. lia.
Qed.

Lemma sequential_ids_app (l : list Report) (date : string) (reportData : ReportInput) :
  sequential_ids l -> sequential_ids (l ++ [newReport (next_id l) date reportData])%list.
Proof.
  intros Hseq i r Hi.
  apply lookup_app_Some in Hi as [Hi | [Hlen Hi]].
  - by apply Hseq.
  - apply list_lookup_singleton_Some in Hi as [Hz <-]. simpl. unfold next_id.
    f_equal. lia.
Qed.

Lemma sequential_ids_insert (l : list Report) (i : nat) (r : Report)
    (v : VerificationData) :
  sequential_ids l -> l !! i = Some r -> sequential_ids (<[i := Object_assign r v]> l).
Proof.
  intros Hseq Hi j y Hj.
  destruct (decide (j = i)) as [->|Hne].
  - rewrite list_lookup_insert_eq in Hj by (by eapply lookup_lt_Some).
    injection Hj as <-. rewrite Object_assign_id. by apply Hseq.
  - rewrite list_lookup_insert_ne in Hj by done. by apply Hseq.
Qed.

Lemma sequential_ids_call (api : InvasiveSpeciesAPI) (c : call) :
  sequential_ids (reports (mockData api)) ->
  sequential_ids (reports (mockData (apply_call api c))).
Proof.
  intros Hseq. destruct c as [reportData now | id verifier status notes now]; simpl.
  - rewrite createReport_reports. destruct (useMockData api); [|done].
    by apply sequential_ids_app.
  - rewrite verifyReport_reports.
    destruct (find_report id _) as [[i r]|] eqn:Hfind; [|done].
    destruct (useMockData api); [|done].
    apply find_report_Some in Hfind as (Hi & _).
    by apply sequential_ids_insert.
Qed.

Lemma sequential_ids_calls (cs : list call) (api : InvasiveSpeciesAPI) :
  sequential_ids (reports (mockData api)) ->
  sequential_ids (reports (mockData (apply_calls cs api))).
Proof.
  revert api. induction cs as [|c cs IH]; intros api Hseq; [done|].
  simpl. apply IH. by apply sequential_ids_call.
Qed.

Lemma sequential_ids_initial :
  sequential_ids (reports Scenario.initializeMockData).
Proof.
  intros i r Hi.
  destruct i as [|[|[|i]]]; simpl in Hi; [| | |done];
    injection Hi as <-; reflexivity.
Qed.

Lemma find_report_created (l : list Report) (date : string) (reportData : ReportInput) :
  sequential_ids l ->
  find_report (next_id l) (l ++ [newReport (next_id l) date reportData])%list
  = Some (length l, newReport (next_id l) date reportData).
Proof.
  intros Hseq. pose proof (sequential_ids_absent _ Hseq) as Habsent.
  apply find_report_Some. split_and!.
  - by rewrite lookup_app_r, Nat.sub_diag by lia.
  - reflexivity.
  - intros j y Hj Hlt. rewrite lookup_app_l in Hj by done.
    apply (proj1 (find_report_None _ _) Habsent).
    by eapply list_elem_of_lookup_2.
Qed.

(** X4.  With the mock data on, [createReport(reportData)] resolves to a
    new report that carries the properties of [reportData], the date
    [now], the id [String(n + 1)] for a repository of [n] reports, and no
    verifier.  The report is appended after the existing ones, which are
    not changed.  When the ids already there are the sequential ones, the
    new id is fresh and a following [getReportById] with it resolves to
    the new report. *)
Theorem createReport_appends (api : InvasiveSpeciesAPI) (reportData : ReportInput)
    (now : string) :
  useMockData api = true ->
  exists report api',
    createReport api reportData now = (Created report, api')
    /\ report = newReport (Number_toString
                             (Z.of_nat (length (reports (mockData api))) + 1))
                  now reportData
    /\ reports (mockData api') = (reports (mockData api) ++ [report])%list
    /\ species (mockData api') = species (mockData api)
    /\ verification_status report = in_verification_status reportData
    /\ verified_by report = None
    /\ (sequential_ids (reports (mockData api)) ->
          (forall r, r ∈ reports (mockData api) -> report_id r <> report_id report)
          /\ exists view,
               getReportById api' (report_id report) = Resolved view
               /\ data view = report).
Proof.
  intros Hmock. unfold createReport. rewrite Hmock.
  eexists _, _. split; [reflexivity|]. split_and!; try reflexivity.
  intros Hseq.
  pose proof (sequential_ids_absent _ Hseq) as Habsent.
  split.
  - exact (proj1 (find_report_None _ _) Habsent).
  - unfold getReportById. simpl. rewrite Hmock.
    fold (next_id (reports (mockData api))).
    rewrite (find_report_created _ now reportData Hseq).
    eexists. split; reflexivity.
Qed.

(** X5.  The ids stay sequential: when the report at each position [i]
    carries the id [String(i + 1)], as in the mock data the page starts
    with, this is still so after any sequence of [createReport] and
    [verifyReport] calls.  Hence no two reports ever share an id, and
    [getReportById] with the id of a stored report resolves to that very
    report. *)
Theorem sequential_ids_kept (cs : list call) (api : InvasiveSpeciesAPI) :
  useMockData api = true ->
  sequential_ids (reports (mockData api)) ->
  let api' := apply_calls cs api in
  sequential_ids (reports (mockData api'))
  /\ NoDup (report_id <$> reports (mockData api'))
  /\ (length (reports (mockData api)) <= length (reports (mockData api')))%nat
  /\ forall r, r ∈ reports (mockData api') ->
       exists view, getReportById api' (report_id r) = Resolved view /\ data view = r.
Proof.
  intros Hmock Hseq api'.
  assert (Hseq' : sequential_ids (reports (mockData api')))
    by (by apply sequential_ids_calls).
  assert (Hmock' : useMockData api' = true).
  { subst api'. clear Hseq Hseq'. revert api Hmock.
    induction cs as [|c cs IH]; intros api Hmock; [done|].
    simpl. apply IH. destruct c; simpl.
    - by rewrite createReport_flags.
    - by rewrite (proj1 (verifyReport_flags _ _ _ _ _ _)). }
  assert (Hlen : (length (reports (mockData api))
                  <= length (reports (mockData api')))%nat).
  { subst api'. clear Hseq Hseq' Hmock Hmock'. revert api.
    induction cs as [|c cs IH]; intros api; [done|].
    simpl. etransitivity; [|apply IH]. destruct c; simpl.
    - rewrite createReport_reports. destruct (useMockData api); [|done].
      rewrite length_app. lia.
    - by rewrite verifyReport_length. }
  split_and!; try done.
  - by apply sequential_ids_NoDup.
  - intros r Hr. apply list_elem_of_lookup in Hr as [i Hi].
    unfold getReportById.
    rewrite Hmock', (sequential_ids_find _ _ _ Hseq' Hi).
    eexists. split; reflexivity.
Qed.

(** ** Statistics *)

Lemma filter_length_insert {A} (P : A -> Prop) `{!forall x, Decision (P x)}
    (l : list A) (i : nat) (x y : A) :
  l !! i = Some x ->
  (length (filter P (<[i := y]> l)) + (if decide (P x) then 1 else 0)
   = length (filter P l) + (if decide (P y) then 1 else 0))%nat.
Proof.
  intros Hi.
  rewrite <- (take_drop_middle l i x Hi) at 2.
  rewrite (insert_take_drop l i y) by (by eapply lookup_lt_Some).
  rewrite !filter_app, !filter_cons, !length_app.
  destruct (decide (P x)), (decide (P y)); simpl; lia.
Qed.

(** X6.  The counters of the reports-management view follow a
    verification.  When [verifyReport] updates a report, the number of
    pending reports goes down by one if the report was pending and up by
    one if the new status is 'Pending', the number of verified reports
    moves likewise for 'Verified', and the number of high-priority
    reports does not change.  In particular verifying a pending report
    moves exactly one report from the pending to the verified count. *)
Theorem verification_moves_counters (api : InvasiveSpeciesAPI) (r : Report)
    (verifier status : string) (notes : option string) (now : string) :
  useMockData api = true ->
  r ∈ reports (mockData api) ->
  exists r0 : Report,
    (exists i, find_report (report_id r) (reports (mockData api)) = Some (i, r0))
    /\ let before := updateReportsStatistics (reports (mockData api)) in
       let after :=
         updateReportsStatistics
           (reports (mockData
              (snd (verifyReport api (report_id r) verifier status notes now)))) in
       (pending after + counts_as "Pending" r0
        = pending before + (if decide (status = "Pending") then 1 else 0))%nat
       /\ (verified after + counts_as "Verified" r0
           = verified before + (if decide (status = "Verified") then 1 else 0))%nat
       /\ highPriority after = highPriority before
       /\ (verification_status r0 = Some "Pending" -> status = "Verified" ->
             S (pending after) = pending before
             /\ verified after = S (verified before)).
Proof.
  intros Hmock Hr.
  destruct (find_report_present r _ Hr) as (i & r0 & Hfind).
  exists r0. split; [by exists i|].
  rewrite verifyReport_reports, Hfind, Hmock.
  apply find_report_Some in Hfind as (Hi & _).
  set (v := {| vd_verification_status := status; vd_verified_by := verifier;
               vd_verification_date := now;
               vd_verification_notes := default "" notes |}).
  pose proof (filter_length_insert
                (fun x => verification_status x = Some "Pending")
                _ i r0 (Object_assign r0 v) Hi) as Hp.
  pose proof (filter_length_insert
                (fun x => verification_status x = Some "Verified")
                _ i r0 (Object_assign r0 v) Hi) as Hv.
  pose proof (filter_length_insert
                (fun x => threat_assessment x = "High Risk"
                          \/ threat_assessment x = "Immediate Action Required")
                _ i r0 (Object_assign r0 v) Hi) as Hh.
  simpl in Hp, Hv, Hh. unfold counts_as. simpl.
  assert (Hsp : forall s : string,
            (if decide (Some status = Some s) then 1 else 0)%nat
            = (if decide (status = s) then 1 else 0)%nat).
  { intros s. repeat case_decide; congruence. }
  rewrite Hsp in Hp, Hv.
  split_and!.
  - exact Hp.
  - exact Hv.
  - destruct (decide (threat_assessment r0 = "High Risk"
                      \/ threat_assessment r0 = "Immediate Action Required")); lia.
  - intros Hwas ->. rewrite Hwas in Hp, Hv.
    rewrite decide_True in Hp by done.
    rewrite (decide_False (P := "Verified" = "Pending")) in Hp by done.
    rewrite (decide_False (P := Some "Pending" = Some "Verified")) in Hv by done.
    rewrite decide_True in Hv by done.
    lia.
Qed.


End ReportsFacts.

(* ================================================================== *)
(** * Verification workflow: opening, submitting and cancelling *)
(* ================================================================== *)

Module ReviewFacts.
Import JS JSFacts Permission Repository RepositoryFacts Workflow.

Lemma getReportById_present (api : InvasiveSpeciesAPI) (r : Report) :
  useMockData api = true ->
  r ∈ reports (mockData api) ->
  exists view,
    getReportById api (report_id r) = Resolved view
    /\ report_id (data view) = report_id r
    /\ data view ∈ reports (mockData api).
Proof.
  intros Hmock Hr. unfold getReportById. rewrite Hmock.
  destruct (find_report_present r _ Hr) as (i & r0 & Hfind). rewrite Hfind.
  apply find_report_Some in Hfind as (Hi & Hid & _).
  eexists. split; [reflexivity|]. simpl. split; [done|].
  by eapply list_elem_of_lookup_2.
Qed.

Lemma getReportById_absent (api : InvasiveSpeciesAPI) (id : string) :
  useMockData api = true ->
  (forall r, r ∈ reports (mockData api) -> report_id r <> id) ->
  getReportById api id = Rejected "Report not found".
Proof.
  intros Hmock Habsent. unfold getReportById. rewrite Hmock.
  by rewrite (proj2 (find_report_None _ _) Habsent).
Qed.

Lemma showVerificationModal_resolved (p : Page) (user : User) (reportId : string)
    (view : ReportData) :
  currentUser p = Some user ->
  canVerifyReports (Some user) = true ->
  getReportById (invasiveSpeciesAPI p) reportId = Resolved view ->
  showVerificationModal reportId p
  = {| currentUser := Some user;
       invasiveSpeciesAPI := invasiveSpeciesAPI p;
       modals := (modals p ++ [new_modal reportId view user])%list;
       trace := (trace p ++ [CallGetReportById reportId])%list |}.
Proof.
  intros Huser Hallowed Hget.
  unfold showVerificationModal. rewrite Huser, Hallowed.
  cbn [negb log invasiveSpeciesAPI]. rewrite Hget.
  unfold with_modals, log. cbn [currentUser invasiveSpeciesAPI modals trace].
  by rewrite Huser.
Qed.


(** X9.  For a user allowed to verify, asking for the form of a report
    that the repository does not hold (mock data on) reads the
    repository once, shows 'Failed to load report details for
    verification.' and adds no modal: a closed workflow stays closed,
    and the repository is unchanged. *)
Theorem showVerificationModal_not_found (p : Page) (reportId : string) :
  canVerifyReports (currentUser p) = true ->
  useMockData (invasiveSpeciesAPI p) = true ->
  (forall r, r ∈ reports (mockData (invasiveSpeciesAPI p)) -> report_id r <> reportId) ->
  let p' := showVerificationModal reportId p in
  trace p' = (trace p ++ [CallGetReportById reportId;
                          ShowError "Failed to load report details for verification."])%list
  /\ modals p' = modals p
  /\ (closed p -> closed p')
  /\ invasiveSpeciesAPI p' = invasiveSpeciesAPI p
  /\ currentUser p' = currentUser p.
Proof.
  intros Hallowed Hmock Habsent.
  pose proof (getReportById_absent _ reportId Hmock Habsent) as Hget.
  unfold showVerificationModal.
  destruct (currentUser p) as [user|] eqn:Huser; [|done].
  rewrite Hallowed. simpl. rewrite Hget. simpl.
  rewrite <- app_assoc, Huser. done.
Qed.

Lemma verifyReport_present (api : InvasiveSpeciesAPI) (r : Report)
    (verifier status : string) (notes : option string) (now : string) :
  useMockData api = true ->
  r ∈ reports (mockData api) ->
  exists i r0,
    find_report (report_id r) (reports (mockData api)) = Some (i, r0)
    /\ verifyReport api (report_id r) verifier status notes now
       = (Resolved (Object_assign r0
                      {| vd_verification_status := status; vd_verified_by := verifier;
                         vd_verification_date := now;
                         vd_verification_notes := default "" notes |}),
          with_reports
            (<[i := Object_assign r0
                      {| vd_verification_status := status; vd_verified_by := verifier;
                         vd_verification_date := now;
                         vd_verification_notes := default "" notes |}]>
               (reports (mockData api))) api).
Proof.
  intros Hmock Hr.
  destruct (find_report_present r _ Hr) as (i & r0 & Hfind).
  exists i, r0. split; [done|].
  unfold verifyReport. by rewrite Hmock, Hfind.
Qed.

(** X10.  With the verification form open, submitting any non-empty
    decision with a non-empty verifier name for a report of the
    repository (mock data on) goes through: [verifyReport] is called once
    with the values of the form, the first modal is removed, the success
    message names the decision in lower case, the report list is
    refreshed, and a following [getReportById] shows the decision, the
    verifier name of the form, the time stamp and the notes.  The
    decision is not checked against the three statuses of the form. *)
Theorem submit_applies_decision (now decision notes : string) (p : Page)
    (form : Modal) (others : list Modal) (r : Report) :
  modals p = form :: others ->
  decision <> "" ->
  verifier_name_value form <> "" ->
  useMockData (invasiveSpeciesAPI p) = true ->
  r ∈ reports (mockData (invasiveSpeciesAPI p)) ->
  exists view,
    let p' := submit now (report_id r) decision notes p in
    modals p' = others
    /\ trace p'
       = (trace p ++
          [PreventDefault; ShowLoading;
           CallVerifyReport (report_id r) (verifier_name_value form) decision notes;
           ShowSuccess ("Report " ++ substring0 8 (report_id r) ++ " has been "
                        ++ toLowerCase decision ++ "!");
           LoadRecentReports; HideLoading])%list
    /\ invasiveSpeciesAPI p'
       = snd (verifyReport (invasiveSpeciesAPI p) (report_id r)
                (verifier_name_value form) decision (Some notes) now)
    /\ getReportById (invasiveSpeciesAPI p') (report_id r) = Resolved view
    /\ report_id (data view) = report_id r
    /\ verification_status (data view) = Some decision
    /\ verified_by (data view) = Some (verifier_name_value form)
    /\ verification_date (data view) = Some now
    /\ verification_notes (data view) = Some notes
    /\ currentUser p' = currentUser p.
Proof.
  intros Hopen Hdecision Hverifier Hmock Hr.
  destruct (verifyReport_present _ r (verifier_name_value form) decision
              (Some notes) now Hmock Hr) as (i & r0 & Hfind & Hverify).
  pose proof Hfind as (_ & Hid & _)%find_report_Some.
  pose proof (proj2 (truthy_Some decision) Hdecision) as Hd.
  pose proof (proj2 (truthy_Some _) Hverifier) as Hv. simpl in Hd, Hv.
  unfold submit, submitVerification, fill_form. rewrite Hopen. simpl.
  rewrite Hd, Hv. simpl. rewrite Hverify. simpl.
  eexists. split_and!.
  4: { unfold getReportById. simpl. rewrite Hmock.
       rewrite (find_report_updated _ _ _ _ _ Hfind). reflexivity. }
  all: try done.
  by rewrite <- !app_assoc.
Qed.

(** X11.  With the verification form open and valid input, submitting
    for a report that the repository does not hold (mock data on) fails
    at the repository: [verifyReport] is called and rejected, 'Failed to
    submit verification. Please try again.' is shown, the loading
    indicator is hidden, the modal stays in the document with the input
    as typed, and the repository is unchanged. *)
Theorem submit_repository_failure (now reportId decision notes : string) (p : Page)
    (form : Modal) (others : list Modal) :
  modals p = form :: others ->
  decision <> "" ->
  verifier_name_value form <> "" ->
  useMockData (invasiveSpeciesAPI p) = true ->
  (forall r, r ∈ reports (mockData (invasiveSpeciesAPI p)) -> report_id r <> reportId) ->
  let p' := submit now reportId decision notes p in
  modals p' = modals (fill_form decision notes p)
  /\ length (modals p') = length (modals p)
  /\ trace p'
     = (trace p ++
        [PreventDefault; ShowLoading;
         CallVerifyReport reportId (verifier_name_value form) decision notes;
         ShowError "Failed to submit verification. Please try again.";
         HideLoading])%list
  /\ invasiveSpeciesAPI p' = invasiveSpeciesAPI p.
Proof.
  intros Hopen Hdecision Hverifier Hmock Habsent p'. subst p'.
  pose proof (proj2 (truthy_Some decision) Hdecision) as Hd.
  pose proof (proj2 (truthy_Some _) Hverifier) as Hv. simpl in Hd, Hv.
  unfold submit, submitVerification, fill_form. rewrite Hopen. simpl.
  rewrite Hd, Hv. simpl.
  unfold verifyReport. rewrite Hmock.
  rewrite (proj2 (find_report_None _ _) Habsent). simpl.
  split_and!; try done.
  by rewrite <- !app_assoc.
Qed.

(** X12.  Cancelling has no side effect.  [closeVerificationModal()]
    leaves the repository, the current user and the messages shown as
    they were, and does nothing to a document without a modal.  On a
    closed page, opening the form of a report, typing a decision and
    notes and cancelling gives a closed page again with the repository
    unchanged, and opening the form once more presents it as new: the
    input typed before is gone. *)
Theorem cancel_discards_input (p : Page) (user : User) (r : Report)
    (decision notes : string) :
  closed p ->
  currentUser p = Some user ->
  canVerifyReports (Some user) = true ->
  useMockData (invasiveSpeciesAPI p) = true ->
  r ∈ reports (mockData (invasiveSpeciesAPI p)) ->
  let opened := showVerificationModal (report_id r) p in
  let cancelled := closeVerificationModal (fill_form decision notes opened) in
  closeVerificationModal p = p
  /\ (exists form, modals opened = [form])
  /\ (exists form,
        modals (fill_form decision notes opened) = [form]
        /\ verification_status_value form = decision
        /\ verification_notes_value form = notes)
  /\ closed cancelled
  /\ invasiveSpeciesAPI cancelled = invasiveSpeciesAPI p
  /\ currentUser cancelled = currentUser p
  /\ trace cancelled = trace opened
  /\ modals (showVerificationModal (report_id r) cancelled) = modals opened.
Proof.
  intros Hclosed Huser Hallowed Hmock Hr. unfold closed in Hclosed.
  destruct (getReportById_present _ r Hmock Hr) as (view & Hget & _).
  intros opened cancelled. subst opened cancelled.
  rewrite (showVerificationModal_resolved p user _ view Huser Hallowed Hget).
  rewrite Hclosed.
  unfold closeVerificationModal, fill_form, closed, with_modals.
  cbn [currentUser invasiveSpeciesAPI modals trace app tail].
  split_and!.
  - destruct p as [? ? ms ?]. simpl in *. by subst ms.
  - by eexists.
  - by eexists.
  - done.
  - done.
  - done.
  - done.
  - by erewrite (showVerificationModal_resolved _ user _ view) by done.
Qed.

End ReviewFacts.

(* ================================================================== *)
(** * Session life cycle: properties *)
(* ================================================================== *)

Module LifecycleFacts.
Import JS JSFacts Permission SessionStore SessionFacts Lifecycle.

(** ** What the session store does not assign *)

Section Frame.
Context {S : Type} `{Storage S} `{JSON}.
Variable env : Env.

Lemma keeps_users_ret {A} (a : A) : keeps_users (ret (S := S) a).
Proof. by intros w. Qed.

Lemma keeps_users_throw {A} : keeps_users (throw (S := S) (A := A)).
Proof. by intros w. Qed.

Lemma keeps_users_bind {A B} (c : M S A) (k : A -> M S B) :
  keeps_users c -> (forall a, keeps_users (k a)) -> keeps_users (bind c k).
Proof.
  intros Hc Hk w. unfold bind. specialize (Hc w).
  destruct (c w) as [[a|] w1]; simpl in *; [|done].
  destruct (Hk a w1) as (-> & ->). done.
Qed.

Lemma keeps_users_try_catch {A} (c handler : M S A) :
  keeps_users c -> keeps_users handler -> keeps_users (try_catch c handler).
Proof.
  intros Hc Hh w. unfold try_catch. specialize (Hc w).
  destruct (c w) as [[a|] w1]; simpl in *; [done|].
  destruct (Hh w1) as (-> & ->). done.
Qed.

Lemma keeps_users_getItem (k : string) : keeps_users (localStorage_getItem k).
Proof. intros w. unfold localStorage_getItem. by destruct (getItem k _). Qed.

Lemma keeps_users_setItem (k v : string) : keeps_users (localStorage_setItem k v).
Proof. intros w. unfold localStorage_setItem. by destruct (setItem k v _). Qed.

Lemma keeps_users_removeItem (k : string) : keeps_users (localStorage_removeItem k).
Proof. intros w. unfold localStorage_removeItem. by destruct (removeItem k _). Qed.

Lemma keeps_users_parse {A} (parse : string -> option A) (text : string) :
  keeps_users (JSON_parse (S := S) parse text).
Proof. intros w. unfold JSON_parse. by destruct (parse text). Qed.

Lemma keeps_users_generateId : keeps_users (S := S) (call_generateId env).
Proof. by intros w. Qed.

Lemma keeps_users_emit (e : Effect) : keeps_users (S := S) (emit e).
Proof. by intros w. Qed.

Lemma keeps_users_get : keeps_users (S := S) get_currentUser.
Proof. by intros w. Qed.

Lemma keeps_users_run {A} (fallback : A) (c : M S A) (w : World S) :
  keeps_users c ->
  currentUser (snd (run fallback c w)) = currentUser w
  /\ api_currentUser (snd (run fallback c w)) = api_currentUser w.
Proof.
  intros Hc. unfold run. specialize (Hc w). by destruct (c w) as [[a|] w1].
Qed.

Ltac keeps :=
  repeat match goal with
  | |- forall _, keeps_users _ => intro
  | |- keeps_users (if ?b then _ else _) => destruct b
  | |- keeps_users (match ?x with Some _ => _ | None => _ end) => destruct x
  | |- keeps_users _ =>
      first
        [ apply keeps_users_ret
        | apply keeps_users_throw
        | apply keeps_users_getItem
        | apply keeps_users_setItem
        | apply keeps_users_removeItem
        | apply keeps_users_parse
        | apply keeps_users_generateId
        | apply keeps_users_emit
        | apply keeps_users_get
        | apply keeps_users_try_catch
        | apply keeps_users_bind ]
  end.

Lemma keeps_users_read_log : keeps_users read_activity_log.
Proof. unfold read_activity_log. keeps. Qed.

Lemma keeps_users_trackUserLogin (user : User) (time : Z) :
  keeps_users (trackUserLogin env user time).
Proof. unfold trackUserLogin. keeps; apply keeps_users_read_log. Qed.

Lemma keeps_users_trackUserLogout (user : User) (time : Z) :
  keeps_users (trackUserLogout user time).
Proof. unfold trackUserLogout. keeps; apply keeps_users_read_log. Qed.

Lemma keeps_users_clearUserSession (time : Z) : keeps_users (clearUserSession time).
Proof. unfold clearUserSession. keeps; apply keeps_users_trackUserLogout. Qed.

Lemma saveUserSession_users (now : Z) (user : User) (w : World S) :
  currentUser (snd (saveUserSession env now user w)) = currentUser w
  /\ api_currentUser (snd (saveUserSession env now user w)) = api_currentUser w.
Proof.
  unfold saveUserSession. apply keeps_users_run.
  keeps; apply keeps_users_trackUserLogin.
Qed.

End Frame.

(** ** Activity events on any medium *)

Section AnyMedium.
Context {S : Type} `{Storage S}.

Lemma on_activity_steady (now lastActivity : Z) (w : World S) :
  now - lastActivity <= 30 * 60 * 1000 ->
  on_activity now lastActivity w = (Return now, w).
Proof.
  intros Hgap. unfold on_activity, bind, get_currentUser.
  destruct (currentUser w); [|done].
  by rewrite (proj2 (Z.ltb_ge _ _) Hgap).
Qed.

Lemma on_activity_logged_out (now lastActivity : Z) (w : World S) :
  currentUser w = None ->
  on_activity now lastActivity w = (Return now, w).
Proof.
  intros Hnone. unfold on_activity, bind, get_currentUser. by rewrite Hnone.
Qed.

Lemma activity_unchanged (times : list Z) (lastActivity : Z) (w : World S) :
  steady lastActivity times = true \/ currentUser w = None ->
  activity times lastActivity w = (Return (default lastActivity (last times)), w).
Proof.
  revert lastActivity. induction times as [|now later IH]; intros lastActivity Hs.
  - reflexivity.
  - assert (Hstep : on_activity now lastActivity w = (Return now, w)).
    { destruct Hs as [Hs|Hnone].
      - apply andb_prop in Hs as (Hgap%Z.leb_le & _).
        by apply on_activity_steady.
      - by apply on_activity_logged_out. }
    change (activity (now :: later) lastActivity w)
      with (bind (on_activity now lastActivity)
              (fun last => activity later last) w).
    unfold bind. rewrite Hstep. rewrite IH.
    + rewrite last_cons. by destruct (last later).
    + destruct Hs as [Hs|Hnone]; [left|by right].
      by apply andb_prop in Hs as (_ & Hs).
Qed.

(** X13.  Continuous activity never refreshes the session.  When every
    activity event comes at most thirty minutes after the one before it,
    the listener of [setupSessionRefresh] only moves [lastActivity]
    along: whatever the medium and whoever is logged in, the events
    return normally, the last of them is remembered, and the store and
    the rest of the state are exactly as before, after any number of
    such events.  The same holds for any events while nobody is logged
    in. *)
Theorem steady_activity_never_refreshes (times : list Z) (lastActivity : Z)
    (w : World S) :
  steady lastActivity times = true \/ currentUser w = None ->
  fst (activity times lastActivity w) = Return (default lastActivity (last times))
  /\ snd (activity times lastActivity w) = w
  /\ localStorage (snd (activity times lastActivity w)) = localStorage w.
Proof.
  intros Hs. by rewrite (activity_unchanged times lastActivity w Hs).
Qed.

End AnyMedium.

(** ** On a reliable store *)

Section Reliable.
Context `{JSON}.
Variable env : Env.

Local Abbreviation world := (World (gmap string string)).

Lemma refreshUserSession_eq (now : Z) (w : world) :
  refreshUserSession now w
  = (Return tt,
     match currentUser w with
     | Some _ =>
         with_storage
           (<["ipsms_session_expiry" := Number_toString (now + session_lifetime)]>
              (localStorage w)) w
     | None => w
     end).
Proof.
  unfold refreshUserSession, bind, get_currentUser, try_catch.
  by destruct (currentUser w).
Qed.

Lemma logout_eq (now : Z) (w : world) :
  logout now w
  = (Return logout_actions,
     with_storage (session_cleared (localStorage w)) (with_users None None w)).
Proof.
  unfold logout, bind. rewrite clearUserSession_eq. reflexivity.
Qed.

(** [checkExistingLogin], case by case. *)
Lemma checkExistingLogin_cases (now : Z) (w : world) :
  checkExistingLogin now w
  = let savedUser := localStorage w !! "ipsms_user" in
    let sessionExpiry := localStorage w !! "ipsms_session_expiry" in
    let ask_login (w : world) :=
      {| localStorage := localStorage w; currentUser := currentUser w;
         api_currentUser := api_currentUser w; id_calls := id_calls w;
         effects := (effects w ++ [ScheduleLoginScreen])%list |} in
    let cleared :=
      ask_login (with_storage (session_cleared (logout_tracked now w)) w) in
    if truthy savedUser then
      match JSON_parse_user (default "" savedUser) with
      | Some user =>
          if truthy sessionExpiry then
            if lt_num now (parseInt (default "" sessionExpiry)) then
              (true,
               {| localStorage := localStorage w; currentUser := Some user;
                  api_currentUser := Some user; id_calls := id_calls w;
                  effects := (effects w ++ [ScheduleRestoreSession user])%list |})
            else (false, cleared)
          else (false, ask_login w)
      | None => (false, cleared)
      end
    else (false, ask_login w).
Proof.
  unfold checkExistingLogin, run, try_catch, bind, localStorage_getItem, JSON_parse.
  simpl.
  destruct (truthy (localStorage w !! "ipsms_user")); simpl; [|done].
  destruct (JSON_parse_user _) as [user|]; simpl.
  - destruct (truthy (localStorage w !! "ipsms_session_expiry")); simpl; [|done].
    destruct (lt_num now _); simpl; [done|].
    by rewrite clearUserSession_eq.
  - by rewrite clearUserSession_eq.
Qed.



(** X16.  [logout()] forgets the session and does not record the
    logout.  On a reliable store it returns normally, sets the current
    user of the page and of the API object to [null], and removes the
    user, expiry and login-time keys, so that no session is stored and
    [checkExistingLogin()] answers false at any later time.  Every other
    key is left as it was, the activity log included: because
    [currentUser] is set to [null] before [clearUserSession()] runs,
    [trackUserLogout] is not called and the entries that were active
    stay active. *)
Theorem logout_forgets_session (now : Z) (w : world) :
  let w' := snd (logout now w) in
  fst (logout now w) = Return logout_actions
  /\ currentUser w' = None
  /\ api_currentUser w' = None
  /\ localStorage w' !! "ipsms_user" = None
  /\ localStorage w' !! "ipsms_session_expiry" = None
  /\ localStorage w' !! "ipsms_login_time" = None
  /\ stored_session (localStorage w') = None
  /\ (forall k, k <> "ipsms_user" -> k <> "ipsms_session_expiry" ->
                k <> "ipsms_login_time" ->
                localStorage w' !! k = localStorage w !! k)
  /\ localStorage w' !! "ipsms_user_activity_log"
     = localStorage w !! "ipsms_user_activity_log"
  /\ activity_log w' = activity_log w
  /\ (forall t, fst (checkExistingLogin t w') = false
                /\ localStorage (snd (checkExistingLogin t w')) = localStorage w').
Proof.
  rewrite logout_eq. cbv zeta. cbn [fst snd].
  pose proof (session_cleared_keys (localStorage w)) as (Hk1 & Hk2 & Hk3).
  assert (Hother : forall k, k <> "ipsms_user" -> k <> "ipsms_session_expiry" ->
                             k <> "ipsms_login_time" ->
                             session_cleared (localStorage w) !! k = localStorage w !! k).
  { intros k H1 H2 H3. rewrite session_cleared_lookup.
    rewrite bool_decide_eq_false_2; [done|].
    rewrite !elem_of_cons, elem_of_nil. intuition congruence. }
  split_and!; try done.
  - apply stored_session_cleared.
  - by apply Hother.
  - unfold activity_log. simpl. by rewrite Hother.
  - intros t. rewrite checkExistingLogin_cases. cbv zeta. simpl. by rewrite Hk1.
Qed.

Lemma check_session_eq (now : Z) (w : world) :
  check_session now w
  = match currentUser w with
    | Some _ =>
        if truthy (localStorage w !! "ipsms_session_expiry")
           && ge_num now (parseInt (default "" (localStorage w !! "ipsms_session_expiry")))
        then (Return (ShowError "Your session has expired. Please log in again."
                      :: logout_actions),
              with_storage (session_cleared (localStorage w)) (with_users None None w))
        else (Return [], w)
    | None => (Return [], w)
    end.
Proof.
  unfold check_session, bind, get_currentUser, localStorage_getItem.
  cbn [getItem reliable_storage].
  destruct (currentUser w); [|done].
  destruct (truthy _); [|done].
  destruct (ge_num now _); [|done].
  by rewrite logout_eq.
Qed.

(** X17.  The periodic check of [setupSessionRefresh] on a reliable
    store.  With nobody logged in, with no expiry in the store, or with
    an expiry that does not read as a number, it does nothing: a session
    without a readable expiry is never ended by the check.  With a user
    logged in and an expiry that reads as [e], it does nothing while the
    clock is before [e]; from [e] on it shows 'Your session has expired.
    Please log in again.' and logs out, after which nobody is logged in
    and no session is stored. *)
Theorem check_session_expiry (now : Z) (w : world) :
  (currentUser w = None
   \/ truthy (localStorage w !! "ipsms_session_expiry") = false
   \/ (exists text, localStorage w !! "ipsms_session_expiry" = Some text
                    /\ parseInt text = None) ->
   check_session now w = (Return [], w))
  /\ (forall user text e,
        currentUser w = Some user ->
        localStorage w !! "ipsms_session_expiry" = Some text ->
        parseInt text = Some e ->
        (now < e -> check_session now w = (Return [], w))
        /\ (e <= now ->
              check_session now w
              = (Return (ShowError "Your session has expired. Please log in again."
                         :: logout_actions),
                 snd (logout now w))
              /\ currentUser (snd (check_session now w)) = None
              /\ api_currentUser (snd (check_session now w)) = None
              /\ stored_session (localStorage (snd (check_session now w))) = None)).
Proof.
  rewrite logout_eq, check_session_eq. cbn [snd].
  split.
  - intros [Hnone | [Hfalsy | (text & He & Hparse)]].
    + by rewrite Hnone.
    + rewrite Hfalsy. by destruct (currentUser w).
    + rewrite He. change (default "" (Some text)) with text.
      rewrite Hparse. cbn [ge_num].
      rewrite andb_false_r. by destruct (currentUser w).
  - intros user text e Hu He Hparse. rewrite Hu, He.
    change (default "" (Some text)) with text.
    assert (Ht : truthy (Some text) = true).
    { apply truthy_Some. intros ->. done. }
    rewrite Ht, Hparse. cbn [ge_num andb]. split.
    + intros Hlt. by rewrite (proj2 (Z.leb_gt _ _) Hlt).
    + intros Hle. rewrite (proj2 (Z.leb_le _ _) Hle).
      cbn [fst snd]. split_and!; try done.
      apply stored_session_cleared.
Qed.

End Reliable.

(** ** Refreshing, on a reliable store with a lawful codec *)

Section ReliableLaws.
Context `{JSON} `{!JSONLaws}.
Variable env : Env.

Local Abbreviation world := (World (gmap string string)).

Lemma checkExistingLogin_stored (now expiry : Z) (user : User) (w : world) :
  localStorage w !! "ipsms_user" = Some (JSON_stringify_user user) ->
  localStorage w !! "ipsms_session_expiry" = Some (Number_toString expiry) ->
  fst (checkExistingLogin now w) = bool_decide (now < expiry).
Proof.
  intros Hu He. case_bool_decide as Hlt.
  - by rewrite (checkExistingLogin_valid _ _ _ _ Hu He Hlt).
  - rewrite (checkExistingLogin_expired now expiry user w Hu He) by lia. done.
Qed.

Lemma stored_session_refreshed (s : gmap string string) (user : User) (t0 e : Z) :
  s !! "ipsms_user" = Some (JSON_stringify_user user) ->
  s !! "ipsms_login_time" = Some (Number_toString t0) ->
  stored_session (<["ipsms_session_expiry" := Number_toString e]> s)
  = Some {| session_user := user; issuedAt := t0; expiresAt := e |}.
Proof.
  intros Hu Hl. unfold stored_session.
  rewrite (lookup_insert_ne s "ipsms_session_expiry" "ipsms_user") by done.
  rewrite (lookup_insert_ne s "ipsms_session_expiry" "ipsms_login_time") by done.
  rewrite lookup_insert_eq, Hu, Hl. simpl.
  rewrite parse_stringify_user. simpl. by rewrite !parseInt_toString.
Qed.

(** X18.  [refreshUserSession()] moves the expiry and nothing else.
    After [saveUserSession(u)] at time [t0], with somebody logged in, a
    refresh at time [t1] returns normally and rewrites the expiry key
    only: the stored session is then [{u, issuedAt = t0, expiresAt = t1
    + 24h}], so [expiresAt] is no longer [issuedAt + 24h], and
    [checkExistingLogin()] restores [u] exactly at the times before [t1
    + 24h].  With nobody logged in a refresh does nothing at all. *)
Theorem refresh_moves_expiry (user : User) (t0 t1 : Z) (w0 : world) :
  storage_defined env = true ->
  is_Some (currentUser w0) ->
  let w1 := snd (saveUserSession env t0 user w0) in
  let w2 := snd (refreshUserSession t1 w1) in
  fst (refreshUserSession t1 w1) = Return tt
  /\ stored_session (localStorage w2)
     = Some {| session_user := user; issuedAt := t0;
               expiresAt := t1 + session_lifetime |}
  /\ (forall k, k <> "ipsms_session_expiry" ->
                localStorage w2 !! k = localStorage w1 !! k)
  /\ currentUser w2 = currentUser w0
  /\ (forall t, fst (checkExistingLogin t w2) = true <-> t < t1 + session_lifetime)
  /\ (forall w : world, currentUser w = None ->
                        refreshUserSession t1 w = (Return tt, w)).
Proof.
  intros Hdefined [u Hu] w1 w2. subst w1 w2.
  rewrite (saveUserSession_reliable env t0 user w0 Hdefined). cbn [snd].
  rewrite refreshUserSession_eq. cbn [fst snd].
  assert (Hcur : currentUser (saved_world env t0 user w0) = Some u).
  { unfold saved_world. by destruct (activity_log w0). }
  rewrite Hcur. cbn [localStorage with_storage currentUser].
  destruct (session_saved_lookup env t0 user (localStorage w0)) as (Hsu & Hse & Hsl & _).
  assert (Huser : localStorage (saved_world env t0 user w0) !! "ipsms_user"
                  = Some (JSON_stringify_user user))
    by (by rewrite saved_world_lookup).
  assert (Hlogin : localStorage (saved_world env t0 user w0) !! "ipsms_login_time"
                   = Some (Number_toString t0))
    by (by rewrite saved_world_lookup).
  split_and!.
  - done.
  - by apply stored_session_refreshed.
  - intros k Hk. by rewrite lookup_insert_ne.
  - congruence.
  - intros t.
    rewrite (checkExistingLogin_stored t (t1 + session_lifetime) user).
    + apply bool_decide_eq_true.
    + simpl. by rewrite lookup_insert_ne.
    + simpl. by rewrite lookup_insert_eq.
  - intros w Hnone. by rewrite refreshUserSession_eq, Hnone.
Qed.

(** X19.  An activity event after a pause refreshes the session.  With
    somebody logged in and a session saved at [t0], an activity event
    more than thirty minutes after the last one sets the expiry to 24
    hours after the event, remembers the event as the last activity and
    changes no other key; an event at most thirty minutes after the last
    one leaves the expiry where it was. *)
Theorem activity_after_pause_refreshes (user : User) (t0 now lastActivity : Z)
    (w0 : world) :
  storage_defined env = true ->
  is_Some (currentUser w0) ->
  let w1 := snd (saveUserSession env t0 user w0) in
  let w2 := snd (on_activity now lastActivity w1) in
  fst (on_activity now lastActivity w1) = Return now
  /\ (30 * 60 * 1000 < now - lastActivity ->
        stored_session (localStorage w2)
        = Some {| session_user := user; issuedAt := t0;
                  expiresAt := now + session_lifetime |}
        /\ forall k, k <> "ipsms_session_expiry" ->
                     localStorage w2 !! k = localStorage w1 !! k)
  /\ (now - lastActivity <= 30 * 60 * 1000 ->
        w2 = w1
        /\ stored_session (localStorage w2)
           = Some {| session_user := user; issuedAt := t0;
                     expiresAt := t0 + session_lifetime |}).
Proof.
  intros Hdefined [u Hu] w1 w2. subst w1 w2.
  rewrite (saveUserSession_reliable env t0 user w0 Hdefined). cbn [snd].
  assert (Hcur : currentUser (saved_world env t0 user w0) = Some u).
  { unfold saved_world. by destruct (activity_log w0). }
  destruct (session_saved_lookup env t0 user (localStorage w0)) as (Hsu & Hse & Hsl & _).
  assert (Huser : localStorage (saved_world env t0 user w0) !! "ipsms_user"
                  = Some (JSON_stringify_user user))
    by (by rewrite saved_world_lookup).
  assert (Hlogin : localStorage (saved_world env t0 user w0) !! "ipsms_login_time"
                   = Some (Number_toString t0))
    by (by rewrite saved_world_lookup).
  unfold on_activity, bind, get_currentUser. rewrite Hcur.
  split_and!.
  - destruct (Z.ltb _ _); [|done]. by rewrite refreshUserSession_eq.
  - intros Hgap. rewrite (proj2 (Z.ltb_lt _ _) Hgap).
    rewrite refreshUserSession_eq, Hcur. cbn [fst snd localStorage with_storage].
    split.
    + by apply stored_session_refreshed.
    + intros k Hk. unfold ret. cbn [snd localStorage with_storage].
      by rewrite lookup_insert_ne.
  - intros Hgap. rewrite (proj2 (Z.ltb_ge _ _) Hgap). cbn [fst snd].
    split; [done|]. by apply stored_session_saved.
Qed.

(** X20.  A session ends 24 hours after the login however active the
    user is.  After [saveUserSession(u)] at time [t0], with somebody
    logged in, activity events that are never more than thirty minutes
    apart leave the stored expiry at [t0 + 24h]; the periodic check then
    logs the user out at any time from [t0 + 24h] on. *)
Theorem session_expires_despite_activity (user : User) (t0 now : Z)
    (times : list Z) (w0 : world) :
  storage_defined env = true ->
  is_Some (currentUser w0) ->
  steady t0 times = true ->
  t0 + session_lifetime <= now ->
  let w1 := snd (saveUserSession env t0 user w0) in
  let w2 := snd (activity times t0 w1) in
  w2 = w1
  /\ stored_session (localStorage w2)
     = Some {| session_user := user; issuedAt := t0;
               expiresAt := t0 + session_lifetime |}
  /\ fst (check_session now w2)
     = Return (ShowError "Your session has expired. Please log in again."
               :: logout_actions)
  /\ currentUser (snd (check_session now w2)) = None
  /\ stored_session (localStorage (snd (check_session now w2))) = None.
Proof.
  intros Hdefined [u Hu] Hsteady Hlate w1 w2. subst w1 w2.
  rewrite (activity_unchanged times t0 _ (or_introl Hsteady)). cbn [snd].
  rewrite (saveUserSession_reliable env t0 user w0 Hdefined). cbn [snd].
  assert (Hcur : currentUser (saved_world env t0 user w0) = Some u).
  { unfold saved_world. by destruct (activity_log w0). }
  destruct (session_saved_lookup env t0 user (localStorage w0)) as (_ & Hse & _).
  assert (Hexp : localStorage (saved_world env t0 user w0) !! "ipsms_session_expiry"
                 = Some (Number_toString (t0 + session_lifetime)))
    by (by rewrite saved_world_lookup).
  split; [done|]. split; [by apply stored_session_saved|].
  rewrite check_session_eq, Hcur, Hexp.
  rewrite truthy_toString.
  change (default "" (Some ?x)) with x. rewrite parseInt_toString.
  cbn [ge_num andb]. rewrite (proj2 (Z.leb_le _ _) Hlate).
  cbn [fst snd]. split_and!; try done.
  apply stored_session_cleared.
Qed.

End ReliableLaws.

(** ** Logging in *)

Section Login.
Context {S : Type} `{Storage S} `{JSON}.
Variable env : Env.

Lemma authenticateUser_existing (email name userType : string)
    (table : UserTable) (w : World S) (user : User) (others : list User) :
  useMockData table = true ->
  users table = user :: others ->
  authenticateUser email name userType table w
  = (Some (Existing user), table, with_users (currentUser w) (Some user) w).
Proof.
  intros Hmock Husers. unfold authenticateUser. by rewrite Hmock, Husers.
Qed.

(** X21.  Whoever logs in gets the first user of the table.  With the
    mock data on and a user table that is not empty, as the one the page
    starts with, [handleLogin] makes the first user of the table the
    current user of the page and of the API object, whatever email, name
    and user type were typed; it greets that user and shows the
    dashboard.  The table is not changed, so this holds for every later
    login too.  It does not depend on the medium: when
    [saveUserSession] fails the user is logged in all the same. *)
Theorem handleLogin_first_user (now : Z) (email name userType : string)
    (table : UserTable) (w : World S) (user : User) (others : list User) :
  useMockData table = true ->
  users table = user :: others ->
  exists w',
    handleLogin env now email name userType table w
    = ([PreventDefault; ShowLoading;
        ShowSuccess ("Welcome, " ++ template (full_name user) ++ "!");
        HideLoginScreen; ShowMainContent; UpdateLoginState user;
        ShowSection "dashboard"; HideLoading],
       table, w')
    /\ w' = snd (saveUserSession env now user (with_users (Some user) (Some user) w))
    /\ currentUser w' = Some user
    /\ api_currentUser w' = Some user
    /\ canVerifyReports (currentUser w') = canVerifyReports (Some user)
    /\ isAdminUser (currentUser w') = isAdminUser (Some user).
Proof.
  intros Hmock Husers. unfold handleLogin.
  rewrite (authenticateUser_existing _ _ _ _ _ user others Hmock Husers).
  cbn [as_user]. eexists. split; [reflexivity|].
  change (with_users (Some user)
            (api_currentUser (with_users (currentUser w) (Some user) w))
            (with_users (currentUser w) (Some user) w))
    with (with_users (Some user) (Some user) w).
  destruct (saveUserSession_users env now user
              (with_users (Some user) (Some user) w)) as (Hcur & Hapi).
  rewrite Hcur, Hapi. done.
Qed.

(** X22.  The first registration logs in an object without properties.
    With the mock data on and an empty user table, [handleLogin] stores a
    new user with id ['1'], the typed name, email and user type, and the
    email prefix as username; but the current user becomes the answer of
    [createUser], a wrapper around that user: its [full_name] and
    [user_type] read as [undefined], so the greeting is 'Welcome,
    undefined!' and the user may neither verify reports nor use the admin
    view, whatever user type was chosen.  The next login finds the
    stored user. *)
Theorem first_registration_reads_undefined (now : Z) (email name userType : string)
    (table : UserTable) (w : World S) :
  useMockData table = true ->
  users table = [] ->
  exists shown table' w',
    handleLogin env now email name userType table w = (shown, table', w')
    /\ users table' = [newUser "1" email name userType]
    /\ useMockData table' = true
    /\ In (ShowSuccess "Welcome, undefined!") shown
    /\ (exists current,
          currentUser w' = Some current
          /\ api_currentUser w' = Some current
          /\ full_name current = None
          /\ user_type current = None)
    /\ canVerifyReports (currentUser w') = false
    /\ isAdminUser (currentUser w') = false
    /\ forall email2 name2 userType2 (w2 : World S),
         fst (fst (authenticateUser email2 name2 userType2 table' w2))
         = Some (Existing (newUser "1" email name userType)).
Proof.
  intros Hmock Husers. unfold handleLogin, authenticateUser.
  rewrite Hmock, Husers. cbn [as_user full_name template length].
  set (blank := {| user_id := None; username := None; full_name := None;
                   email := None; user_type := None |}).
  change (with_users (Some blank)
            (api_currentUser (with_users (currentUser w) (Some blank) w))
            (with_users (currentUser w) (Some blank) w))
    with (with_users (Some blank) (Some blank) w).
  destruct (saveUserSession_users env now blank
              (with_users (Some blank) (Some blank) w)) as (Hcur & Hapi).
  eexists _, _, _. split; [reflexivity|].
  rewrite Hcur. cbn [users useMockData].
  split_and!.
  - reflexivity.
  - done.
  - simpl. tauto.
  - exists blank. by rewrite Hapi.
  - reflexivity.
  - reflexivity.
  - intros email2 name2 userType2 w2. reflexivity.
Qed.

Lemma handleLogin_world (now : Z) (email name userType : string)
    (table : UserTable) (w : World S) (user : User) (others : list User) :
  useMockData table = true ->
  users table = user :: others ->
  snd (handleLogin env now email name userType table w)
  = snd (saveUserSession env now user (with_users (Some user) (Some user) w)).
Proof.
  intros Hmock Husers. unfold handleLogin.
  by rewrite (authenticateUser_existing _ _ _ _ _ user others Hmock Husers).
Qed.

End Login.

(** ** Logging in and out on a reliable store *)

Section LoginReliable.
Context `{JSON} `{!JSONLaws}.
Variable env : Env.

Local Abbreviation world := (World (gmap string string)).

Lemma handleLogin_saved (now : Z) (email name userType : string)
    (table : UserTable) (w : world) (user : User) (others : list User) :
  storage_defined env = true ->
  useMockData table = true ->
  users table = user :: others ->
  snd (handleLogin env now email name userType table w)
  = saved_world env now user (with_users (Some user) (Some user) w).
Proof.
  intros Hdefined Hmock Husers.
  rewrite (handleLogin_world env now _ _ _ _ _ user others Hmock Husers).
  by rewrite (saveUserSession_reliable env now user _ Hdefined).
Qed.

(** X23.  A login survives a reload for 24 hours.  On a reliable store,
    with the mock data on and a user table that is not empty,
    [handleLogin] at time [now] stores the session of the first user of
    the table with [expiresAt = now + 24h]; after a reload (same store,
    any other state), [checkExistingLogin()] makes that user the current
    user again at any time before [now + 24h], and from then on answers
    false and leaves no session in the store. *)
Theorem login_survives_reload (now t : Z) (email name userType : string)
    (table : UserTable) (w reloaded : world) (user : User) (others : list User) :
  storage_defined env = true ->
  useMockData table = true ->
  users table = user :: others ->
  localStorage reloaded
  = localStorage (snd (handleLogin env now email name userType table w)) ->
  stored_session (localStorage reloaded)
  = Some {| session_user := user; issuedAt := now;
            expiresAt := now + session_lifetime |}
  /\ (t < now + session_lifetime ->
        fst (checkExistingLogin t reloaded) = true
        /\ currentUser (snd (checkExistingLogin t reloaded)) = Some user
        /\ api_currentUser (snd (checkExistingLogin t reloaded)) = Some user
        /\ localStorage (snd (checkExistingLogin t reloaded)) = localStorage reloaded)
  /\ (now + session_lifetime <= t ->
        fst (checkExistingLogin t reloaded) = false
        /\ stored_session (localStorage (snd (checkExistingLogin t reloaded))) = None).
Proof.
  intros Hdefined Hmock Husers Hstore.
  rewrite (handleLogin_saved now _ _ _ _ _ user others Hdefined Hmock Husers)
    in Hstore.
  set (w1 := with_users (Some user) (Some user) w) in *.
  destruct (session_saved_lookup env now user (localStorage w1)) as (Hu & He & _).
  assert (Hu1 : localStorage reloaded !! "ipsms_user" = Some (JSON_stringify_user user))
    by (by rewrite Hstore, saved_world_lookup).
  assert (He1 : localStorage reloaded !! "ipsms_session_expiry"
                = Some (Number_toString (now + session_lifetime)))
    by (by rewrite Hstore, saved_world_lookup).
  split_and!.
  - rewrite Hstore. by apply stored_session_saved.
  - intros Hlt. by rewrite (checkExistingLogin_valid _ _ _ _ Hu1 He1 Hlt).
  - intros Hle. rewrite (checkExistingLogin_expired _ _ _ _ Hu1 He1 Hle). simpl.
    by rewrite stored_session_cleared.
Qed.


End LoginReliable.

End LifecycleFacts.

(* ================================================================== *)
(** * Administrator's view: properties *)
(* ================================================================== *)

Module AdminFacts.
Import JS JSFacts Permission SessionStore SessionFacts Admin.

(** X25.  [formatDuration] shows a duration rounded down.  It shows '0m'
    for [null], zero and negative durations.  For a positive duration it
    splits the milliseconds into hours, minutes below 60 and seconds
    below 60, which together are the duration rounded down to the
    second, and shows hours and minutes when there is a full hour,
    minutes and seconds when there is a full minute, and seconds
    otherwise. *)
Theorem formatDuration_rounds_down :
  formatDuration None = "0m"
  /\ (forall ms, ms <= 0 -> formatDuration (Some ms) = "0m")
  /\ (forall ms, 0 < ms ->
        exists hours minutes seconds,
          0 <= hours /\ 0 <= minutes < 60 /\ 0 <= seconds < 60
          /\ (hours * 3600 + minutes * 60 + seconds) * 1000 <= ms
          /\ ms < (hours * 3600 + minutes * 60 + seconds + 1) * 1000
          /\ formatDuration (Some ms)
             = if Z.ltb 0 hours then
                 Number_toString hours ++ "h " ++ Number_toString minutes ++ "m"
               else if Z.ltb 0 minutes then
                 Number_toString minutes ++ "m " ++ Number_toString seconds ++ "s"
               else Number_toString seconds ++ "s").
Proof.
  split; [reflexivity|]. split.
  - intros ms Hms. unfold formatDuration.
    destruct (Z.eqb_spec ms 0) as [->|Hne]; [done|].
    by rewrite (proj2 (Z.ltb_lt ms 0)) by lia.
  - intros ms Hms. unfold formatDuration.
    rewrite (proj2 (Z.eqb_neq ms 0)) by lia.
    rewrite (proj2 (Z.ltb_ge ms 0)) by lia. cbn [orb].
    rewrite !Z.rem_mod_nonneg by lia.
    exists (ms / (1000 * 60 * 60)), (ms mod (1000 * 60 * 60) / (1000 * 60)),
      (ms mod (1000 * 60) / 1000).
    split_and!; try reflexivity.
    all: Z.to_euclidean_division_equations; lia.
Qed.

(** ** The activity data *)

Section AnyMedium.
Context {S : Type} `{Storage S} `{JSON}.

(** X26.  The admin functions are closed to everybody else.  When the
    current user is not an administrator (nobody logged in included),
    [loadAdminDashboard()] and [clearUserActivityLog()] show 'Access
    denied. Administrator privileges required.' and do nothing else, on
    any medium: they return normally, the state, the store included, is
    left as it was, no confirmation is asked and no activity data are
    displayed. *)
Theorem admin_functions_denied (now : Z) (confirmed : bool) (w : World S) :
  isAdminUser (currentUser w) = false ->
  loadAdminDashboard now w
  = (Return [ShowError "Access denied. Administrator privileges required."], w)
  /\ clearUserActivityLog now confirmed w
     = (Return [ShowError "Access denied. Administrator privileges required."], w).
Proof.
  intros Hdenied.
  unfold loadAdminDashboard, clearUserActivityLog, bind, get_currentUser.
  by rewrite Hdenied.
Qed.

End AnyMedium.

Section Reliable.
Context `{JSON} `{!JSONLaws}.
Variable env : Env.

Local Abbreviation world := (World (gmap string string)).

Lemma getUserActivityData_eq (now : Z) (w : world) :
  getUserActivityData now w
  = (Return match activity_log w with
            | Some log => with_duration now <$> log
            | None => []
            end, w).
Proof.
  unfold getUserActivityData, try_catch, bind. rewrite read_activity_log_eq.
  by destruct (activity_log w).
Qed.

Lemma loadAdminDashboard_eq (now : Z) (w : world) :
  isAdminUser (currentUser w) = true ->
  loadAdminDashboard now w
  = (Return [DisplayUserActivityTable
               match activity_log w with
               | Some log => with_duration now <$> log
               | None => []
               end], w).
Proof.
  intros Hadmin. unfold loadAdminDashboard, bind, get_currentUser.
  rewrite Hadmin. cbn [negb]. by rewrite getUserActivityData_eq.
Qed.


(** X28.  Clearing the activity log.  For an administrator on a reliable
    store, [clearUserActivityLog()] asks for confirmation first.  When
    the answer is no, nothing changes.  When it is yes, the log key is
    removed and no other key is touched, so the session of the
    administrator stays; the log then reads as empty, also if it was
    unreadable before; the empty table is displayed and 'User activity
    log cleared successfully' is shown. *)
Theorem clearUserActivityLog_clears (now : Z) (w : world) :
  isAdminUser (currentUser w) = true ->
  let question :=
    Confirm "Are you sure you want to clear all user activity logs? This action cannot be undone." in
  clearUserActivityLog now false w = (Return [question], w)
  /\ exists w',
       clearUserActivityLog now true w
       = (Return [question; DisplayUserActivityTable [];
                  ShowSuccess "User activity log cleared successfully"], w')
       /\ localStorage w' = delete "ipsms_user_activity_log" (localStorage w)
       /\ localStorage w' !! "ipsms_user_activity_log" = None
       /\ (forall k, k <> "ipsms_user_activity_log" ->
                     localStorage w' !! k = localStorage w !! k)
       /\ stored_session (localStorage w') = stored_session (localStorage w)
       /\ currentUser w' = currentUser w
       /\ activity_log w' = Some []
       /\ getUserActivityData now w' = (Return [], w').
Proof.
  intros Hadmin question. subst question.
  unfold clearUserActivityLog, bind, get_currentUser. rewrite Hadmin. cbn [negb].
  split; [reflexivity|].
  unfold try_catch, bind, localStorage_removeItem.
  cbn [removeItem reliable_storage].
  set (w' := with_storage (delete "ipsms_user_activity_log" (localStorage w)) w).
  assert (Hempty : activity_log w' = Some []).
  { apply activity_log_absent. apply lookup_delete_eq. }
  rewrite (loadAdminDashboard_eq now w' Hadmin), Hempty. cbn [fmap list_fmap].
  exists w'. split_and!; try done.
  - apply lookup_delete_eq.
  - intros k Hk. by apply lookup_delete_ne.
  - unfold stored_session. cbn [localStorage w' with_storage].
    by rewrite !lookup_delete_ne.
  - by rewrite getUserActivityData_eq, Hempty.
Qed.

(** ** A log that does not parse *)




End Reliable.

End AdminFacts.

(* ================================================================== *)
(** * Navigation: who gets to see which section *)
(* ================================================================== *)

Module NavigationFacts.
Import Permission Navigation.

Section Gates.
Variable doc : Document.

Lemma to_dashboard_loads (currentUser : option User) (loader : string) :
  In (Load loader) (calls (to_dashboard doc currentUser)) ->
  loader = "loadDashboardData" /\ is_Some currentUser.
Proof.
  unfold to_dashboard, showSection_with, calls.
  destruct currentUser as [user|]; simpl.
  - destruct (has_section doc "dashboard"); simpl.
    + destruct (rejects doc "loadDashboardData"); simpl;
        intuition (try discriminate); naive_solver.
    + intuition discriminate.
  - intuition discriminate.
Qed.

Lemma awaits_loads (loader loader' : string) :
  In (Load loader') (calls (awaits doc loader)) -> loader' = loader.
Proof.
  unfold awaits, calls. simpl. destruct (rejects doc loader); simpl;
    intuition (try discriminate); congruence.
Qed.

Lemma refuses_loads (currentUser : option User) (refusal : list Call) (loader : string) :
  (forall l, ~ In (Load l) refusal) ->
  In (Load loader) (calls (refuses refusal (to_dashboard doc currentUser))) ->
  loader = "loadDashboardData".
Proof.
  intros Hrefusal. unfold refuses, calls. simpl.
  rewrite ?in_app_iff. simpl. rewrite ?in_app_iff. simpl.
  intros [Hin | [[Hin | [Hin | [Hin | []]]] | Hin]]; try discriminate.
  - by apply Hrefusal in Hin.
  - apply (to_dashboard_loads currentUser). unfold calls. apply in_app_iff. by left.
  - apply (to_dashboard_loads currentUser). unfold calls. apply in_app_iff. by right.
Qed.

Lemma loadSectionData_loads (currentUser : option User) (sectionName loader : string) :
  In (Load loader) (calls (loadSectionData doc currentUser sectionName)) ->
  (loader = "loadReportsManagement" -> canVerifyReports currentUser = true)
  /\ (loader = "loadAdminDashboard" -> isAdminUser currentUser = true).
Proof.
  unfold loadSectionData, loadSectionData_from.
  assert (Hlogin : forall m l, ~ In (Load l) [ShowError m; ShowLogin])
    by (intros m l [|[|[]]]; discriminate).
  assert (Hdenied : forall m l, ~ In (Load l) [ShowError m])
    by (intros m l [|[]]; discriminate).
  destruct currentUser as [user|];
    repeat match goal with
    | |- context [String.eqb sectionName ?s] => destruct (String.eqb sectionName s)
    end;
    repeat match goal with
    | |- context [negb (canVerifyReports ?u)] =>
        destruct (canVerifyReports u) eqn:Hcan; cbn [negb]
    | |- context [negb (isAdminUser ?u)] =>
        destruct (isAdminUser u) eqn:Hadmin; cbn [negb]
    | |- context [has_loadMapData doc] => destruct (has_loadMapData doc)
    | |- context [has_loadAnalyticsData doc] => destruct (has_loadAnalyticsData doc)
    end.
  all: intros Hin.
  all: try (apply awaits_loads in Hin; subst loader; split; intros; done).
  all: try (apply refuses_loads in Hin; [subst loader; split; intros; done | done]).
  all: unfold calls in Hin; simpl in Hin.
  all: try (destruct (rejects doc "loadMapData"); simpl in Hin).
  all: intuition (try discriminate); simplify_eq.
Qed.

(** X30.  The reports-management and admin sections load only for those
    allowed.  Whatever section name is asked for, [showSection],
    [loadSectionData] and [checkLoginAndShowSection] call
    [loadReportsManagement] only when [canVerifyReports(currentUser)]
    holds and [loadAdminDashboard] only when [isAdminUser(currentUser)]
    holds, now or later.  With nobody logged in [showSection] loads
    nothing at all.  A logged-in user who asks for one of the two
    sections without the permission is shown an error and taken to the
    dashboard; a user with the permission gets the section's data
    loaded. *)
Theorem sections_are_gated (currentUser : option User) (sectionName : string) :
  (forall run loader,
      run = showSection doc currentUser sectionName
      \/ run = loadSectionData doc currentUser sectionName
      \/ run = checkLoginAndShowSection doc currentUser sectionName ->
      In (Load loader) (calls run) ->
      (loader = "loadReportsManagement" -> canVerifyReports currentUser = true)
      /\ (loader = "loadAdminDashboard" -> isAdminUser currentUser = true))
  /\ (currentUser = None ->
        forall loader,
          ~ In (Load loader) (calls (showSection doc currentUser sectionName)))
  /\ (is_Some currentUser -> canVerifyReports currentUser = false ->
        at_once (loadSectionData doc currentUser "reports-management")
        = (ShowLoading
           :: ShowError "Access denied. Only Researchers, Administrators, and Government Officials can access reports management."
           :: at_once (showSection doc currentUser "dashboard") ++ [HideLoading])%list)
  /\ (is_Some currentUser -> isAdminUser currentUser = false ->
        at_once (loadSectionData doc currentUser "admin")
        = (ShowLoading
           :: ShowError "Access denied. Administrator privileges required."
           :: at_once (showSection doc currentUser "dashboard") ++ [HideLoading])%list)
  /\ (canVerifyReports currentUser = true ->
        at_once (loadSectionData doc currentUser "reports-management")
        = [ShowLoading; Load "loadReportsManagement"])
  /\ (isAdminUser currentUser = true ->
        at_once (loadSectionData doc currentUser "admin")
        = [ShowLoading; Load "loadAdminDashboard"]).
Proof.
  assert (Hshow : forall loader,
            In (Load loader) (calls (showSection doc currentUser sectionName)) ->
            In (Load loader) (calls (loadSectionData doc currentUser sectionName))
            /\ is_Some currentUser).
  { intros loader. unfold showSection, showSection_with, calls.
    destruct currentUser as [user|]; simpl.
    - destruct (has_section doc sectionName); simpl.
      + intros [|[|[|Hin]]]; try discriminate. done.
      + intros [|[]]. discriminate.
    - intros [|[|[]]]; discriminate. }
  split_and!.
  - intros run loader [-> | [-> | ->]] Hin.
    + apply Hshow in Hin as (Hin & _). by eapply loadSectionData_loads.
    + by eapply loadSectionData_loads.
    + unfold checkLoginAndShowSection in Hin.
      destruct currentUser as [user|] eqn:Huser.
      * rewrite <- Huser in *. apply Hshow in Hin as (Hin & _).
        by eapply loadSectionData_loads.
      * unfold calls in Hin. simpl in Hin. intuition discriminate.
  - intros -> loader Hin. apply Hshow in Hin as (_ & [? Hsome]). discriminate.
  - intros [user ->] Hdenied.
    unfold loadSectionData, loadSectionData_from. cbn [String.eqb Ascii.eqb Bool.eqb].
    rewrite Hdenied. reflexivity.
  - intros [user ->] Hdenied.
    unfold loadSectionData, loadSectionData_from. cbn [String.eqb Ascii.eqb Bool.eqb].
    rewrite Hdenied. reflexivity.
  - intros Hallowed. destruct currentUser as [user|]; [|done].
    unfold loadSectionData, loadSectionData_from. cbn [String.eqb Ascii.eqb Bool.eqb].
    rewrite Hallowed. reflexivity.
  - intros Hallowed. destruct currentUser as [user|]; [|done].
    unfold loadSectionData, loadSectionData_from. cbn [String.eqb Ascii.eqb Bool.eqb].
    rewrite Hallowed. reflexivity.
Qed.

End Gates.

End NavigationFacts.

(* ================================================================== *)
(** * The further properties at work on the mock data *)
(* ================================================================== *)

Module WalkthroughFacts.
Import JS JSONText JSONTextFacts Permission Repository Scenario Walkthrough.

(** ** Repository *)

Lemma pending_report_stored : pending_report ∈ reports (mockData api).
Proof. apply (bool_decide_unpack _). vm_compute. exact I. Qed.

Lemma no_report_9 : forall r, r ∈ reports (mockData api) -> report_id r <> "9".
Proof. apply Forall_forall. apply (bool_decide_unpack _). vm_compute. exact I. Qed.

(** Looking up report 2, which is there, and report 9, which is not. *)
Lemma lookup_in_mock_data :
  useMockData api = true
  /\ getReportById api "9" = Rejected "Report not found"
  /\ exists view, getReportById api "2" = Resolved view /\ report_id (data view) = "2".
Proof.
  assert (Hmock : useMockData api = true) by reflexivity.
  destruct (ReportsFacts.getReportById_lookup api "9" Hmock) as (Hrejected & _ & _).
  destruct (ReportsFacts.getReportById_lookup api "2" Hmock) as (_ & Hfound & _).
  split; [exact Hmock|]. split.
  - apply Hrejected. exact no_report_9.
  - destruct (Hfound pending_report pending_report_stored eq_refl)
      as (i & view & Hget & _ & Hid & _).
    exists view. split; [exact Hget | exact Hid].
Defined.

(** Report 2 is rejected and then verified. *)
Lemma verified_after_rejected :
  useMockData api = true
  /\ verifyReport
       (snd (verifyReport api "2" "Test User" "Rejected" (Some "seen twice")
               "2024-02-01T09:00:00.000Z"))
       "2" "Site Admin" "Verified" None "2024-02-02T09:00:00.000Z"
     = verifyReport api "2" "Site Admin" "Verified" None "2024-02-02T09:00:00.000Z".
Proof.
  assert (Hmock : useMockData api = true) by reflexivity.
  split; [exact Hmock|].
  exact (ReportsFacts.verifyReport_last_wins api "2"
           "Test User" "Rejected" (Some "seen twice") "2024-02-01T09:00:00.000Z"
           "Site Admin" "Verified" None "2024-02-02T09:00:00.000Z" Hmock).
Defined.

(** A fourth report is created. *)
Lemma fourth_report_created :
  useMockData api = true
  /\ exists report api',
       Reports.createReport api sighting_data "2024-02-01T09:00:00.000Z"
       = (Reports.Created report, api')
       /\ report_id report = "4"
       /\ length (reports (mockData api')) = 4%nat.
Proof.
  assert (Hmock : useMockData api = true) by reflexivity.
  split; [exact Hmock|].
  destruct (ReportsFacts.createReport_appends api sighting_data
              "2024-02-01T09:00:00.000Z" Hmock)
    as (report & api' & Hcreate & Hreport & Hreports & _).
  exists report, api'. split; [exact Hcreate|]. split.
  - rewrite Hreport. reflexivity.
  - rewrite Hreports. rewrite length_app. reflexivity.
Defined.

(** A report is created and two are verified: the ids stay distinct. *)
Lemma ids_distinct_after_calls :
  useMockData api = true
  /\ Reports.sequential_ids (reports (mockData api))
  /\ NoDup (report_id <$>
              reports (mockData
                (Reports.apply_calls
                   [Reports.CreateReport sighting_data "2024-02-01T09:00:00.000Z";
                    Reports.VerifyReport "4" "Test User" "Verified" None
                      "2024-02-02T09:00:00.000Z";
                    Reports.VerifyReport "2" "Test User" "Rejected" None
                      "2024-02-03T09:00:00.000Z"] api))).
Proof.
  assert (Hmock : useMockData api = true) by reflexivity.
  split; [exact Hmock|]. split; [exact ReportsFacts.sequential_ids_initial|].
  exact (proj1 (proj2
           (ReportsFacts.sequential_ids_kept
              [Reports.CreateReport sighting_data "2024-02-01T09:00:00.000Z";
               Reports.VerifyReport "4" "Test User" "Verified" None
                 "2024-02-02T09:00:00.000Z";
               Reports.VerifyReport "2" "Test User" "Rejected" None
                 "2024-02-03T09:00:00.000Z"] api Hmock ReportsFacts.sequential_ids_initial))).
Defined.

(** Verifying the pending report of the mock data moves one report from
    the pending to the verified count. *)
Lemma counters_after_verifying :
  useMockData api = true
  /\ pending_report ∈ reports (mockData api)
  /\ Reports.pending (Reports.updateReportsStatistics (reports (mockData api))) = 1%nat
  /\ Reports.pending
       (Reports.updateReportsStatistics
          (reports (mockData
             (snd (verifyReport api "2" "Test User" "Verified" None
                     "2024-02-01T09:00:00.000Z"))))) = 0%nat.
Proof.
  assert (Hmock : useMockData api = true) by reflexivity.
  split; [exact Hmock|]. split; [exact pending_report_stored|].
  split; [reflexivity|].
  destruct (ReportsFacts.verification_moves_counters api pending_report
              "Test User" "Verified" None "2024-02-01T09:00:00.000Z"
              Hmock pending_report_stored)
    as (r0 & (i & Hfind) & _ & _ & _ & Hmoves).
  assert (Hr0 : r0 = pending_report).
  { vm_compute in Hfind. injection Hfind as _ <-. reflexivity. }
  rewrite Hr0 in Hmoves.
  destruct (Hmoves eq_refl eq_refl) as (Hpending & _).
  exact (f_equal Nat.pred Hpending).
Defined.


(** ** Workflow *)


(** The researcher asks for the form of a report that does not exist. *)
Lemma researcher_opens_missing_report :
  canVerifyReports (Workflow.currentUser (page (Some researcher))) = true
  /\ useMockData (Workflow.invasiveSpeciesAPI (page (Some researcher))) = true
  /\ (forall r, r ∈ reports (mockData (Workflow.invasiveSpeciesAPI (page (Some researcher))))
                -> report_id r <> "9")
  /\ Workflow.modals (Workflow.showVerificationModal "9" (page (Some researcher))) = []
  /\ Workflow.trace (Workflow.showVerificationModal "9" (page (Some researcher)))
     = [Workflow.CallGetReportById "9";
        Workflow.ShowError "Failed to load report details for verification."].
Proof.
  assert (Hallowed : canVerifyReports (Workflow.currentUser (page (Some researcher)))
                     = true) by reflexivity.
  assert (Hmock : useMockData (Workflow.invasiveSpeciesAPI (page (Some researcher)))
                  = true) by reflexivity.
  split; [exact Hallowed|]. split; [exact Hmock|]. split; [exact no_report_9|].
  destruct (ReviewFacts.showVerificationModal_not_found (page (Some researcher)) "9"
              Hallowed Hmock no_report_9) as (Htrace & Hmodals & _).
  split; [exact Hmodals | exact Htrace].
Defined.

Lemma reviewing_form :
  Workflow.modals reviewing
  = [Workflow.new_modal "2"
       {| data := pending_report; species_name := "Pueraria montana" |} researcher].
Proof. reflexivity. Qed.

(** The researcher verifies report 2. *)
Lemma researcher_verifies_report :
  useMockData (Workflow.invasiveSpeciesAPI reviewing) = true
  /\ pending_report ∈ reports (mockData (Workflow.invasiveSpeciesAPI reviewing))
  /\ Workflow.modals
       (Workflow.submit "2024-02-01T09:00:00.000Z" "2" "Verified" "confirmed in field"
          reviewing) = []
  /\ exists view,
       getReportById
         (Workflow.invasiveSpeciesAPI
            (Workflow.submit "2024-02-01T09:00:00.000Z" "2" "Verified"
               "confirmed in field" reviewing)) "2" = Resolved view
       /\ verification_status (data view) = Some "Verified"
       /\ verified_by (data view) = Some "Test User".
Proof.
  assert (Hmock : useMockData (Workflow.invasiveSpeciesAPI reviewing) = true)
    by reflexivity.
  assert (Hin : pending_report ∈ reports (mockData (Workflow.invasiveSpeciesAPI reviewing)))
    by exact pending_report_stored.
  assert (Hdecision : "Verified" <> "") by discriminate.
  assert (Hverifier :
            Workflow.verifier_name_value
              (Workflow.new_modal "2"
                 {| data := pending_report; species_name := "Pueraria montana" |}
                 researcher) <> "") by discriminate.
  split; [exact Hmock|]. split; [exact Hin|].
  destruct (ReviewFacts.submit_applies_decision "2024-02-01T09:00:00.000Z" "Verified"
              "confirmed in field" reviewing _ [] pending_report
              reviewing_form Hdecision Hverifier Hmock Hin)
    as (view & Hmodals & _ & _ & Hget & _ & Hstatus & Hby & _).
  split; [exact Hmodals|].
  exists view. split; [exact Hget|]. split; [exact Hstatus | exact Hby].
Defined.

(** The researcher submits the form for a report that does not exist. *)
Lemma researcher_submits_for_missing_report :
  useMockData (Workflow.invasiveSpeciesAPI reviewing) = true
  /\ (forall r, r ∈ reports (mockData (Workflow.invasiveSpeciesAPI reviewing))
                -> report_id r <> "9")
  /\ length (Workflow.modals
               (Workflow.submit "2024-02-01T09:00:00.000Z" "9" "Verified" ""
                  reviewing)) = 1%nat
  /\ Workflow.invasiveSpeciesAPI
       (Workflow.submit "2024-02-01T09:00:00.000Z" "9" "Verified" "" reviewing)
     = api.
Proof.
  assert (Hmock : useMockData (Workflow.invasiveSpeciesAPI reviewing) = true)
    by reflexivity.
  assert (Hdecision : "Verified" <> "") by discriminate.
  assert (Hverifier :
            Workflow.verifier_name_value
              (Workflow.new_modal "2"
                 {| data := pending_report; species_name := "Pueraria montana" |}
                 researcher) <> "") by discriminate.
  split; [exact Hmock|]. split; [exact no_report_9|].
  destruct (ReviewFacts.submit_repository_failure "2024-02-01T09:00:00.000Z" "9"
              "Verified" "" reviewing _ [] reviewing_form Hdecision Hverifier
              Hmock no_report_9) as (_ & Hlength & _ & Hapi).
  split; [exact Hlength | exact Hapi].
Defined.

(** The researcher opens the form of report 2, types and cancels. *)
Lemma researcher_cancels :
  Workflow.closed (page (Some researcher))
  /\ canVerifyReports (Some researcher) = true
  /\ Workflow.closed
       (Workflow.closeVerificationModal
          (Workflow.fill_form "Rejected" "not sure"
             (Workflow.showVerificationModal "2" (page (Some researcher)))))
  /\ Workflow.invasiveSpeciesAPI
       (Workflow.closeVerificationModal
          (Workflow.fill_form "Rejected" "not sure"
             (Workflow.showVerificationModal "2" (page (Some researcher)))))
     = api.
Proof.
  assert (Hclosed : Workflow.closed (page (Some researcher))) by reflexivity.
  assert (Hallowed : canVerifyReports (Some researcher) = true) by reflexivity.
  split; [exact Hclosed|]. split; [exact Hallowed|].
  destruct (ReviewFacts.cancel_discards_input (page (Some researcher)) researcher
              pending_report "Rejected" "not sure" Hclosed eq_refl Hallowed eq_refl
              pending_report_stored)
    as (_ & _ & _ & Hcancelled & Hapi & _).
  split; [exact Hcancelled | exact Hapi].
Defined.

(** ** Session life cycle *)

(** Three events ten minutes apart while the researcher is logged in. *)
Lemma ten_minute_activity :
  Lifecycle.steady 1000 [601000; 1201000; 1801000] = true
  /\ snd (Lifecycle.activity [601000; 1201000; 1801000] 1000 logged_in) = logged_in
  /\ fst (Lifecycle.activity [601000; 1201000; 1801000] 1000 logged_in)
     = SessionStore.Return 1801000.
Proof.
  assert (Hsteady : Lifecycle.steady 1000 [601000; 1201000; 1801000] = true)
    by reflexivity.
  split; [exact Hsteady|].
  destruct (LifecycleFacts.steady_activity_never_refreshes
              [601000; 1201000; 1801000] 1000 logged_in (or_introl Hsteady))
    as (Hlast & Hsame & _).
  split; [exact Hsame | exact Hlast].
Defined.

(** The researcher's session, saved at time 1000, is refreshed at time
    5000. *)
Lemma researcher_refreshes :
  storage_defined browser = true
  /\ is_Some (SessionStore.currentUser fresh)
  /\ SessionStore.stored_session
       (SessionStore.localStorage
          (snd (Lifecycle.refreshUserSession 5000
                  (snd (SessionStore.saveUserSession browser 1000 researcher fresh)))))
     = Some {| SessionStore.session_user := researcher;
               SessionStore.issuedAt := 1000;
               SessionStore.expiresAt := 86405000 |}.
Proof.
  assert (Hdefined : storage_defined browser = true) by reflexivity.
  assert (Huser : is_Some (SessionStore.currentUser fresh))
    by (exists researcher; reflexivity).
  split; [exact Hdefined|]. split; [exact Huser|].
  destruct (LifecycleFacts.refresh_moves_expiry browser researcher 1000 5000 fresh
              Hdefined Huser) as (_ & Hsession & _).
  exact Hsession.
Defined.

(** An activity event forty minutes after the login. *)
Lemma activity_after_forty_minutes :
  storage_defined browser = true
  /\ is_Some (SessionStore.currentUser fresh)
  /\ SessionStore.stored_session
       (SessionStore.localStorage
          (snd (Lifecycle.on_activity 2401000 1000
                  (snd (SessionStore.saveUserSession browser 1000 researcher fresh)))))
     = Some {| SessionStore.session_user := researcher;
               SessionStore.issuedAt := 1000;
               SessionStore.expiresAt := 88801000 |}.
Proof.
  assert (Hdefined : storage_defined browser = true) by reflexivity.
  assert (Huser : is_Some (SessionStore.currentUser fresh))
    by (exists researcher; reflexivity).
  split; [exact Hdefined|]. split; [exact Huser|].
  destruct (LifecycleFacts.activity_after_pause_refreshes browser researcher
              1000 2401000 1000 fresh Hdefined Huser) as (_ & Hpause & _).
  destruct (Hpause eq_refl) as (Hsession & _).
  exact Hsession.
Defined.

(** A day of activity every twenty minutes does not keep the session. *)
Lemma active_for_a_day :
  storage_defined browser = true
  /\ is_Some (SessionStore.currentUser fresh)
  /\ Lifecycle.steady 1000 [1201000; 2401000; 3601000] = true
  /\ SessionStore.currentUser
       (snd (Lifecycle.check_session 86401000
               (snd (Lifecycle.activity [1201000; 2401000; 3601000] 1000
                       (snd (SessionStore.saveUserSession browser 1000 researcher
                               fresh)))))) = None.
Proof.
  assert (Hdefined : storage_defined browser = true) by reflexivity.
  assert (Huser : is_Some (SessionStore.currentUser fresh))
    by (exists researcher; reflexivity).
  assert (Hsteady : Lifecycle.steady 1000 [1201000; 2401000; 3601000] = true)
    by reflexivity.
  assert (Hlate : 1000 + SessionStore.session_lifetime <= 86401000) by discriminate.
  split; [exact Hdefined|]. split; [exact Huser|]. split; [exact Hsteady|].
  destruct (LifecycleFacts.session_expires_despite_activity browser researcher
              1000 86401000 [1201000; 2401000; 3601000] fresh
              Hdefined Huser Hsteady Hlate) as (_ & _ & _ & Hout & _).
  exact Hout.
Defined.

(** Somebody else's credentials log the researcher in, also on a store
    whose writes raise. *)
Lemma anybody_logs_in_as_the_researcher :
  Lifecycle.useMockData accounts = true
  /\ Lifecycle.users accounts = [researcher]
  /\ SessionStore.currentUser
       (snd (Lifecycle.handleLogin browser 1000 "admin@example.com" "Site Admin"
               "Administrator" accounts visitor_read_only)) = Some researcher
  /\ fst (SessionStore.saveUserSession browser 1000 researcher visitor_read_only)
     = false.
Proof.
  assert (Hmock : Lifecycle.useMockData accounts = true) by reflexivity.
  assert (Husers : Lifecycle.users accounts = [researcher]) by reflexivity.
  split; [exact Hmock|]. split; [exact Husers|]. split; [|reflexivity].
  destruct (LifecycleFacts.handleLogin_first_user browser 1000 "admin@example.com"
              "Site Admin" "Administrator" accounts visitor_read_only researcher []
              Hmock Husers) as (w' & Hlogin & _ & Hcurrent & _).
  rewrite Hlogin. exact Hcurrent.
Defined.

(** The first user ever registers as an administrator. *)
Lemma first_user_registers :
  Lifecycle.useMockData no_accounts = true
  /\ Lifecycle.users no_accounts = []
  /\ isAdminUser
       (SessionStore.currentUser
          (snd (Lifecycle.handleLogin browser 1000 "admin@example.com" "Site Admin"
                  "Administrator" no_accounts visitor))) = false
  /\ Lifecycle.users
       (snd (fst (Lifecycle.handleLogin browser 1000 "admin@example.com" "Site Admin"
                    "Administrator" no_accounts visitor)))
     = [administrator_registered].
Proof.
  assert (Hmock : Lifecycle.useMockData no_accounts = true) by reflexivity.
  assert (Husers : Lifecycle.users no_accounts = []) by reflexivity.
  split; [exact Hmock|]. split; [exact Husers|].
  destruct (LifecycleFacts.first_registration_reads_undefined browser 1000
              "admin@example.com" "Site Admin" "Administrator" no_accounts visitor
              Hmock Husers)
    as (shown & table' & w' & Hlogin & Htable & _ & _ & _ & _ & Hadmin & _).
  rewrite Hlogin. split; [exact Hadmin | exact Htable].
Defined.

(** The researcher logs in at time 1000 and reloads the page an hour
    later. *)
Lemma researcher_reloads :
  storage_defined browser = true
  /\ Lifecycle.useMockData accounts = true
  /\ Lifecycle.users accounts = [researcher]
  /\ fst (SessionStore.checkExistingLogin 3601000
            (snd (Lifecycle.handleLogin browser 1000 "test@example.com" "Test User"
                    "Researcher" accounts visitor))) = true.
Proof.
  assert (Hdefined : storage_defined browser = true) by reflexivity.
  assert (Hmock : Lifecycle.useMockData accounts = true) by reflexivity.
  assert (Husers : Lifecycle.users accounts = [researcher]) by reflexivity.
  split; [exact Hdefined|]. split; [exact Hmock|]. split; [exact Husers|].
  destruct (LifecycleFacts.login_survives_reload browser 1000 3601000
              "test@example.com" "Test User" "Researcher" accounts visitor
              (snd (Lifecycle.handleLogin browser 1000 "test@example.com" "Test User"
                      "Researcher" accounts visitor))
              researcher [] Hdefined Hmock Husers eq_refl) as (_ & Hvalid & _).
  destruct (Hvalid eq_refl) as (Hrestored & _).
  exact Hrestored.
Defined.


(** ** Administrator's view *)

(** The researcher, who is no administrator, asks for the admin
    functions. *)
Lemma researcher_is_denied :
  isAdminUser (SessionStore.currentUser logged_in) = false
  /\ snd (Admin.clearUserActivityLog 2000 true logged_in) = logged_in.
Proof.
  assert (Hdenied : isAdminUser (SessionStore.currentUser logged_in) = false)
    by reflexivity.
  split; [exact Hdenied|].
  destruct (AdminFacts.admin_functions_denied 2000 true logged_in Hdenied)
    as (_ & Hclear).
  rewrite Hclear. reflexivity.
Defined.


(** The administrator clears the log. *)
Lemma administrator_clears_log :
  isAdminUser (SessionStore.currentUser admin_logged_in) = true
  /\ (length <$> SessionStore.activity_log admin_logged_in) = Some 2%nat
  /\ exists w',
       snd (Admin.clearUserActivityLog 2000 true admin_logged_in) = w'
       /\ SessionStore.activity_log w' = Some [].
Proof.
  assert (Hadmin : isAdminUser (SessionStore.currentUser admin_logged_in) = true)
    by reflexivity.
  split; [exact Hadmin|]. split; [vm_compute; reflexivity|].
  destruct (AdminFacts.clearUserActivityLog_clears 2000 admin_logged_in Hadmin)
    as (_ & w' & Hclear & _ & _ & _ & _ & _ & Hempty & _).
  exists w'. split; [|exact Hempty].
  rewrite Hclear. reflexivity.
Defined.


(** ** What the properties without a premise say on the mock data *)

(** A store that holds the user but no expiry, one whose user text is
    garbled, and one whose expiry is no number. *)
Example restore_from_unusable_stores :
  let stale := <["ipsms_user" := JSON_stringify_user researcher]> ∅ in
  let broken := <["ipsms_user" := "{"]> ∅ in
  let timeless :=
    <["ipsms_session_expiry" := "soon"]>
      (<["ipsms_user" := JSON_stringify_user researcher]> ∅) in
  let world (s : gmap string string) :=
    {| SessionStore.localStorage := s;
       SessionStore.currentUser := None;
       SessionStore.api_currentUser := None;
       SessionStore.id_calls := 0;
       SessionStore.effects := [] |} in
  fst (SessionStore.checkExistingLogin 1000 (world stale)) = false
  /\ SessionStore.localStorage (snd (SessionStore.checkExistingLogin 1000 (world stale)))
     = stale
  /\ fst (SessionStore.checkExistingLogin 1000 (world broken)) = false
  /\ SessionStore.localStorage (snd (SessionStore.checkExistingLogin 1000 (world broken)))
     = ∅
  /\ fst (SessionStore.checkExistingLogin 1000 (world timeless)) = false
  /\ SessionStore.localStorage
       (snd (SessionStore.checkExistingLogin 1000 (world timeless))) = ∅.
Proof. vm_compute. done. Qed.

(** The periodic check before and after the expiry of the researcher's
    session. *)
Example periodic_check :
  Lifecycle.check_session 3601000 logged_in = (SessionStore.Return [], logged_in)
  /\ SessionStore.currentUser (snd (Lifecycle.check_session 86401000 logged_in))
     = None.
Proof. vm_compute. done. Qed.

(** Durations as the activity table shows them. *)
Example durations_shown :
  Admin.formatDuration (Some 3725000) = "1h 2m"
  /\ Admin.formatDuration (Some 125000) = "2m 5s"
  /\ Admin.formatDuration (Some 999) = "0s"
  /\ Admin.formatDuration (Some 0) = "0m".
Proof. vm_compute. done. Qed.

(** The researcher may open the reports management but not the admin
    section; the administrator may open both. *)
Example sections_opened :
  let loads user sectionName :=
    Navigation.calls (Navigation.showSection document user sectionName) in
  In (Navigation.Load "loadReportsManagement")
    (loads (Some researcher) "reports-management")
  /\ ~ In (Navigation.Load "loadAdminDashboard") (loads (Some researcher) "admin")
  /\ In (Navigation.Load "loadDashboardData") (loads (Some researcher) "admin")
  /\ In (Navigation.Load "loadAdminDashboard") (loads (Some administrator) "admin")
  /\ ~ In (Navigation.Load "loadReportsManagement")
         (loads (Some citizen) "reports-management").
Proof.
  simpl. split_and!.
  - vm_compute. tauto.
  - vm_compute. intuition discriminate.
  - vm_compute. tauto.
  - vm_compute. tauto.
  - vm_compute. intuition discriminate.
Qed.

End WalkthroughFacts.
